(** * SocketAsync: a promise-based TCP socket with SOCKS5 / HTTP CONNECT proxies

    A shallow embedding of [SocketAsync.js].  The socket object is a record,
    the stream's notifications are an explicit list of events, and every
    [async] method is a function from the socket and the pending
    notifications to an outcome, the new socket and the notifications left.

    Layout:
    - [Js]      : the host platform (strings, buffers, numbers, errors);
    - [Regex]   : a derivative-based matcher for the regular expressions used;
    - [Net]     : [net.isIP];
    - [Socket]  : the class [SocketAsync] itself;
    - the notions the statements use (the protocol's own reading of the
      messages), checks on concrete inputs, and then the theorems: the
      receive buffer, the terminal error, the SOCKS5 and HTTP negotiations,
      the orchestrator and the SOCKS5 connect request. *)

From Stdlib Require Import ZArith List String Ascii Bool Lia.
Import ListNotations.
Local Open Scope Z_scope.

(* ================================================================== *)
(** ** The host platform *)
(* ================================================================== *)

Module Js.

(** A JavaScript string is a sequence of UTF-16 code units; a [Buffer] is a
    sequence of bytes.  Both are kept as [Z], with the wrap-around of the
    platform written out where a value is stored. *)
Definition jsstring := list Z.
Definition Buffer := list Z.

Definition code_unit (c : Z) : Prop := 0 <= c < 65536.
Definition is_byte (b : Z) : Prop := 0 <= b < 256.

(** [s.length] and [buf.length]. *)
Definition len {A} (l : list A) : Z := Z.of_nat (List.length l).

(** [buf[i]]: out-of-range indexing is defined and yields [undefined]. *)
Definition index (b : Buffer) (i : Z) : option Z :=
  if i <? 0 then None else nth_error b (Z.to_nat i).

(** [Buffer.from(array)]: every element is stored modulo 256. *)
Definition Buffer_from_array (a : list Z) : Buffer :=
  map (fun x => x mod 256) a.

(** [Buffer.concat(list)]. *)
Definition Buffer_concat (l : list Buffer) : Buffer := List.concat l.

(** [buf.subarray(start, end)]: negative indices count from the end, both
    indices are clamped to the buffer, an empty range gives an empty view. *)
Definition clamp_index (n i : Z) : Z :=
  if i <? 0 then Z.max (n + i) 0 else Z.min i n.

Definition subarray (b : Buffer) (start stop : Z) : Buffer :=
  let n := len b in
  let lo := clamp_index n start in
  let hi := clamp_index n stop in
  firstn (Z.to_nat (Z.max (hi - lo) 0)) (skipn (Z.to_nat lo) b).

(** [a === b] on strings, and equality of buffers. *)
Fixpoint jsstring_eqb (a b : list Z) : bool :=
  match a, b with
  | [], [] => true
  | x :: a', y :: b' => (x =? y) && jsstring_eqb a' b'
  | _, _ => false
  end.

(** *** UTF-8 *)

Definition is_high_surrogate (c : Z) : bool := (0xD800 <=? c) && (c <=? 0xDBFF).
Definition is_low_surrogate (c : Z) : bool := (0xDC00 <=? c) && (c <=? 0xDFFF).

Definition replacement_bytes : Buffer := [0xEF; 0xBF; 0xBD].

(** [Buffer.from(string)]: the UTF-8 encoding of the string; a surrogate that
    is not part of a pair is written as U+FFFD. *)
Fixpoint utf8_encode (s : jsstring) : Buffer :=
  match s with
  | [] => []
  | c :: r =>
      if c <? 0x80 then c :: utf8_encode r
      else if c <? 0x800 then
        (0xC0 + c / 64) :: (0x80 + c mod 64) :: utf8_encode r
      else if is_high_surrogate c then
        match r with
        | d :: r' =>
            if is_low_surrogate d then
              let cp := 0x10000 + (c - 0xD800) * 1024 + (d - 0xDC00) in
              (0xF0 + cp / 262144) :: (0x80 + (cp / 4096) mod 64)
                :: (0x80 + (cp / 64) mod 64) :: (0x80 + cp mod 64)
                :: utf8_encode r'
            else replacement_bytes ++ utf8_encode r
        | [] => replacement_bytes
        end
      else if is_low_surrogate c then replacement_bytes ++ utf8_encode r
      else
        (0xE0 + c / 4096) :: (0x80 + (c / 64) mod 64) :: (0x80 + c mod 64)
          :: utf8_encode r
  end.

(** The code units of one code point. *)
Definition utf16_units (cp : Z) : jsstring :=
  if cp <? 0x10000 then [cp]
  else [0xD800 + (cp - 0x10000) / 1024; 0xDC00 + (cp - 0x10000) mod 1024].

(** The state of the UTF-8 decoder: the code point under construction, the
    number of continuation bytes still expected, and the range the next
    continuation byte must lie in. *)
Record utf8_state := mkUtf8 {
  u_cp : Z; u_need : nat; u_lo : Z; u_hi : Z
}.

Definition utf8_init : utf8_state := mkUtf8 0 0 0x80 0xBF.

(** A byte read when no sequence is open. *)
Definition utf8_lead (b : Z) : utf8_state * jsstring :=
  if (0 <=? b) && (b <=? 0x7F) then (utf8_init, [b])
  else if (0xC2 <=? b) && (b <=? 0xDF) then
    (mkUtf8 (b - 0xC0) 1 0x80 0xBF, [])
  else if (0xE0 <=? b) && (b <=? 0xEF) then
    (mkUtf8 (b - 0xE0) 2 (if b =? 0xE0 then 0xA0 else 0x80)
            (if b =? 0xED then 0x9F else 0xBF), [])
  else if (0xF0 <=? b) && (b <=? 0xF4) then
    (mkUtf8 (b - 0xF0) 3 (if b =? 0xF0 then 0x90 else 0x80)
            (if b =? 0xF4 then 0x8F else 0xBF), [])
  else (utf8_init, [0xFFFD]).

Definition utf8_step (st : utf8_state) (b : Z) : utf8_state * jsstring :=
  match u_need st with
  | O => utf8_lead b
  | S k =>
      if (u_lo st <=? b) && (b <=? u_hi st) then
        let cp := u_cp st * 64 + (b - 0x80) in
        match k with
        | O => (utf8_init, utf16_units cp)
        | S _ => (mkUtf8 cp k 0x80 0xBF, [])
        end
      else
        (* the open sequence is replaced, the byte is read again *)
        let '(st', out) := utf8_lead b in (st', 0xFFFD :: out)
  end.

Fixpoint utf8_run (st : utf8_state) (b : Buffer) : jsstring :=
  match b with
  | [] => match u_need st with O => [] | S _ => [0xFFFD] end
  | x :: r => let '(st', out) := utf8_step st x in out ++ utf8_run st' r
  end.

(** [buf.toString()]: UTF-8 decoding, every ill-formed subsequence replaced
    by U+FFFD. *)
Definition utf8_decode (b : Buffer) : jsstring := utf8_run utf8_init b.

(** *** String literals *)

Definition bytes_of_string (s : string) : Buffer :=
  map (fun a => Z.of_N (N_of_ascii a)) (list_ascii_of_string s).

(** The JavaScript string a literal of the source file denotes (the source
    file is UTF-8). *)
Definition js (s : string) : jsstring := utf8_decode (bytes_of_string s).

(** *** Numbers and strings *)

Definition digit_char (d : Z) : Z := if d <? 10 then 48 + d else 87 + d.

Fixpoint digits_from (radix : Z) (fuel : nat) (n : Z) (acc : jsstring) : jsstring :=
  let acc' := digit_char (n mod radix) :: acc in
  match fuel with
  | O => acc'
  | S f => if n / radix =? 0 then acc' else digits_from radix f (n / radix) acc'
  end.

(** [Number(n).toString(radix)] for an integer [n]. *)
Definition Number_toString (radix n : Z) : jsstring :=
  if n <? 0 then 45 :: digits_from radix (Z.to_nat (Z.log2 (- n))) (- n) []
  else digits_from radix (Z.to_nat (Z.log2 n)) n [].

(** [v === n] for [v] a byte read from a buffer, or [undefined]. *)
Definition strict_eq (v : option Z) (n : Z) : bool :=
  match v with
  | Some x => x =? n
  | None => false
  end.

(** A byte read from a buffer inside a template literal: a number or
    [undefined]. *)
Definition show_index (v : option Z) : jsstring :=
  match v with
  | Some n => Number_toString 10 n
  | None => js "undefined"
  end.

Definition is_digit (c : Z) : bool := (48 <=? c) && (c <=? 57).

(** [Number(s)] for a string of decimal digits; any other string reaching
    the byte conversion below is not a number and is stored as 0. *)
Definition decimal_value (s : jsstring) : option Z :=
  match s with
  | [] => None
  | _ => if forallb is_digit s
         then Some (fold_left (fun acc c => acc * 10 + (c - 48)) s 0)
         else None
  end.

(** [Buffer.from(arrayOfStrings)]: each element is converted to a number and
    stored modulo 256. *)
Definition Buffer_from_strings (a : list jsstring) : Buffer :=
  map (fun s => match decimal_value s with Some n => n mod 256 | None => 0 end) a.

Definition unhex (c : Z) : option Z :=
  if (48 <=? c) && (c <=? 57) then Some (c - 48)
  else if (97 <=? c) && (c <=? 102) then Some (c - 87)
  else if (65 <=? c) && (c <=? 70) then Some (c - 55)
  else None.

Definition is_hex (c : Z) : bool :=
  match unhex c with Some _ => true | None => false end.

(** [Buffer.from(s, 'hex')]: pairs of hexadecimal digits, up to the first
    pair that is not one; a trailing single digit is dropped. *)
Fixpoint hex_decode (s : jsstring) : Buffer :=
  match s with
  | a :: b :: r =>
      match unhex a, unhex b with
      | Some x, Some y => (16 * x + y) :: hex_decode r
      | _, _ => []
      end
  | _ => []
  end.

(** [s.split(sep)] for a one-character separator. *)
Fixpoint split (sep : Z) (s : jsstring) : list jsstring :=
  match s with
  | [] => [[]]
  | c :: r =>
      if c =? sep then [] :: split sep r
      else match split sep r with
           | h :: t => (c :: h) :: t
           | [] => [[c]]
           end
  end.

(** [parts.join(sep)] for a one-character separator. *)
Fixpoint join (sep : Z) (parts : list jsstring) : jsstring :=
  match parts with
  | [] => []
  | [p] => p
  | p :: rest => p ++ sep :: join sep rest
  end.

(** White space and line terminators, as [String.prototype.trim] removes. *)
Definition is_space (c : Z) : bool :=
  ((9 <=? c) && (c <=? 13)) || (c =? 0x20) || (c =? 0xA0) || (c =? 0x1680)
  || ((0x2000 <=? c) && (c <=? 0x200A)) || (c =? 0x2028) || (c =? 0x2029)
  || (c =? 0x202F) || (c =? 0x205F) || (c =? 0x3000) || (c =? 0xFEFF).

Fixpoint trim_start (s : jsstring) : jsstring :=
  match s with
  | c :: r => if is_space c then trim_start r else s
  | [] => []
  end.

Definition trim (s : jsstring) : jsstring :=
  rev (trim_start (rev (trim_start s))).

(** ASCII letter case; a code unit outside ASCII is never mapped into it. *)
Definition ascii_upper (c : Z) : Z :=
  if (97 <=? c) && (c <=? 122) then c - 32 else c.
Definition ascii_lower (c : Z) : Z :=
  if (65 <=? c) && (c <=? 90) then c + 32 else c.

(** *** Base64, as [buf.toString('base64')] *)

Definition base64_char (v : Z) : Z :=
  if v <? 26 then 65 + v
  else if v <? 52 then 97 + (v - 26)
  else if v <? 62 then 48 + (v - 52)
  else if v =? 62 then 43 else 47.

Fixpoint base64 (b : Buffer) : jsstring :=
  match b with
  | [] => []
  | [x] => [base64_char (x / 4); base64_char ((x mod 4) * 16); 61; 61]
  | [x; y] =>
      [base64_char (x / 4); base64_char ((x mod 4) * 16 + y / 16);
       base64_char ((y mod 16) * 4); 61]
  | x :: y :: z :: r =>
      base64_char (x / 4) :: base64_char ((x mod 4) * 16 + y / 16)
        :: base64_char ((y mod 16) * 4 + z / 64) :: base64_char (z mod 64)
        :: base64 r
  end.

(** *** Errors *)

(** The classes of error objects the program meets.  [Error] and its
    subclass [ProxyError] print with [Error.prototype.toString]; the
    assertion error of [assert] has a printer of its own. *)
Inductive ErrorClass := ClsError | ClsAssertionError | ClsProxyError.

Record JsError := mkJsError {
  cls : ErrorClass;
  name : jsstring;
  message : jsstring;
  code : jsstring
}.

(** [new Error(msg)]. *)
Definition Error (msg : jsstring) : JsError :=
  mkJsError ClsError (js "Error") msg [].

(** The error [assert(false, msg)] throws. *)
Definition AssertionError (msg : jsstring) : JsError :=
  mkJsError ClsAssertionError (js "AssertionError") msg (js "ERR_ASSERTION").

(** [String(e)] for an error object [e]. *)
Definition Error_toString (e : JsError) : jsstring :=
  match cls e with
  | ClsAssertionError =>
      name e ++ js " [" ++ code e ++ js "]: " ++ message e
  | _ =>
      match name e, message e with
      | [], m => m
      | n, [] => n
      | n, m => n ++ js ": " ++ m
      end
  end.

(** A synchronous computation either returns or throws. *)
Inductive Result (A : Type) :=
| Ok (a : A)
| Throw (e : JsError).
Arguments Ok {A} a.
Arguments Throw {A} e.

End Js.

Import Js.

(* ================================================================== *)
(** ** Regular expressions *)
(* ================================================================== *)

(** The regular expressions of the program and of [net.isIP] are anchored
    and use only characters, classes, sequence, alternation and bounded
    repetition.  They are matched with Brzozowski derivatives. *)
Module Regex.

Inductive re :=
| Empty
| Eps
| Chr (p : Z -> bool)
| Seq (a b : re)
| Alt (a b : re)
| Star (a : re).

Fixpoint nullable (r : re) : bool :=
  match r with
  | Empty => false
  | Eps => true
  | Chr _ => false
  | Seq a b => nullable a && nullable b
  | Alt a b => nullable a || nullable b
  | Star _ => true
  end.

Definition mkSeq (a b : re) : re :=
  match a with
  | Empty => Empty
  | Eps => b
  | _ => match b with Empty => Empty | _ => Seq a b end
  end.

Definition mkAlt (a b : re) : re :=
  match a with
  | Empty => b
  | _ => match b with Empty => a | _ => Alt a b end
  end.

Fixpoint deriv (c : Z) (r : re) : re :=
  match r with
  | Empty => Empty
  | Eps => Empty
  | Chr p => if p c then Eps else Empty
  | Seq a b =>
      mkAlt (mkSeq (deriv c a) b) (if nullable a then deriv c b else Empty)
  | Alt a b => mkAlt (deriv c a) (deriv c b)
  | Star a => mkSeq (deriv c a) (Star a)
  end.

(** [^r$] tested on [s]. *)
Fixpoint matches (r : re) (s : jsstring) : bool :=
  match s with
  | [] => nullable r
  | c :: s' => matches (deriv c r) s'
  end.

(** [^r] tested on [s]: some prefix of [s] matches [r]. *)
Fixpoint matches_prefix (r : re) (s : jsstring) : bool :=
  nullable r ||
  match s with
  | [] => false
  | c :: s' => matches_prefix (deriv c r) s'
  end.

(** *** The language of a pattern *)

Inductive Matches : re -> jsstring -> Prop :=
| MEps : Matches Eps []
| MChr (p : Z -> bool) (c : Z) : p c = true -> Matches (Chr p) [c]
| MSeq (a b : re) (s t : jsstring) :
    Matches a s -> Matches b t -> Matches (Seq a b) (s ++ t)
| MAltL (a b : re) (s : jsstring) : Matches a s -> Matches (Alt a b) s
| MAltR (a b : re) (s : jsstring) : Matches b s -> Matches (Alt a b) s
| MStar0 (a : re) : Matches (Star a) []
| MStarS (a : re) (s t : jsstring) :
    Matches a s -> Matches (Star a) t -> Matches (Star a) (s ++ t).

(** Whether some character atom of the pattern accepts [c]. *)
Fixpoint accepts_char (r : re) (c : Z) : bool :=
  match r with
  | Empty | Eps => false
  | Chr p => p c
  | Seq a b | Alt a b => accepts_char a c || accepts_char b c
  | Star a => accepts_char a c
  end.

(** *** Notation of patterns *)

Definition chr (c : Z) : re := Chr (Z.eqb c).
Definition range (lo hi : Z) : re := Chr (fun c => (lo <=? c) && (c <=? hi)).
(** A literal character under the [i] flag. *)
Definition chr_i (c : Z) : re := Chr (fun x => ascii_upper x =? ascii_upper c).

Fixpoint alts (l : list re) : re :=
  match l with
  | [] => Empty
  | [r] => r
  | r :: rest => Alt r (alts rest)
  end.

Fixpoint seqs (l : list re) : re :=
  match l with
  | [] => Eps
  | [r] => r
  | r :: rest => Seq r (seqs rest)
  end.

Definition opt (r : re) : re := Alt r Eps.

(** [r{n}] *)
Fixpoint rep (n : nat) (r : re) : re :=
  match n with
  | O => Eps
  | S O => r
  | S k => Seq r (rep k r)
  end.

(** [r{0,n}] *)
Fixpoint upto (n : nat) (r : re) : re :=
  match n with
  | O => Eps
  | S k => opt (Seq r (upto k r))
  end.

(** [r{lo,hi}] *)
Definition rep_range (lo hi : nat) (r : re) : re :=
  Seq (rep lo r) (upto (hi - lo) r).

(** [r{1,}] *)
Definition plus (r : re) : re := Seq r (Star r).

End Regex.

(* ================================================================== *)
(** ** [net.isIP] *)
(* ================================================================== *)

Module Net.
Import Regex.

Definition digit : re := range 48 57.
Definition colon : re := chr 58.
Definition dot : re := chr 46.

(** [v4Seg = (?:25[0-5]|2[0-4]\d|1\d\d|[1-9]\d|\d)] *)
Definition v4Seg : re :=
  alts [ seqs [chr 50; chr 53; range 48 53];
         seqs [chr 50; range 48 52; digit];
         seqs [chr 49; digit; digit];
         seqs [range 49 57; digit];
         digit ].

(** [v4Str = (?:v4Seg\.){3}v4Seg] *)
Definition v4Str : re := Seq (rep 3 (Seq v4Seg dot)) v4Seg.

Definition IPv4Reg : re := v4Str.

(** [v6Seg = (?:[0-9a-fA-F]{1,4})] *)
Definition hexdigit : re := Chr is_hex.
Definition v6Seg : re := rep_range 1 4 hexdigit.

Definition seg_colon : re := Seq v6Seg colon.
Definition colon_seg : re := Seq colon v6Seg.

(** The eight alternatives of [IPv6Reg], then the optional zone
    [(?:%[0-9a-zA-Z-.:]{1,})?]. *)
Definition v6Addr : re :=
  alts [
    Seq (rep 7 seg_colon) (alts [v6Seg; colon]);
    Seq (rep 6 seg_colon) (alts [v4Str; colon_seg; colon]);
    Seq (rep 5 seg_colon)
        (alts [Seq colon v4Str; rep_range 1 2 colon_seg; colon]);
    Seq (rep 4 seg_colon)
        (alts [seqs [rep_range 0 1 colon_seg; colon; v4Str];
               rep_range 1 3 colon_seg; colon]);
    Seq (rep 3 seg_colon)
        (alts [seqs [rep_range 0 2 colon_seg; colon; v4Str];
               rep_range 1 4 colon_seg; colon]);
    Seq (rep 2 seg_colon)
        (alts [seqs [rep_range 0 3 colon_seg; colon; v4Str];
               rep_range 1 5 colon_seg; colon]);
    Seq (rep 1 seg_colon)
        (alts [seqs [rep_range 0 4 colon_seg; colon; v4Str];
               rep_range 1 6 colon_seg; colon]);
    Seq colon
        (alts [seqs [rep_range 0 5 colon_seg; colon; v4Str];
               rep_range 1 7 colon_seg; colon])
  ].

Definition zone_char : re :=
  Chr (fun c => is_digit c || ((97 <=? c) && (c <=? 122))
                || ((65 <=? c) && (c <=? 90))
                || (c =? 45) || (c =? 46) || (c =? 58)).

Definition IPv6Reg : re := Seq v6Addr (opt (Seq (chr 37) (plus zone_char))).

Definition isIPv4 (s : jsstring) : bool := matches IPv4Reg s.
Definition isIPv6 (s : jsstring) : bool := matches IPv6Reg s.

(** [net.isIP(s)]: 4, 6, or 0 for a string that is not an IP address. *)
Definition isIP (s : jsstring) : Z :=
  if isIPv4 s then 4 else if isIPv6 s then 6 else 0.

End Net.

(* ================================================================== *)
(** ** The class [SocketAsync] *)
(* ================================================================== *)

Module Socket.
Import Regex.

(** *** The stream and the socket object *)

(** The notifications of [net.Socket] the class listens to. *)
Inductive Event :=
| EvConnect
| EvData (data : Buffer)
| EvTimeout
| EvError (e : JsError)
| EvEnd
| EvClose.

(** [options.proxy] and [options] of [connectAsync]; an absent field is
    [None]. *)
Record ProxyOptions := mkProxy {
  p_host : option jsstring;
  p_port : option Z;
  p_type : option jsstring;
  p_username : option jsstring;
  p_password : option jsstring;
  p_timeout : option Z
}.

Record ConnectOptions := mkOptions {
  o_host : jsstring;
  o_port : Z;
  o_timeout : option Z;
  o_proxy : option ProxyOptions
}.

(** The fields of the object: the receive buffer [chunks], the terminal
    [error], and what the underlying [net.Socket] was asked to do
    ([destroy], [setTimeout], [write], [connect]). *)
Record SocketAsync := mkSocket {
  chunks : Buffer;
  error : option JsError;
  destroyed : bool;
  timeout : option Z;
  written : list Buffer;
  connects : list (option jsstring * option Z)
}.

Definition set_chunks (b : Buffer) (s : SocketAsync) : SocketAsync :=
  mkSocket b (error s) (destroyed s) (timeout s) (written s) (connects s).
Definition set_error (e : option JsError) (s : SocketAsync) : SocketAsync :=
  mkSocket (chunks s) e (destroyed s) (timeout s) (written s) (connects s).
Definition destroy (s : SocketAsync) : SocketAsync :=
  mkSocket (chunks s) (error s) true (timeout s) (written s) (connects s).
(** [net.Socket.setTimeout(t)] returns at once on a destroyed socket, which
    keeps the timeout it had; on a live one the value is kept in
    [this.timeout].  (The library then throws on a negative value: the
    statements that reach such a call on a live socket are for the timeouts
    it accepts, [accepted_timeout] below.) *)
Definition setTimeout (t : Z) (s : SocketAsync) : SocketAsync :=
  mkSocket (chunks s) (error s) (destroyed s)
           (if destroyed s then timeout s else Some t)
           (written s) (connects s).
Definition write (b : Buffer) (s : SocketAsync) : SocketAsync :=
  mkSocket (chunks s) (error s) (destroyed s) (timeout s) (written s ++ [b])
           (connects s).
(** [net.Socket.connect(options)], recorded as the host and port asked for.
    (The library throws on a port that is absent or outside 0..65535: the
    statements on what a connect does are for the ports it accepts,
    [accepted_port] below.) *)
Definition connect (h : option jsstring) (p : option Z) (s : SocketAsync)
  : SocketAsync :=
  mkSocket (chunks s) (error s) (destroyed s) (timeout s) (written s)
           (connects s ++ [(h, p)]).

(** [new SocketAsync(options)] *)
Definition constructor : SocketAsync := mkSocket [] None false None [] [].

(** [if (!this.error) this.error = e] *)
Definition record_error (e : JsError) (s : SocketAsync) : SocketAsync :=
  match error s with
  | None => set_error (Some e) s
  | Some _ => s
  end.

(** The listeners installed by the constructor; they run on every
    notification, before the listeners of a pending operation. *)
Definition on_event (ev : Event) (s : SocketAsync) : SocketAsync :=
  match ev with
  | EvData data => set_chunks (Buffer_concat [chunks s; data]) s
  | EvTimeout => destroy (record_error (Error (js "ESOCKETTIMEOUT")) s)
  | EvError e => destroy (record_error e s)
  | EvEnd => destroy (record_error (Error (js "EENDFIN")) s)
  | EvClose => record_error (Error (js "ESOCKETCLOSED")) s
  | EvConnect => s
  end.

(** The socket after a sequence of notifications, with no operation
    pending. *)
Definition deliver (evs : list Event) (s : SocketAsync) : SocketAsync :=
  fold_left (fun s ev => on_event ev s) evs s.

(** *** Promises *)

(** A promise is resolved, rejected, or still pending when the
    notifications run out. *)
Inductive Outcome (A : Type) :=
| Resolved (a : A)
| Rejected (e : JsError)
| Pending.
Arguments Resolved {A} a.
Arguments Rejected {A} e.
Arguments Pending {A}.

Definition Async (A : Type) : Type :=
  SocketAsync -> list Event -> Outcome A * SocketAsync * list Event.

Definition ret {A} (a : A) : Async A := fun s evs => (Resolved a, s, evs).
Definition reject {A} (e : JsError) : Async A := fun s evs => (Rejected e, s, evs).

Definition bind {A B} (m : Async A) (k : A -> Async B) : Async B :=
  fun s evs =>
    match m s evs with
    | (Resolved a, s', evs') => k a s' evs'
    | (Rejected e, s', evs') => (Rejected e, s', evs')
    | (Pending, s', evs') => (Pending, s', evs')
    end.

(** A synchronous step inside an [async] function. *)
Definition lift {A} (r : Result A) : Async A :=
  match r with
  | Ok a => ret a
  | Throw e => reject e
  end.

(** A call of a method of the underlying socket. *)
Definition call (f : SocketAsync -> SocketAsync) : Async unit :=
  fun s evs => (Resolved tt, f s, evs).

(** [try { m } catch (e) { throw h(e) }] *)
Definition try_catch {A} (m : Async A) (h : JsError -> JsError) : Async A :=
  fun s evs =>
    match m s evs with
    | (Rejected e, s', evs') => (Rejected (h e), s', evs')
    | r => r
    end.

Notation "x <- m ;; k" := (bind m (fun x => k))
  (at level 61, m at next level, right associativity).
Notation "m ;;; k" := (bind m (fun _ => k))
  (at level 61, right associativity).

Definition truthy (t : option Z) : bool :=
  match t with
  | Some n => negb (n =? 0)
  | None => false
  end.

Definition nonempty (s : option jsstring) : bool :=
  match s with
  | Some (_ :: _) => true
  | _ => false
  end.

Definition or_default {A} (o : option A) (d : A) : A :=
  match o with Some a => a | None => d end.

(** [removeAllListeners]: beside detaching the listeners of the operation,
    [this.setTimeout(oldTimeout || 0)]. *)
Definition removeAllListeners (oldTimeout : option Z) (s : SocketAsync)
  : SocketAsync :=
  setTimeout (if truthy oldTimeout then or_default oldTimeout 0 else 0) s.

(** *** [readAsync] *)

(** The [callback] argument, by what [readAsync] tests of it: [NoCallback] is
    any falsy value (absent, [null] as [readAndClearAsync(null, ...)] passes
    it on, but also [0], the empty string, [false]), [Predicate f] a
    function that returns (its result read as truthy or falsy),
    [NotAFunction] a truthy value that is not a function. *)
Inductive Callback :=
| NoCallback
| Predicate (f : Buffer -> bool)
| NotAFunction.

(** [!callback || (typeof callback === 'function' && callback(self.chunks))] *)
Definition satisfied (callback : Callback) (b : Buffer) : bool :=
  match callback with
  | NoCallback => true
  | Predicate f => f b
  | NotAFunction => false
  end.

(** The pending read: each notification first runs the listeners of the
    constructor, then those of the read. *)
Fixpoint readAsync_wait (callback : Callback) (oldTimeout : option Z)
    (s : SocketAsync) (evs : list Event)
  : Outcome Buffer * SocketAsync * list Event :=
  match evs with
  | [] => (Pending, s, [])
  | ev :: rest =>
      let s1 := on_event ev s in
      match ev with
      | EvData _ =>
          if satisfied callback (chunks s1)
          then (Resolved (chunks s1), removeAllListeners oldTimeout s1, rest)
          else readAsync_wait callback oldTimeout s1 rest
      | EvEnd =>
          (Rejected (Error (js "EENDFIN")), removeAllListeners oldTimeout s1, rest)
      | EvError e => (Rejected e, removeAllListeners oldTimeout s1, rest)
      | EvTimeout =>
          (Rejected (Error (js "ESOCKETTIMEOUT")),
           removeAllListeners oldTimeout s1, rest)
      | EvClose =>
          (Rejected (Error (js "ESOCKETCLOSED")),
           removeAllListeners oldTimeout s1, rest)
      | EvConnect => readAsync_wait callback oldTimeout s1 rest
      end
  end.

Definition readAsync (callback : Callback) (tmo : option Z) : Async Buffer :=
  fun s evs =>
    let oldTimeout := timeout s in
    let s1 := if truthy tmo then setTimeout (or_default tmo 0) s else s in
    match chunks s1 with
    | _ :: _ =>
        if satisfied callback (chunks s1)
        then (Resolved (chunks s1), removeAllListeners oldTimeout s1, evs)
        else readAsync_wait callback oldTimeout s1 evs
    | [] => readAsync_wait callback oldTimeout s1 evs
    end.

(** *** [spliceChunks] *)

Definition spliceChunks (start stop : option Z) (s : SocketAsync)
  : Buffer * SocketAsync :=
  let b := or_default start 0 in
  let e := or_default stop (len (chunks s)) in
  let out := subarray (chunks s) b e in
  (out,
   set_chunks (Buffer_concat [subarray (chunks s) 0 b;
                              subarray (chunks s) e (len (chunks s))]) s).

(** *** [readAndClearAsync] *)

(** The continuation of [await this.readAsync(...)] runs before the next
    notification is delivered (the order recorded in the source of
    [readAsync]); [between] is the list of notifications delivered between
    the resolution and the continuation, empty in that order. *)
Definition readAndClearAsync_between (between : list Event)
    (callback : Callback) (tmo : option Z) : Async Buffer :=
  chunks <- readAsync callback tmo ;;
  call (deliver between) ;;;
  call (fun s => snd (spliceChunks (Some 0) None s)) ;;;
  ret chunks.

Definition readAndClearAsync (callback : Callback) (tmo : option Z)
  : Async Buffer :=
  readAndClearAsync_between [] callback tmo.

(** *** [_connectWithoutProxyAsync] *)

Fixpoint connect_wait (oldTimeout : option Z) (s : SocketAsync)
    (evs : list Event) : Outcome unit * SocketAsync * list Event :=
  match evs with
  | [] => (Pending, s, [])
  | ev :: rest =>
      let s1 := on_event ev s in
      match ev with
      | EvConnect => (Resolved tt, removeAllListeners oldTimeout s1, rest)
      | EvError e => (Rejected e, removeAllListeners oldTimeout s1, rest)
      | EvTimeout =>
          (Rejected (Error (js "ECONNECTTIMEOUT")),
           removeAllListeners oldTimeout s1, rest)
      | EvClose =>
          (Rejected (Error (js "ESOCKETCLOSED")),
           removeAllListeners oldTimeout s1, rest)
      | EvEnd =>
          (Rejected (Error (js "EENDFIN")), removeAllListeners oldTimeout s1, rest)
      | EvData _ => connect_wait oldTimeout s1 rest
      end
  end.

Definition _connectWithoutProxyAsync (h : option jsstring) (p : option Z)
    (tmo : option Z) : Async unit :=
  fun s evs =>
    let oldTimeout := timeout s in
    let s1 := if truthy tmo then setTimeout (or_default tmo 0) s else s in
    connect_wait oldTimeout (connect h p s1) evs.

(** *** [ERROR_MAP] *)

Definition ERROR_MAP : list (Z * jsstring) :=
  [ (1, js "代理服务器故障");
    (2, js "代理服务器规则集不允许连接");
    (3, js "网络无法访问");
    (4, js "目标服务器无法访问（主机名无效）");
    (5, js "连接目标服务器被拒绝");
    (6, js "TTL已过期");
    (7, js "不支持的命令");
    (8, js "不支持的目标服务器地址类型") ].

(** [ERROR_MAP[k]] for [k] a byte of a buffer or [undefined]. *)
Definition ERROR_MAP_get (k : option Z) : option jsstring :=
  match k with
  | Some n =>
      match find (fun kv => fst kv =? n) ERROR_MAP with
      | Some kv => Some (snd kv)
      | None => None
      end
  | None => None
  end.

(** [class ProxyError extends Error]: [new ProxyError(e)] passes [e] to
    [Error], which converts it to a string for the message. *)
Definition ProxyError (e : JsError) : JsError :=
  mkJsError ClsProxyError (js "ProxyError") (Error_toString e) [].

(** [assert(cond, msg)] *)
Definition assert (cond : bool) (msg : jsstring) : Result unit :=
  if cond then Ok tt else Throw (AssertionError msg).

(** [new Array(n).join(sep)]: [n - 1] separators; a negative length is a
    [RangeError]. *)
Definition Array_join (n : Z) (sep : Z) : Result jsstring :=
  if n <? 0
  then Throw (mkJsError ClsError (js "RangeError") (js "Invalid array length") [])
  else Ok (repeat sep (Z.to_nat (n - 1))).

(** *** [_connectHttpProxy] *)

(** [/^HTTP\/1\.[01] 200/i] *)
Definition http_200 : re :=
  seqs [ chr_i 72; chr_i 84; chr_i 84; chr_i 80; chr_i 47; chr_i 49;
         chr_i 46; Alt (chr_i 48) (chr_i 49); chr_i 32;
         chr_i 50; chr_i 48; chr_i 48 ].

Definition CRLF : jsstring := [13; 10].

Definition http_header (host : jsstring) (port : Z)
    (username password : jsstring) : jsstring :=
  let header := js "CONNECT " ++ host ++ js ":" ++ Number_toString 10 port
                ++ js " HTTP/1.1" ++ CRLF in
  let header := header ++ js "Connection: keep-alive" ++ CRLF in
  let header := header ++ js "Content-Length: 0" ++ CRLF in
  let header :=
    match username with
    | _ :: _ =>
        let authInfo := base64 (utf8_encode (username ++ js ":" ++ password)) in
        header ++ js "Proxy-Authorization: Basic " ++ authInfo ++ CRLF
    | [] => header
    end in
  header ++ CRLF.

(** The check of the proxy's answer: [str] is the trimmed text. *)
Definition http_response_text (chunks : Buffer) : jsstring :=
  trim (utf8_decode chunks).

Definition check_http_response (chunks : Buffer) : Result unit :=
  let str := http_response_text chunks in
  if negb (matches_prefix http_200 str)
  then Throw (Error (js "连接目标失败：" ++ str))
  else Ok tt.

Definition _connectHttpProxy (options : ConnectOptions) (proxy : ProxyOptions)
  : Async unit :=
  let host := o_host options in
  let port := o_port options in
  let username := or_default (p_username proxy) [] in
  let password := or_default (p_password proxy) [] in
  let tmo := or_default (p_timeout proxy) 10000 in
  call (write (utf8_encode (http_header host port username password))) ;;;
  chunks <- readAndClearAsync NoCallback (Some tmo) ;;
  lift (check_http_response chunks).

(** *** [_connectSocks5Proxy] *)

Definition socks5_greeting : Buffer := hex_decode (js "05020002").

(** The check of the method-selection reply; returns [authType]. *)
Definition check_method_reply (chunks : Buffer) : Result (option Z) :=
  if negb (len chunks =? 2)
  then Throw (Error (js "Unexpected number of bytes received."))
  else if negb (strict_eq (index chunks 0) 5)
  then Throw (Error (js "Unexpected socks version number: "
                     ++ show_index (index chunks 0) ++ js "."))
  else
    let authType := index chunks 1 in
    if negb (strict_eq authType 0 || strict_eq authType 2)
    then Throw (Error (js "Unexpected socks authentication method: "
                       ++ show_index authType))
    else Ok authType.

Definition socks5_auth_info (username password : jsstring) : Buffer :=
  Buffer_concat [
    Buffer_from_array [1; len (utf8_encode username)];
    utf8_encode username;
    Buffer_from_array [len password];
    utf8_encode password ].

Definition check_auth_reply (chunks : Buffer) : Result unit :=
  if negb (len chunks =? 2)
  then Throw (Error (js "Unexpected number of bytes received."))
  else if negb (strict_eq (index chunks 0) 1)
  then Throw (Error (js "Unexpected authentication method code: "
                     ++ show_index (index chunks 0) ++ js "."))
  else if negb (strict_eq (index chunks 1) 0)
  then Throw (Error (js "Username and password authentication failure: "
                     ++ show_index (index chunks 1) ++ js "."))
  else Ok tt.

(** The two bytes of the port: its hexadecimal digits, padded with zeros
    to four. *)
Definition socks5_port (port : Z) : Buffer :=
  let hexPort := Number_toString 16 port in
  let hexPort :=
    if len hexPort <? 4
    then match Array_join (4 - len hexPort + 1) 48 with
         | Ok zeros => zeros ++ hexPort
         | Throw _ => hexPort
         end
    else hexPort in
  hex_decode hexPort.

(** One group of an IPv6 address, padded with zeros to four digits. *)
Definition socks5_ipv6_group (item : jsstring) : Result Buffer :=
  match Array_join (4 - len item + 1) 48 with
  | Ok zeros => Ok (hex_decode (zeros ++ item))
  | Throw e => Throw e
  end.

Fixpoint map_result {A B} (f : A -> Result B) (l : list A) : Result (list B) :=
  match l with
  | [] => Ok []
  | x :: r =>
      match f x with
      | Throw e => Throw e
      | Ok y =>
          match map_result f r with
          | Throw e => Throw e
          | Ok ys => Ok (y :: ys)
          end
      end
  end.

(** The connect request for the target. *)
Definition socks5_target_info (host : jsstring) (port : Z) : Result Buffer :=
  let targetInfo := hex_decode (js "050100") in
  let targetType := Net.isIP host in
  let bufPort := socks5_port port in
  if targetType =? 4 then
    Ok (Buffer_concat [ targetInfo; Buffer_from_array [1];
                        Buffer_from_strings (split 46 host); bufPort ])
  else if targetType =? 0 then
    Ok (Buffer_concat [ targetInfo;
                        Buffer_from_array [3; len (utf8_encode host)];
                        utf8_encode host; bufPort ])
  else if targetType =? 6 then
    match map_result socks5_ipv6_group (split 58 host) with
    | Throw e => Throw e
    | Ok groups =>
        Ok (Buffer_concat [ targetInfo; Buffer_from_array [4];
                            Buffer_concat groups; bufPort ])
    end
  else Throw (Error (js "Not support target host: " ++ host)).

(** The check of the reply to the connect request. *)
Definition check_connect_reply (host : jsstring) (chunks : Buffer)
  : Result unit :=
  if negb (strict_eq (index chunks 0) 5)
  then Throw (Error (js "Unexpected SOCKS version number: "
                     ++ show_index (index chunks 0) ++ js "."))
  else if negb (strict_eq (index chunks 1) 0)
  then
    match ERROR_MAP_get (index chunks 1) with
    | Some (c :: m) => Throw (Error (c :: m))
    | _ => Throw (Error (js "未知错误，连接目标地址失败：" ++ host))
    end
  else Ok tt.

(** The steps of the negotiation, last first. *)
Definition socks5_connect (host : jsstring) (port : Z) (tmo : Z) : Async unit :=
  targetInfo <- lift (socks5_target_info host port) ;;
  call (write targetInfo) ;;;
  chunks <- readAndClearAsync NoCallback (Some tmo) ;;
  lift (check_connect_reply host chunks).

Definition socks5_auth (username password : jsstring) (tmo : Z) : Async unit :=
  call (write (socks5_auth_info username password)) ;;;
  chunks <- readAndClearAsync NoCallback (Some tmo) ;;
  lift (check_auth_reply chunks).

Definition _connectSocks5Proxy (options : ConnectOptions) (proxy : ProxyOptions)
  : Async unit :=
  let host := o_host options in
  let port := o_port options in
  let username := or_default (p_username proxy) [] in
  let password := or_default (p_password proxy) [] in
  let tmo := or_default (p_timeout proxy) 10000 in
  call (write socks5_greeting) ;;;
  chunks <- readAndClearAsync NoCallback (Some tmo) ;;
  authType <- lift (check_method_reply chunks) ;;
  (if strict_eq authType 2 then socks5_auth username password tmo else ret tt) ;;;
  socks5_connect host port tmo.

(** *** [connectAsync] *)

Section Orchestrator.

(** [String.prototype.toLowerCase], whose case table is the platform's. *)
Variable toLowerCase : jsstring -> jsstring.

(** The body of the [try] block of [_connectWithProxyAsync]. *)
Definition proxy_try_body (options : ConnectOptions) (proxy : ProxyOptions)
  : Async unit :=
  let host := p_host proxy in
  let port := p_port proxy in
  let tmo := or_default (p_timeout proxy) 10000 in
  let type :=
    toLowerCase (if nonempty (p_type proxy)
                 then or_default (p_type proxy) []
                 else js "socks5") in
  lift (assert (jsstring_eqb type (js "socks5") || jsstring_eqb type (js "http"))
               (js "The proxy type must be socks5 or http.")) ;;;
  lift (assert (nonempty host) (js "options.proxy.host is required.")) ;;;
  lift (assert (truthy port) (js "options.proxy.port is required.")) ;;;
  (* [this.connectAsync] of options without a proxy *)
  _connectWithoutProxyAsync host port (Some tmo) ;;;
  if jsstring_eqb type (js "socks5")
  then _connectSocks5Proxy options proxy
  else _connectHttpProxy options proxy.

Definition _connectWithProxyAsync (options : ConnectOptions)
    (proxy : ProxyOptions) : Async unit :=
  try_catch (proxy_try_body options proxy) ProxyError.

Definition connectAsync (options : ConnectOptions) : Async unit :=
  match o_proxy options with
  | Some proxy => _connectWithProxyAsync options proxy
  | None =>
      _connectWithoutProxyAsync (Some (o_host options)) (Some (o_port options))
                                (o_timeout options)
  end.

End Orchestrator.

End Socket.

Import Socket.
Import Regex.

(* ================================================================== *)
(** ** Notions used by the statements *)
(* ================================================================== *)

(** The half-open range [X[s:e)] of a byte sequence. *)
Definition slice (X : Buffer) (s e : Z) : Buffer :=
  firstn (Z.to_nat (e - s)) (skipn (Z.to_nat s) X).

(** The auth message as the protocol has it: each length prefix is the
    number of bytes of the encoded string that follows it. *)
Definition auth_message_spec (username password : jsstring) : Buffer :=
  [1; len (utf8_encode username)] ++ utf8_encode username
  ++ [len (utf8_encode password)] ++ utf8_encode password.

(** Two code units are the same character up to the case of ASCII
    letters. *)
Definition is_ascii_letter (c : Z) : bool :=
  ((65 <=? c) && (c <=? 90)) || ((97 <=? c) && (c <=? 122)).

Definition same_ignoring_case (a b : Z) : bool :=
  (a =? b) || (is_ascii_letter a && is_ascii_letter b && (Z.abs (a - b) =? 32)).

(** [s] starts, case-insensitively, with [pat]. *)
Fixpoint starts_with_ci (pat s : jsstring) : bool :=
  match pat, s with
  | [], _ => true
  | _ :: _, [] => false
  | p :: pat', c :: s' => same_ignoring_case p c && starts_with_ci pat' s'
  end.

(** The integers from [start], [n] of them; used to check a property on
    every byte or every port by computation. *)
Fixpoint range_from (start : Z) (n : nat) : list Z :=
  match n with
  | O => []
  | S k => start :: range_from (start + 1) k
  end.

Definition range_list (n : Z) : list Z := range_from 0 (Z.to_nat n).

(** *** Targets and the proxy's reading of a connect request *)

(** A target host, by address class: the dotted quad [a.b.c.d], a domain
    name, or the eight groups [g1:...:g8] of an IPv6 address in full
    form. *)
Inductive Target :=
| TIPv4 (a b c d : Z)
| TDomain (name : jsstring)
| TIPv6 (groups : list jsstring).

Definition dotted_quad (a b c d : Z) : jsstring :=
  join 46 (map (Number_toString 10) [a; b; c; d]).

Definition target_host (t : Target) : jsstring :=
  match t with
  | TIPv4 a b c d => dotted_quad a b c d
  | TDomain name => name
  | TIPv6 groups => join 58 groups
  end.

(** One to four hexadecimal digits, and the number they write. *)
Definition is_hex_group (g : jsstring) : bool :=
  (1 <=? len g) && (len g <=? 4) && forallb is_hex g.

Definition group_value (g : jsstring) : Z :=
  fold_left (fun acc c => acc * 16 + match unhex c with Some v => v | None => 0 end)
            g 0.

(** A string of code units in which every surrogate is half of a pair. *)
Fixpoint well_formed (s : jsstring) : bool :=
  match s with
  | [] => true
  | c :: r =>
      if is_high_surrogate c then
        match r with
        | d :: r' => is_low_surrogate d && well_formed r'
        | [] => false
        end
      else (0 <=? c) && (c <? 65536) && negb (is_low_surrogate c) && well_formed r
  end.

Definition octet (a : Z) : Prop := 0 <= a < 256.

Definition valid_target (t : Target) : Prop :=
  match t with
  | TIPv4 a b c d => octet a /\ octet b /\ octet c /\ octet d
  | TDomain name =>
      Net.isIP name = 0 /\ well_formed name = true
      /\ len (utf8_encode name) <= 255
  | TIPv6 groups =>
      List.length groups = 8%nat /\ forallb is_hex_group groups = true
  end.

(** The connect request for a target, in the words of the protocol. *)
Definition port_bytes (port : Z) : Buffer := [port / 256; port mod 256].

Definition request_spec (t : Target) (port : Z) : Buffer :=
  match t with
  | TIPv4 a b c d => [5; 1; 0; 1] ++ [a; b; c; d] ++ port_bytes port
  | TDomain name =>
      [5; 1; 0; 3; len (utf8_encode name)] ++ utf8_encode name ++ port_bytes port
  | TIPv6 groups =>
      [5; 1; 0; 4]
      ++ flat_map (fun g => [group_value g / 256; group_value g mod 256]) groups
      ++ port_bytes port
  end.

(** What is checked of the decimal text of every byte. *)
Definition octet_ok (a : Z) : bool :=
  let s := Number_toString 10 a in
  match decimal_value s with Some v => v =? a | None => false end
  && matches Net.v4Seg s
  && forallb is_digit s.

(** What a proxy reads in a connect request: the address, by its type
    byte, and the port. *)
Inductive TargetAddress :=
| AIPv4 (a b c d : Z)
| ADomain (name : jsstring)
| AIPv6 (groups : list Z).

Definition address_of (t : Target) : TargetAddress :=
  match t with
  | TIPv4 a b c d => AIPv4 a b c d
  | TDomain name => ADomain name
  | TIPv6 groups => AIPv6 (map group_value groups)
  end.

Definition parse_port (b : Buffer) : option Z :=
  match b with
  | [h; l] => Some (h * 256 + l)
  | _ => None
  end.

Fixpoint parse_groups (b : Buffer) : list Z :=
  match b with
  | h :: l :: r => (h * 256 + l) :: parse_groups r
  | _ => []
  end.

Definition with_port (a : TargetAddress) (b : Buffer)
  : option (TargetAddress * Z) :=
  match parse_port b with
  | Some port => Some (a, port)
  | None => None
  end.

Definition parse_request (b : Buffer) : option (TargetAddress * Z) :=
  match b with
  | ver :: cmd :: rsv :: atyp :: rest =>
      if (ver =? 5) && (cmd =? 1) && (rsv =? 0) then
        if atyp =? 1 then
          match rest with
          | a :: b :: c :: d :: p => with_port (AIPv4 a b c d) p
          | _ => None
          end
        else if atyp =? 3 then
          match rest with
          | n :: r =>
              with_port (ADomain (utf8_decode (firstn (Z.to_nat n) r)))
                        (skipn (Z.to_nat n) r)
          | [] => None
          end
        else if atyp =? 4 then
          with_port (AIPv6 (parse_groups (firstn 16 rest))) (skipn 16 rest)
        else None
      else None
  | _ => None
  end.

(** The final socket of a run. *)
Definition final {A} (r : Outcome A * SocketAsync * list Event) : SocketAsync :=
  snd (fst r).

(** An operation only appends to what was written before. *)
Definition appends {A} (m : Async A) : Prop :=
  forall s evs, exists extra, written (final (m s evs)) = written s ++ extra.

(** An operation writes nothing. *)
Definition silent {A} (m : Async A) : Prop :=
  forall s evs, written (final (m s evs)) = written s.

(** What [_connectSocks5Proxy] does once the method-selection reply is
    checked. *)
Definition socks5_after_method (options : ConnectOptions) (proxy : ProxyOptions)
    (authType : option Z) : Async unit :=
  let tmo := or_default (p_timeout proxy) 10000 in
  (if strict_eq authType 2
   then socks5_auth (or_default (p_username proxy) [])
                    (or_default (p_password proxy) []) tmo
   else ret tt) ;;;
  socks5_connect (o_host options) (o_port options) tmo.

(** The terminal condition a notification reports, if it reports one. *)
Definition terminal_error (ev : Event) : option JsError :=
  match ev with
  | EvTimeout => Some (Error (js "ESOCKETTIMEOUT"))
  | EvError e => Some e
  | EvEnd => Some (Error (js "EENDFIN"))
  | EvClose => Some (Error (js "ESOCKETCLOSED"))
  | EvData _ | EvConnect => None
  end.

Fixpoint first_terminal (evs : list Event) : option JsError :=
  match evs with
  | [] => None
  | ev :: rest =>
      match terminal_error ev with
      | Some e => Some e
      | None => first_terminal rest
      end
  end.

(** *** Arguments the library accepts *)

(** The timeouts [net.Socket.setTimeout] accepts: none, or one that is not
    negative. *)
Definition accepted_timeout (t : option Z) : bool :=
  match t with
  | Some t => 0 <=? t
  | None => true
  end.

(** The ports [net.Socket.connect] accepts: a port in 0..65535. *)
Definition accepted_port (p : option Z) : bool :=
  match p with
  | Some p => (0 <=? p) && (p <? 65536)
  | None => false
  end.

(** *** Notions for the further properties *)

(** The bytes a sequence of notifications brings, in order. *)
Fixpoint data_of (evs : list Event) : Buffer :=
  match evs with
  | [] => []
  | EvData data :: rest => data ++ data_of rest
  | _ :: rest => data_of rest
  end.

(** The notifications on which the constructor's listeners call
    [destroy]. *)
Definition destroys (ev : Event) : bool :=
  match ev with
  | EvTimeout | EvError _ | EvEnd => true
  | EvData _ | EvClose | EvConnect => false
  end.

(** The notifications that settle nothing in a pending read: data and
    [connect]. *)
Definition passes_read (ev : Event) : bool :=
  match ev with
  | EvData _ | EvConnect => true
  | _ => false
  end.

Definition is_data (ev : Event) : bool :=
  match ev with
  | EvData _ => true
  | _ => false
  end.

(** The error a pending connect is rejected with, by notification. *)
Definition connect_rejection (ev : Event) : option JsError :=
  match ev with
  | EvError e => Some e
  | EvTimeout => Some (Error (js "ECONNECTTIMEOUT"))
  | EvClose => Some (Error (js "ESOCKETCLOSED"))
  | EvEnd => Some (Error (js "EENDFIN"))
  | EvConnect | EvData _ => None
  end.

(** [oldTimeout || 0] *)
Definition restored_timeout (oldTimeout : option Z) : Z :=
  match oldTimeout with
  | Some t => t
  | None => 0
  end.

(** The idle timeout once a read or connect called with [tmo] has set its
    own: [setTimeout] is called for a [tmo] that is given and not 0, and a
    destroyed socket keeps the timeout it had. *)
Definition armed_timeout (tmo : option Z) (s : SocketAsync) : option Z :=
  if truthy tmo && negb (destroyed s) then tmo else timeout s.

(** The parts of a run. *)
Definition outcome {A} (r : Outcome A * SocketAsync * list Event) : Outcome A :=
  fst (fst r).
Definition pending_events {A} (r : Outcome A * SocketAsync * list Event)
  : list Event := snd r.

(** An operation asks for no connect. *)
Definition keeps_connects {A} (m : Async A) : Prop :=
  forall s evs, connects (final (m s evs)) = connects s.

(** An operation that resolves leaves the buffer empty. *)
Definition clears_buffer {A} (m : Async A) : Prop :=
  forall s evs a s1 evs1, m s evs = (Resolved a, s1, evs1) -> chunks s1 = [].


(** The error of [new Array(n)] for a negative [n]. *)
Definition RangeError_array : JsError :=
  mkJsError ClsError (js "RangeError") (js "Invalid array length") [].

(* ================================================================== *)
(** ** Checks on concrete inputs *)
(* ================================================================== *)

Example js_ascii : js "Error" = [69; 114; 114; 111; 114].
Proof. reflexivity. Qed.

Example js_bmp : js "规则集" = [0x89C4; 0x5219; 0x96C6].
Proof. vm_compute. reflexivity. Qed.

Example encode_pair : utf8_encode [0xD83D; 0xDE00] = [0xF0; 0x9F; 0x98; 0x80].
Proof. reflexivity. Qed.

Example decode_pair : utf8_decode [0xF0; 0x9F; 0x98; 0x80] = [0xD83D; 0xDE00].
Proof. reflexivity. Qed.

Example decode_bad : utf8_decode [0xE4; 0xB8; 0x41; 0xFF] = [0xFFFD; 0x41; 0xFFFD].
Proof. reflexivity. Qed.

Example toString16_port : Number_toString 16 1080 = js "438".
Proof. reflexivity. Qed.

Example toString10_byte : show_index (Some 255) = js "255".
Proof. reflexivity. Qed.

Example hex_greeting : hex_decode (js "05020002") = [5; 2; 0; 2].
Proof. reflexivity. Qed.

Example hex_odd : hex_decode (js "10000") = [16; 0].
Proof. reflexivity. Qed.

Example split_v4 : split 46 (js "10.0.0.1") = [js "10"; js "0"; js "0"; js "1"].
Proof. reflexivity. Qed.

Example split_empty : split 58 (js "::1") = [[]; []; js "1"].
Proof. reflexivity. Qed.

Example base64_userpass : base64 (utf8_encode (js "user:pass")) = js "dXNlcjpwYXNz".
Proof. reflexivity. Qed.

Example base64_pad : base64 (utf8_encode (js "a:b1")) = js "YTpiMQ==".
Proof. reflexivity. Qed.

Example trim_crlf : trim (js "  HTTP/1.1 200 OK
") = js "HTTP/1.1 200 OK".
Proof. reflexivity. Qed.

Example toString_error : Error_toString (Error (js "EENDFIN")) = js "Error: EENDFIN".
Proof. reflexivity. Qed.

Example isIP_v4 : Net.isIP (js "192.168.0.1") = 4.
Proof. vm_compute. reflexivity. Qed.

Example isIP_v4_leading_zero : Net.isIP (js "192.168.00.1") = 0.
Proof. vm_compute. reflexivity. Qed.

Example isIP_v4_256 : Net.isIP (js "256.1.1.1") = 0.
Proof. vm_compute. reflexivity. Qed.

Example isIP_v6_full : Net.isIP (js "1050:0:0:0:5:600:300c:326b") = 6.
Proof. vm_compute. reflexivity. Qed.

Example isIP_v6_short : Net.isIP (js "::1") = 6.
Proof. vm_compute. reflexivity. Qed.

Example isIP_v6_mapped : Net.isIP (js "::ffff:10.0.0.1") = 6.
Proof. vm_compute. reflexivity. Qed.

Example isIP_v6_zone : Net.isIP (js "fe80::1%eth0") = 6.
Proof. vm_compute. reflexivity. Qed.

Example isIP_v6_nine : Net.isIP (js "1:2:3:4:5:6:7:8:9") = 0.
Proof. vm_compute. reflexivity. Qed.

Example isIP_v6_two_gaps : Net.isIP (js "1::2::3") = 0.
Proof. vm_compute. reflexivity. Qed.

Example isIP_domain : Net.isIP (js "google.com") = 0.
Proof. vm_compute. reflexivity. Qed.

Example isIP_empty : Net.isIP [] = 0.
Proof. vm_compute. reflexivity. Qed.

(* ================================================================== *)
(** ** The receive buffer *)
(* ================================================================== *)

Lemma len_nonneg {A} (l : list A) : 0 <= len l.
Proof. unfold len. lia. Qed.

Lemma subarray_in_range (X : Buffer) (s e : Z) :
  0 <= s <= e -> e <= len X -> subarray X s e = slice X s e.
Proof.
  intros Hse He. unfold subarray, slice, clamp_index.
  destruct (Z.ltb_spec s 0); [lia|].
  destruct (Z.ltb_spec e 0); [lia|].
  rewrite !Z.min_l by lia. rewrite Z.max_l by lia. reflexivity.
Qed.

Lemma slice_prefix (X : Buffer) (s : Z) :
  0 <= s -> slice X 0 s = firstn (Z.to_nat s) X.
Proof. intros Hs. unfold slice. rewrite Z.sub_0_r. reflexivity. Qed.

Lemma slice_suffix (X : Buffer) (e : Z) :
  0 <= e <= len X -> slice X e (len X) = skipn (Z.to_nat e) X.
Proof.
  intros He. unfold slice, len in *.
  apply firstn_all2. rewrite length_skipn. lia.
Qed.

Lemma slice_glue (X : Buffer) (s e : Z) :
  0 <= s <= e -> e <= len X ->
  firstn (Z.to_nat s) X ++ slice X s e ++ skipn (Z.to_nat e) X = X.
Proof.
  intros Hse He. unfold slice.
  replace (Z.to_nat e) with (Z.to_nat (e - s) + Z.to_nat s)%nat by lia.
  rewrite <- skipn_skipn.
  rewrite (firstn_skipn (Z.to_nat (e - s)) (skipn (Z.to_nat s) X)).
  apply firstn_skipn.
Qed.

(** C7 -- For a buffer [X] and an in-range pair [s <= e],
    [spliceChunks(s, e)] returns the half-open range [X[s:e)], leaves the
    buffer equal to [X[0:s] ++ X[e:]] and touches nothing else, so that
    [X[0:s] ++ result ++ X[e:]] is [X] again. *)
Theorem spliceChunks_round_trip (sk : SocketAsync) (s e : Z) :
  0 <= s <= e -> e <= len (chunks sk) ->
  let X := chunks sk in
  let result := fst (spliceChunks (Some s) (Some e) sk) in
  let sk' := snd (spliceChunks (Some s) (Some e) sk) in
  result = slice X s e
  /\ chunks sk' = firstn (Z.to_nat s) X ++ skipn (Z.to_nat e) X
  /\ firstn (Z.to_nat s) X ++ result ++ skipn (Z.to_nat e) X = X
  /\ sk' = set_chunks (chunks sk') sk.
Proof.
  intros Hse He X result sk'. subst X result sk'.
  unfold spliceChunks. cbn [fst snd or_default chunks set_chunks].
  rewrite (subarray_in_range _ s e) by assumption.
  rewrite (subarray_in_range _ 0 s) by lia.
  rewrite (subarray_in_range _ e (len (chunks sk))) by lia.
  rewrite slice_prefix by lia. rewrite slice_suffix by lia.
  unfold Buffer_concat. cbn [List.concat]. rewrite app_nil_r.
  repeat split. apply slice_glue; assumption.
Qed.

Lemma spliceChunks_round_trip_witness :
  let sk := set_chunks [10; 20; 30; 40; 50] constructor in
  fst (spliceChunks (Some 1) (Some 3) sk) = [20; 30]
  /\ chunks (snd (spliceChunks (Some 1) (Some 3) sk)) = [10; 40; 50].
Proof.
  intros sk.
  destruct (spliceChunks_round_trip sk 1 3) as (H1 & H2 & _).
  - lia.
  - vm_compute. discriminate.
  - split; [exact H1 | exact H2].
Defined.

Lemma chunks_removeAllListeners (old : option Z) (s : SocketAsync) :
  chunks (removeAllListeners old s) = chunks s.
Proof. reflexivity. Qed.

Lemma readAsync_wait_resolved cb old s evs b s1 evs1 :
  readAsync_wait cb old s evs = (Resolved b, s1, evs1) -> b = chunks s1.
Proof.
  revert s. induction evs as [|ev rest IH]; intros s H; cbn in H.
  - discriminate.
  - destruct ev; try discriminate; try (apply IH in H; exact H).
    destruct (satisfied cb _).
    + inversion H; subst. reflexivity.
    + apply IH in H. exact H.
Qed.

(** [readAsync] resolves with the whole buffer, which it leaves in place. *)
Lemma readAsync_resolved cb tmo s evs b s1 evs1 :
  readAsync cb tmo s evs = (Resolved b, s1, evs1) -> b = chunks s1.
Proof.
  unfold readAsync. intros H.
  destruct (chunks (if truthy tmo then _ else _)) eqn:E.
  - eapply readAsync_wait_resolved; eauto.
  - destruct (satisfied cb _).
    + inversion H; subst. rewrite chunks_removeAllListeners. auto.
    + eapply readAsync_wait_resolved; eauto.
Qed.

Lemma chunks_deliver_no_data (between : list Event) (s : SocketAsync) :
  (forall d, ~ In (EvData d) between) ->
  chunks (deliver between s) = chunks s.
Proof.
  revert s. induction between as [|ev rest IH]; intros s H; [reflexivity|].
  unfold deliver in *. cbn [fold_left].
  rewrite IH by (intros d Hd; apply (H d); right; exact Hd).
  destruct ev; try reflexivity.
  - exfalso. apply (H data). left. reflexivity.
  - cbn. unfold record_error. destruct (error s); reflexivity.
  - cbn. unfold record_error. destruct (error s); reflexivity.
  - cbn. unfold record_error. destruct (error s); reflexivity.
  - cbn. unfold record_error. destruct (error s); reflexivity.
Qed.

Lemma spliceChunks_all (s : SocketAsync) :
  fst (spliceChunks (Some 0) None s) = chunks s
  /\ chunks (snd (spliceChunks (Some 0) None s)) = [].
Proof.
  unfold spliceChunks. cbn [fst snd or_default chunks set_chunks].
  pose proof (len_nonneg (chunks s)) as Hn.
  rewrite (subarray_in_range _ 0 (len (chunks s))) by lia.
  rewrite (subarray_in_range _ 0 0) by lia.
  rewrite (subarray_in_range _ (len (chunks s)) (len (chunks s))) by lia.
  unfold slice. rewrite Z.sub_0_r, !Z.sub_diag. cbn.
  split; [|reflexivity].
  apply firstn_all2. unfold len. lia.
Qed.

(** Two data notifications on a new socket, then a splice of everything:
    the bytes come back in order and the buffer is empty. *)
Lemma append_then_splice (a b : Buffer) :
  let s := deliver [EvData a; EvData b] constructor in
  fst (spliceChunks (Some 0) (Some (len a + len b)) s) = a ++ b
  /\ chunks (snd (spliceChunks (Some 0) (Some (len a + len b)) s)) = [].
Proof.
  intros s.
  assert (Hs : chunks s = a ++ b).
  { unfold s, deliver. cbn. rewrite !app_nil_r. reflexivity. }
  assert (Hl : len (chunks s) = len a + len b).
  { rewrite Hs. unfold len. rewrite length_app. lia. }
  rewrite <- Hl. destruct (spliceChunks_all s) as [H1 H2].
  unfold spliceChunks in *. cbn [or_default] in *.
  rewrite H1, H2, Hs. split; reflexivity.
Qed.

(** C8 -- When [readAndClearAsync] succeeds and no data notification comes
    between the resolution of the inner read and the splice, the bytes
    returned are the whole buffer as it was when the read resolved, and
    right afterwards the buffer holds what was there beyond the bytes
    returned: nothing. *)
Theorem readAndClearAsync_consumes_buffer
    (between : list Event) (cb : Callback) (tmo : option Z)
    (s : SocketAsync) (evs : list Event)
    (b : Buffer) (s1 : SocketAsync) (evs1 : list Event) :
  (forall d, ~ In (EvData d) between) ->
  readAsync cb tmo s evs = (Resolved b, s1, evs1) ->
  exists s2,
    readAndClearAsync_between between cb tmo s evs = (Resolved b, s2, evs1)
    /\ b = chunks s1
    /\ len (chunks s2) = len (chunks (deliver between s1)) - len b
    /\ len (chunks s2) = 0.
Proof.
  intros Hno Hread.
  pose proof (readAsync_resolved _ _ _ _ _ _ _ Hread) as Hb.
  exists (snd (spliceChunks (Some 0) None (deliver between s1))).
  destruct (spliceChunks_all (deliver between s1)) as [_ Hempty].
  repeat split.
  - unfold readAndClearAsync_between, bind, call, ret. rewrite Hread. reflexivity.
  - exact Hb.
  - rewrite Hempty, chunks_deliver_no_data by assumption. subst b.
    unfold len. cbn. lia.
  - rewrite Hempty. reflexivity.
Qed.

Lemma readAndClearAsync_consumes_buffer_witness :
  exists s2,
    readAndClearAsync_between [EvClose] NoCallback (Some 100) constructor
                              [EvData [5; 0]; EvData [1]]
    = (Resolved [5; 0], s2, [EvData [1]])
    /\ len (chunks s2) = 0.
Proof.
  destruct (readAndClearAsync_consumes_buffer [EvClose] NoCallback (Some 100)
              constructor [EvData [5; 0]; EvData [1]] [5; 0]
              (removeAllListeners None
                 (on_event (EvData [5; 0]) (setTimeout 100 constructor)))
              [EvData [1]])
    as (s2 & H1 & _ & _ & H4).
  - intros d [Hd | []]. discriminate Hd.
  - reflexivity.
  - exists s2. split; [exact H1 | exact H4].
Defined.

(** The same call when a data notification does come in between: the bytes
    it brought are removed from the buffer without being returned. *)
Example readAndClearAsync_interleaved_data :
  exists s2,
    readAndClearAsync_between [EvData [7]] NoCallback None constructor
                              [EvData [5; 0]]
    = (Resolved [5; 0], s2, []) /\ chunks s2 = [].
Proof. eexists. split; reflexivity. Qed.

(* ================================================================== *)
(** ** The terminal error *)
(* ================================================================== *)

Lemma error_on_event_set (ev : Event) (s : SocketAsync) (e : JsError) :
  error s = Some e -> error (on_event ev s) = Some e.
Proof.
  intros H. destruct ev; cbn; unfold record_error; rewrite ?H; cbn; auto.
Qed.

Lemma error_on_event_unset (ev : Event) (s : SocketAsync) :
  error s = None ->
  error (on_event ev s) = terminal_error ev.
Proof.
  intros H. destruct ev; cbn; unfold record_error; rewrite ?H; cbn; auto.
Qed.

(** C9 -- The [error] field is written once: a notification that finds it
    [null] sets it to the condition it reports, a notification that finds it
    set leaves it as it is, and so after any sequence of notifications the
    field holds the first terminal condition observed. *)
Theorem error_written_once (evs : list Event) (s : SocketAsync) :
  (forall ev, error s = None -> error (on_event ev s) = terminal_error ev)
  /\ (forall ev e, error s = Some e -> error (on_event ev s) = Some e)
  /\ error (deliver evs s)
     = match error s with
       | Some e => Some e
       | None => first_terminal evs
       end.
Proof.
  split; [|split].
  - intros ev H. apply error_on_event_unset; assumption.
  - intros ev e H. apply error_on_event_set; assumption.
  - revert s. induction evs as [|ev rest IH]; intros s.
    + cbn. destruct (error s); reflexivity.
    + unfold deliver in *. cbn [fold_left first_terminal]. rewrite IH.
      destruct (error s) as [e|] eqn:E.
      * rewrite (error_on_event_set ev s e E). reflexivity.
      * rewrite (error_on_event_unset ev s E).
        destruct (terminal_error ev); reflexivity.
Qed.

Lemma error_removeAllListeners (old : option Z) (s : SocketAsync) :
  error (removeAllListeners old s) = error s.
Proof. reflexivity. Qed.

(** A pending read or connect leaves the field to the listeners of the
    constructor: when it settles, the field is what the notifications it
    consumed made it. *)
Lemma readAsync_wait_error cb old s evs :
  exists consumed,
    evs = consumed ++ snd (readAsync_wait cb old s evs)
    /\ error (final (readAsync_wait cb old s evs)) = error (deliver consumed s).
Proof.
  revert s. induction evs as [|ev rest IH]; intros s.
  - exists []. split; reflexivity.
  - cbn [readAsync_wait].
    destruct (IH (on_event ev s)) as (consumed & Hc & He).
    destruct ev; try destruct (satisfied cb _);
      first [ (eexists (_ :: consumed); split;
               [cbn [app]; f_equal; exact Hc | exact He])
            | (eexists [_]; split; reflexivity) ].
Qed.

Lemma connect_wait_error old s evs :
  exists consumed,
    evs = consumed ++ snd (connect_wait old s evs)
    /\ error (final (connect_wait old s evs)) = error (deliver consumed s).
Proof.
  revert s. induction evs as [|ev rest IH]; intros s.
  - exists []. split; reflexivity.
  - cbn [connect_wait].
    destruct (IH (on_event ev s)) as (consumed & Hc & He).
    destruct ev;
      first [ (eexists (_ :: consumed); split;
               [cbn [app]; f_equal; exact Hc | exact He])
            | (eexists [_]; split; reflexivity) ].
Qed.

(* ================================================================== *)
(** ** What the operations write *)
(* ================================================================== *)

Lemma written_on_event ev s : written (on_event ev s) = written s.
Proof. destruct ev; cbn; unfold record_error; destruct (error s); reflexivity. Qed.

Lemma written_deliver evs s : written (deliver evs s) = written s.
Proof.
  revert s. induction evs as [|ev rest IH]; intros s; [reflexivity|].
  unfold deliver in *. cbn [fold_left]. rewrite IH. apply written_on_event.
Qed.

Lemma readAsync_wait_silent cb old s evs :
  written (final (readAsync_wait cb old s evs)) = written s.
Proof.
  revert s. induction evs as [|ev rest IH]; intros s; [reflexivity|].
  cbn [readAsync_wait].
  destruct ev; try destruct (satisfied cb _); rewrite ?IH;
    unfold final; cbn [fst snd]; try apply written_on_event;
    unfold removeAllListeners, setTimeout; cbn [written];
    apply written_on_event.
Qed.

Lemma readAsync_silent cb tmo : silent (readAsync cb tmo).
Proof.
  intros s evs. unfold readAsync.
  assert (Hs : written (if truthy tmo then setTimeout (or_default tmo 0) s else s)
               = written s) by (destruct (truthy tmo); reflexivity).
  destruct (chunks _); [|destruct (satisfied cb _)];
    rewrite ?readAsync_wait_silent; auto.
Qed.

Lemma silent_appends {A} (m : Async A) : silent m -> appends m.
Proof. intros H s evs. exists []. rewrite app_nil_r. apply H. Qed.

Lemma silent_bind {A B} (m : Async A) (k : A -> Async B) :
  silent m -> (forall a, silent (k a)) -> silent (bind m k).
Proof.
  intros Hm Hk s evs. unfold bind. specialize (Hm s evs).
  destruct (m s evs) as [[[a|e|] s'] evs']; unfold final in *; cbn [fst snd] in *;
    try assumption.
  rewrite <- Hm. apply (Hk a s' evs').
Qed.

Lemma appends_bind {A B} (m : Async A) (k : A -> Async B) :
  appends m -> (forall a, appends (k a)) -> appends (bind m k).
Proof.
  intros Hm Hk s evs. unfold bind. destruct (Hm s evs) as [x Hx].
  destruct (m s evs) as [[[a|e|] s'] evs']; unfold final in *; cbn [fst snd] in *;
    try (exists x; assumption).
  destruct (Hk a s' evs') as [y Hy]. exists (x ++ y).
  unfold final in Hy. rewrite Hy, Hx, app_assoc. reflexivity.
Qed.

Lemma silent_ret {A} (a : A) : silent (ret a).
Proof. intros s evs. reflexivity. Qed.

Lemma silent_lift {A} (r : Result A) : silent (lift r).
Proof. intros s evs. destruct r; reflexivity. Qed.

Lemma appends_write b : appends (call (write b)).
Proof. intros s evs. exists [b]. reflexivity. Qed.

Lemma readAndClearAsync_silent between cb tmo :
  silent (readAndClearAsync_between between cb tmo).
Proof.
  unfold readAndClearAsync_between.
  apply silent_bind; [apply readAsync_silent|]. intros b.
  apply silent_bind.
  { intros s evs. unfold final, call. cbn [fst snd]. apply written_deliver. }
  intros _. apply silent_bind; [|intros _; apply silent_ret].
  intros s evs. reflexivity.
Qed.

Lemma socks5_auth_appends u p tmo : appends (socks5_auth u p tmo).
Proof.
  unfold socks5_auth. apply appends_bind; [apply appends_write|]. intros _.
  apply silent_appends. apply silent_bind; [apply readAndClearAsync_silent|].
  intros b. apply silent_lift.
Qed.

Lemma socks5_connect_appends host port tmo : appends (socks5_connect host port tmo).
Proof.
  unfold socks5_connect.
  apply appends_bind; [apply silent_appends, silent_lift|]. intros ti.
  apply appends_bind; [apply appends_write|]. intros _.
  apply silent_appends. apply silent_bind; [apply readAndClearAsync_silent|].
  intros b. apply silent_lift.
Qed.

(* ================================================================== *)
(** ** The SOCKS5 negotiation *)
(* ================================================================== *)

Lemma socks5_after_method_appends options proxy a :
  appends (socks5_after_method options proxy a).
Proof.
  unfold socks5_after_method. apply appends_bind.
  - destruct (strict_eq a 2); [apply socks5_auth_appends|].
    apply silent_appends, silent_ret.
  - intros _. apply socks5_connect_appends.
Qed.

Lemma socks5_greeting_bytes : socks5_greeting = [5; 2; 0; 2].
Proof. reflexivity. Qed.

Lemma check_method_reply_ok (chunks : Buffer) (a : option Z) :
  check_method_reply chunks = Ok a <->
  len chunks = 2 /\ index chunks 0 = Some 5
  /\ (index chunks 1 = Some 0 \/ index chunks 1 = Some 2) /\ a = index chunks 1.
Proof.
  unfold check_method_reply.
  destruct (Z.eqb_spec (len chunks) 2) as [Hl|Hl]; cbn [negb].
  2:{ split; [discriminate | intros [H _]; contradiction]. }
  destruct (index chunks 0) as [v|] eqn:E0; cbn [strict_eq].
  2:{ cbn. split; [discriminate | intros (_ & H & _); discriminate]. }
  destruct (Z.eqb_spec v 5) as [->|Hv]; cbn [negb].
  2:{ split; [discriminate | intros (_ & H & _); congruence]. }
  destruct (index chunks 1) as [w|] eqn:E1; cbn [strict_eq].
  2:{ cbn. split; [discriminate | intros (_ & _ & [H|H] & _); discriminate]. }
  destruct (Z.eqb_spec w 0) as [->|H0]; cbn [negb orb].
  { split; [intros H; inversion H; auto | intros (_ & _ & _ & ->); reflexivity]. }
  destruct (Z.eqb_spec w 2) as [->|H2]; cbn [negb].
  { split; [intros H; inversion H; auto | intros (_ & _ & _ & ->); reflexivity]. }
  split; [discriminate | intros (_ & _ & [H|H] & _); congruence].
Qed.

(** C5 -- The greeting written to the stream is [05 02 00 02], before
    anything else the negotiation writes.  The negotiation goes on after
    the reply to the greeting exactly when the reply has two bytes, the
    first 5 and the second 0 or 2; a reply of another length fails with the
    byte-count error, a two-byte reply with another first byte with the
    version error, and one with another second byte with the
    authentication-method error. *)
Theorem socks5_greeting_exchange
    (options : ConnectOptions) (proxy : ProxyOptions)
    (s : SocketAsync) (evs : list Event) :
  let tmo := or_default (p_timeout proxy) 10000 in
  socks5_greeting = [5; 2; 0; 2]
  /\ (exists rest,
        written (final (_connectSocks5Proxy options proxy s evs))
        = written s ++ [5; 2; 0; 2] :: rest)
  /\ (forall chunks s1 evs1,
        readAndClearAsync NoCallback (Some tmo) (write socks5_greeting s) evs
        = (Resolved chunks, s1, evs1) ->
        ((exists a, check_method_reply chunks = Ok a) <->
         (len chunks = 2 /\ index chunks 0 = Some 5
          /\ (index chunks 1 = Some 0 \/ index chunks 1 = Some 2)))
        /\ (forall a, check_method_reply chunks = Ok a ->
              _connectSocks5Proxy options proxy s evs
              = socks5_after_method options proxy a s1 evs1)
        /\ (forall e, check_method_reply chunks = Throw e ->
              _connectSocks5Proxy options proxy s evs = (Rejected e, s1, evs1))
        /\ (len chunks <> 2 ->
              check_method_reply chunks
              = Throw (Error (js "Unexpected number of bytes received.")))
        /\ (len chunks = 2 -> index chunks 0 <> Some 5 ->
              check_method_reply chunks
              = Throw (Error (js "Unexpected socks version number: "
                              ++ show_index (index chunks 0) ++ js ".")))
        /\ (len chunks = 2 -> index chunks 0 = Some 5 ->
            index chunks 1 <> Some 0 -> index chunks 1 <> Some 2 ->
              check_method_reply chunks
              = Throw (Error (js "Unexpected socks authentication method: "
                              ++ show_index (index chunks 1))))).
Proof.
  intros tmo. split; [reflexivity|]. split.
  - unfold _connectSocks5Proxy.
    assert (Happ : appends
      (chunks <- readAndClearAsync NoCallback
                   (Some (or_default (p_timeout proxy) 10000)) ;;
       authType <- lift (check_method_reply chunks) ;;
       (if strict_eq authType 2
        then socks5_auth (or_default (p_username proxy) [])
               (or_default (p_password proxy) [])
               (or_default (p_timeout proxy) 10000)
        else ret tt) ;;;
       socks5_connect (o_host options) (o_port options)
         (or_default (p_timeout proxy) 10000))).
    { apply appends_bind; [apply silent_appends, readAndClearAsync_silent|].
      intros b. apply appends_bind; [apply silent_appends, silent_lift|].
      intros a. apply (socks5_after_method_appends options proxy a). }
    destruct (Happ (write socks5_greeting s) evs) as [extra Hx].
    exists extra. unfold bind at 1. unfold call at 1.
    rewrite Hx. cbn [write written]. rewrite <- app_assoc. reflexivity.
  - intros chunks s1 evs1 Hread.
    assert (Hflow : _connectSocks5Proxy options proxy s evs
                    = match check_method_reply chunks with
                      | Ok a => socks5_after_method options proxy a s1 evs1
                      | Throw e => (Rejected e, s1, evs1)
                      end).
    { unfold _connectSocks5Proxy. unfold bind at 1. unfold call at 1.
      unfold bind at 1. fold tmo. rewrite Hread.
      unfold bind at 1.
      destruct (check_method_reply chunks) as [a|e]; reflexivity. }
    split; [|split; [|split; [|split; [|split]]]].
    + split.
      * intros [a Ha]. apply check_method_reply_ok in Ha. tauto.
      * intros (H1 & H2 & H3). exists (index chunks 1).
        apply check_method_reply_ok. tauto.
    + intros a Ha. rewrite Hflow, Ha. reflexivity.
    + intros e He. rewrite Hflow, He. reflexivity.
    + intros Hl. unfold check_method_reply.
      destruct (Z.eqb_spec (len chunks) 2); [contradiction|reflexivity].
    + intros Hl H0. unfold check_method_reply. rewrite Hl. cbn [Z.eqb Pos.eqb negb].
      destruct (index chunks 0) as [v|]; cbn [strict_eq negb]; [|reflexivity].
      destruct (Z.eqb_spec v 5); [congruence|reflexivity].
    + intros Hl H0 H1 H2. unfold check_method_reply.
      rewrite Hl, H0. cbn [Z.eqb Pos.eqb negb strict_eq].
      destruct (index chunks 1) as [w|]; cbn [strict_eq orb negb]; [|reflexivity].
      destruct (Z.eqb_spec w 0); [congruence|].
      destruct (Z.eqb_spec w 2); [congruence|reflexivity].
Qed.

(** The reply check is all that is left of the negotiation once the connect
    request is written and its reply read. *)
Lemma socks5_connect_flow host port tmo s evs ti chunks s' evs' :
  socks5_target_info host port = Ok ti ->
  readAndClearAsync NoCallback (Some tmo) (write ti s) evs
  = (Resolved chunks, s', evs') ->
  socks5_connect host port tmo s evs
  = lift (check_connect_reply host chunks) s' evs'.
Proof.
  intros Hti Hread. unfold socks5_connect.
  unfold bind at 1. rewrite Hti. cbn [lift ret].
  unfold bind at 1. unfold call at 1.
  unfold bind at 1. rewrite Hread. reflexivity.
Qed.

Lemma ERROR_MAP_get_outside (c : Z) :
  ~ 1 <= c <= 8 -> ERROR_MAP_get (Some c) = None.
Proof.
  intros H. unfold ERROR_MAP_get, ERROR_MAP. cbn [find fst snd].
  repeat match goal with
         | |- context [?k =? c] =>
             destruct (Z.eqb_spec k c); [exfalso; lia|]
         end.
  reflexivity.
Qed.

Lemma ERROR_MAP_get_inside (c : Z) :
  1 <= c <= 8 ->
  exists x m, ERROR_MAP_get (Some c) = Some (x :: m) /\ In (c, x :: m) ERROR_MAP.
Proof.
  intros H.
  assert (Hc : c = 1 \/ c = 2 \/ c = 3 \/ c = 4 \/ c = 5 \/ c = 6 \/ c = 7 \/ c = 8)
    by lia.
  destruct Hc as [->|[->|[->|[->|[->|[->|[->| ->]]]]]]];
    vm_compute; do 2 eexists; (split; [reflexivity|]); tauto.
Qed.

(** C3 -- A reply to the connect request whose first byte is 5 and whose
    second byte is a code from 1 to 8 makes the negotiation fail with the
    message [ERROR_MAP] gives for that code; for code 2 that is the message
    about the proxy's rule set.  A second byte that is not 0 and not in
    1..8 makes it fail with the generic message that ends with the target
    host. *)
Theorem socks5_connect_reply_errors
    (host : jsstring) (port tmo : Z) (s : SocketAsync) (evs : list Event)
    (ti chunks : Buffer) (s' : SocketAsync) (evs' : list Event) (c : Z) :
  socks5_target_info host port = Ok ti ->
  readAndClearAsync NoCallback (Some tmo) (write ti s) evs
  = (Resolved chunks, s', evs') ->
  index chunks 0 = Some 5 ->
  index chunks 1 = Some c ->
  (1 <= c <= 8 ->
     exists m, In (c, m) ERROR_MAP
       /\ check_connect_reply host chunks = Throw (Error m)
       /\ socks5_connect host port tmo s evs = (Rejected (Error m), s', evs'))
  /\ (c = 2 ->
        socks5_connect host port tmo s evs
        = (Rejected (Error (js "代理服务器规则集不允许连接")), s', evs'))
  /\ (c <> 0 -> ~ 1 <= c <= 8 ->
        socks5_connect host port tmo s evs
        = (Rejected (Error (js "未知错误，连接目标地址失败：" ++ host)), s', evs')).
Proof.
  intros Hti Hread H0 H1.
  rewrite (socks5_connect_flow _ _ _ _ _ _ _ _ _ Hti Hread).
  unfold check_connect_reply. rewrite H0, H1. cbn [strict_eq Z.eqb Pos.eqb negb].
  split; [|split].
  - intros Hc. destruct (Z.eqb_spec c 0); [lia|]. cbn [negb].
    destruct (ERROR_MAP_get_inside c Hc) as (x & m & Hget & Hin).
    rewrite Hget. exists (x :: m). repeat split. exact Hin.
  - intros ->. reflexivity.
  - intros Hc Hout. destruct (Z.eqb_spec c 0); [contradiction|]. cbn [negb].
    rewrite (ERROR_MAP_get_outside c Hout). reflexivity.
Qed.

Lemma socks5_connect_reply_errors_witness :
  fst (fst (socks5_connect (js "example.com") 80 10000 constructor
              [EvData [5; 2; 0; 1; 0; 0; 0; 0; 0; 0]]))
  = Rejected (Error (js "代理服务器规则集不允许连接")).
Proof.
  pose proof (fun ti s' H H' =>
    socks5_connect_reply_errors (js "example.com") 80 10000 constructor
      [EvData [5; 2; 0; 1; 0; 0; 0; 0; 0; 0]] ti
      [5; 2; 0; 1; 0; 0; 0; 0; 0; 0] s' [] 2 H H' eq_refl eq_refl) as W.
  edestruct W as (_ & H2 & _).
  - vm_compute. reflexivity.
  - vm_compute. reflexivity.
  - rewrite (H2 eq_refl). reflexivity.
Defined.

(** C10 -- A reply to the connect request shorter than two bytes never
    passes the reply check: its second byte reads as [undefined], the
    version test or the success test fails, and the negotiation is rejected
    with the error of the check. *)
Theorem socks5_short_connect_reply
    (host : jsstring) (port tmo : Z) (s : SocketAsync) (evs : list Event)
    (ti chunks : Buffer) (s' : SocketAsync) (evs' : list Event) :
  socks5_target_info host port = Ok ti ->
  readAndClearAsync NoCallback (Some tmo) (write ti s) evs
  = (Resolved chunks, s', evs') ->
  len chunks < 2 ->
  index chunks 1 = None
  /\ exists e,
       check_connect_reply host chunks = Throw e
       /\ socks5_connect host port tmo s evs = (Rejected e, s', evs')
       /\ (index chunks 0 <> Some 5 ->
             e = Error (js "Unexpected SOCKS version number: "
                        ++ show_index (index chunks 0) ++ js "."))
       /\ (index chunks 0 = Some 5 ->
             e = Error (js "未知错误，连接目标地址失败：" ++ host)).
Proof.
  intros Hti Hread Hlen.
  assert (H1 : index chunks 1 = None).
  { destruct chunks as [|x [|y r]]; try reflexivity.
    unfold len in Hlen. cbn in Hlen. lia. }
  split; [exact H1|].
  rewrite (socks5_connect_flow _ _ _ _ _ _ _ _ _ Hti Hread).
  unfold check_connect_reply. rewrite H1.
  destruct (index chunks 0) as [v|] eqn:E0; cbn [strict_eq negb].
  - destruct (Z.eqb_spec v 5) as [->|Hv]; cbn [negb ERROR_MAP_get].
    + eexists. split; [reflexivity|]. split; [reflexivity|].
      split; intros H; [congruence|reflexivity].
    + eexists. split; [reflexivity|]. split; [reflexivity|].
      split; intros H; [reflexivity|congruence].
  - eexists. split; [reflexivity|]. split; [reflexivity|].
    split; intros H; [reflexivity|discriminate].
Qed.

Lemma socks5_short_connect_reply_witness :
  fst (fst (socks5_connect (js "example.com") 80 10000 constructor [EvData [5]]))
  = Rejected (Error (js "未知错误，连接目标地址失败：example.com")).
Proof.
  pose proof (fun ti s' H H' =>
    socks5_short_connect_reply (js "example.com") 80 10000 constructor
      [EvData [5]] ti [5] s' [] H H') as W.
  edestruct W as (_ & e & _ & Hflow & _ & He).
  - vm_compute. reflexivity.
  - vm_compute. reflexivity.
  - vm_compute. reflexivity.
  - rewrite Hflow, (He eq_refl). reflexivity.
Defined.

(* ================================================================== *)
(** ** The SOCKS5 auth message *)
(* ================================================================== *)

Lemma utf8_encode_ascii (s : jsstring) :
  Forall (fun c => c < 128) s -> utf8_encode s = s.
Proof.
  induction 1 as [|c r Hc Hr IH]; [reflexivity|].
  cbn [utf8_encode]. destruct (Z.ltb_spec c 128); [|lia].
  rewrite IH. reflexivity.
Qed.

(** When the password is ASCII its length in code units is its length in
    bytes, and the message is the one of the protocol. *)
Lemma socks5_auth_info_ascii_password (username password : jsstring) :
  Forall (fun c => c < 128) password ->
  len (utf8_encode username) <= 255 ->
  len password <= 255 ->
  socks5_auth_info username password = auth_message_spec username password.
Proof.
  intros Hp Hu Hl. unfold socks5_auth_info, auth_message_spec.
  rewrite (utf8_encode_ascii password Hp).
  unfold Buffer_concat, Buffer_from_array. cbn [List.concat map].
  pose proof (len_nonneg (utf8_encode username)).
  pose proof (len_nonneg password).
  rewrite !Z.mod_small by lia.
  rewrite app_nil_r. reflexivity.
Qed.

(** What the code writes, for strings of at most 255 bytes and 255 code
    units: the prefix of the username counts its bytes, the prefix of the
    password counts its code units. *)
Lemma socks5_auth_info_layout (username password : jsstring) :
  len (utf8_encode username) <= 255 ->
  len password <= 255 ->
  socks5_auth_info username password
  = [1; len (utf8_encode username)] ++ utf8_encode username
    ++ [len password] ++ utf8_encode password.
Proof.
  intros Hu Hl. unfold socks5_auth_info.
  unfold Buffer_concat, Buffer_from_array. cbn [List.concat map].
  pose proof (len_nonneg (utf8_encode username)).
  pose proof (len_nonneg password).
  rewrite !Z.mod_small by lia.
  rewrite app_nil_r. reflexivity.
Qed.

(** C1 -- With the username [a] and the password [é] (one code unit, two
    bytes in UTF-8), and the method-selection reply [05 02], the auth
    message written to the stream is [01 01 61 01 c3 a9]: the prefix of the
    password is its number of code units, 1, where the protocol's message
    [01 01 61 02 c3 a9] has its number of bytes, 2.  The prefix of the
    username is its number of bytes. *)
Theorem socks5_auth_info_password_prefix :
  let username := js "a" in
  let password := js "é" in
  let options := mkOptions (js "example.com") 80 None None in
  let proxy := mkProxy (Some (js "127.0.0.1")) (Some 1086) None
                       (Some username) (Some password) None in
  len password = 1
  /\ len (utf8_encode password) = 2
  /\ socks5_auth_info username password = [1; 1; 97; 1; 195; 169]
  /\ auth_message_spec username password = [1; 1; 97; 2; 195; 169]
  /\ written (final (_connectSocks5Proxy options proxy constructor [EvData [5; 2]]))
     = [[5; 2; 0; 2]; [1; 1; 97; 1; 195; 169]].
Proof. vm_compute. repeat split; reflexivity. Qed.

(* ================================================================== *)
(** ** The HTTP CONNECT negotiation *)
(* ================================================================== *)


(** *** The matcher and the language of a pattern *)

Lemma Matches_Empty_inv s : ~ Matches Empty s.
Proof. intros H. inversion H. Qed.

Lemma Matches_Eps_inv s : Matches Eps s -> s = [].
Proof. intros H. inversion H. reflexivity. Qed.

Lemma Matches_Chr_inv p s : Matches (Chr p) s -> exists c, s = [c] /\ p c = true.
Proof. intros H. inversion H; subst. eauto. Qed.

Lemma Matches_Seq_inv a b w :
  Matches (Seq a b) w -> exists s t, w = s ++ t /\ Matches a s /\ Matches b t.
Proof. intros H. inversion H; subst. eauto 6. Qed.

Lemma Matches_Alt_inv a b w : Matches (Alt a b) w -> Matches a w \/ Matches b w.
Proof. intros H. inversion H; subst; auto. Qed.

Lemma nullable_Matches r : nullable r = true <-> Matches r [].
Proof.
  induction r as [| |p|a IHa b IHb|a IHa b IHb|a IHa]; cbn.
  - split; [discriminate | intros H; inversion H].
  - split; [constructor | reflexivity].
  - split; [discriminate | intros H; inversion H].
  - rewrite andb_true_iff, IHa, IHb. split.
    + intros [Ha Hb]. apply (MSeq a b [] [] Ha Hb).
    + intros H. apply Matches_Seq_inv in H. destruct H as (s & t & E & Hs & Ht).
      symmetry in E. apply app_eq_nil in E. destruct E; subst. split; assumption.
  - rewrite orb_true_iff, IHa, IHb. split.
    + intros [H|H]; [apply MAltL | apply MAltR]; assumption.
    + apply Matches_Alt_inv.
  - split; [constructor | reflexivity].
Qed.

Lemma Matches_mkSeq a b s : Matches (mkSeq a b) s <-> Matches (Seq a b) s.
Proof.
  assert (HE : forall x, Matches Empty s <-> Matches (Seq x Empty) s).
  { intros x. split; intros H; [inversion H|].
    apply Matches_Seq_inv in H. destruct H as (u & t & _ & _ & Ht). inversion Ht. }
  destruct a; cbn.
  - split; intros H; [inversion H|].
    apply Matches_Seq_inv in H. destruct H as (u & t & _ & Hu & _). inversion Hu.
  - split.
    + intros H. apply (MSeq Eps b [] s MEps H).
    + intros H. apply Matches_Seq_inv in H. destruct H as (u & t & -> & Hu & Ht).
      apply Matches_Eps_inv in Hu. subst. exact Ht.
  - destruct b; try reflexivity; apply HE.
  - destruct b; try reflexivity; apply HE.
  - destruct b; try reflexivity; apply HE.
  - destruct b; try reflexivity; apply HE.
Qed.

Lemma Matches_mkAlt a b s : Matches (mkAlt a b) s <-> Matches (Alt a b) s.
Proof.
  assert (HE : forall x, Matches x s <-> Matches (Alt x Empty) s).
  { intros x. split; intros H; [apply MAltL; exact H|].
    apply Matches_Alt_inv in H. destruct H as [H|H]; [exact H | inversion H]. }
  destruct a; cbn.
  - split; intros H; [apply MAltR; exact H|].
    apply Matches_Alt_inv in H. destruct H as [H|H]; [inversion H | exact H].
  - destruct b; try reflexivity; apply HE.
  - destruct b; try reflexivity; apply HE.
  - destruct b; try reflexivity; apply HE.
  - destruct b; try reflexivity; apply HE.
  - destruct b; try reflexivity; apply HE.
Qed.

Lemma Matches_Seq_cons a b c s :
  Matches (Seq a b) (c :: s) <->
  (exists s1 s2, s = s1 ++ s2 /\ Matches a (c :: s1) /\ Matches b s2)
  \/ (Matches a [] /\ Matches b (c :: s)).
Proof.
  split.
  - intros H. apply Matches_Seq_inv in H. destruct H as (u & t & E & Hu & Ht).
    destruct u as [|x u]; cbn in E.
    + right. subst. split; assumption.
    + left. inversion E; subst. exists u, t. repeat split; assumption.
  - intros [(s1 & s2 & -> & H1 & H2) | [H1 H2]].
    + apply (MSeq a b (c :: s1) s2 H1 H2).
    + apply (MSeq a b [] (c :: s) H1 H2).
Qed.

Lemma Matches_Star_cons a c s :
  Matches (Star a) (c :: s) <->
  exists s1 s2, s = s1 ++ s2 /\ Matches a (c :: s1) /\ Matches (Star a) s2.
Proof.
  split.
  - intros H. remember (Star a) as r eqn:Er. remember (c :: s) as w eqn:Ew.
    revert s Ew. induction H as [| | | | | |a' u t Hu IHu Ht IHt]; intros s' Ew;
      try discriminate.
    inversion Er; subst a'.
    destruct u as [|x u]; cbn in Ew.
    + apply IHt; auto.
    + inversion Ew; subst. exists u, t. repeat split; assumption.
  - intros (s1 & s2 & -> & H1 & H2). apply (MStarS a (c :: s1) s2 H1 H2).
Qed.

Lemma Matches_deriv r : forall c s, Matches (deriv c r) s <-> Matches r (c :: s).
Proof.
  induction r as [| |p|a IHa b IHb|a IHa b IHb|a IHa]; intros c s; cbn [deriv].
  - split; intros H; inversion H.
  - split; intros H; inversion H.
  - destruct (p c) eqn:E.
    + split; intros H.
      * apply Matches_Eps_inv in H. subst. constructor. exact E.
      * apply Matches_Chr_inv in H. destruct H as (x & Hx & _).
        inversion Hx; subst. constructor.
    + split; intros H; [inversion H|].
      apply Matches_Chr_inv in H. destruct H as (x & Hx & Hp).
      inversion Hx; subst. congruence.
  - rewrite Matches_mkAlt, Matches_Seq_cons. split.
    + intros H. apply Matches_Alt_inv in H. destruct H as [H|H].
      * apply Matches_mkSeq, Matches_Seq_inv in H.
        destruct H as (u & t & -> & Hu & Ht).
        left. exists u, t. repeat split; [apply IHa|]; assumption.
      * destruct (nullable a) eqn:N; [|inversion H].
        right. split; [apply nullable_Matches; assumption | apply IHb; assumption].
    + intros [(s1 & s2 & -> & H1 & H2) | [H1 H2]].
      * apply MAltL, Matches_mkSeq. apply MSeq; [apply IHa|]; assumption.
      * apply MAltR. apply nullable_Matches in H1. rewrite H1. apply IHb. assumption.
  - rewrite Matches_mkAlt. split.
    + intros H. apply Matches_Alt_inv in H.
      destruct H as [H|H]; [apply MAltL, IHa | apply MAltR, IHb]; assumption.
    + intros H. apply Matches_Alt_inv in H.
      destruct H as [H|H]; [apply MAltL, IHa | apply MAltR, IHb]; assumption.
  - rewrite Matches_mkSeq, Matches_Star_cons. split.
    + intros H. apply Matches_Seq_inv in H. destruct H as (u & t & -> & Hu & Ht).
      exists u, t. repeat split; [apply IHa|]; assumption.
    + intros (s1 & s2 & -> & H1 & H2). apply MSeq; [apply IHa|]; assumption.
Qed.

Lemma matches_Matches r s : matches r s = true <-> Matches r s.
Proof.
  revert r. induction s as [|c s IH]; intros r; cbn [matches].
  - apply nullable_Matches.
  - rewrite IH. apply Matches_deriv.
Qed.

Lemma matches_prefix_Matches r s :
  matches_prefix r s = true <-> exists p t, s = p ++ t /\ Matches r p.
Proof.
  revert r. induction s as [|c s IH]; intros r; cbn [matches_prefix];
    rewrite orb_true_iff, nullable_Matches.
  - split.
    + intros [H|H]; [|discriminate]. exists [], []. split; [reflexivity|assumption].
    + intros (p & t & E & H). symmetry in E. apply app_eq_nil in E.
      destruct E; subst. left; assumption.
  - rewrite IH. split.
    + intros [H|(p & t & -> & H)].
      * exists [], (c :: s). split; [reflexivity|assumption].
      * exists (c :: p), t. split; [reflexivity|]. apply Matches_deriv. assumption.
    + intros (p & t & E & H). destruct p as [|x p]; cbn in E.
      * left; assumption.
      * inversion E; subst. right. exists p, t. split; [reflexivity|].
        apply Matches_deriv. assumption.
Qed.

Lemma Matches_accepts r s :
  Matches r s -> Forall (fun c => accepts_char r c = true) s.
Proof.
  induction 1 as [|p c Hc|a b s t Hs IHs Ht IHt|a b s Hs IHs|a b s Hs IHs|a
                 |a s t Hs IHs Ht IHt]; cbn [accepts_char].
  - constructor.
  - constructor; [exact Hc | constructor].
  - apply Forall_app. split; eapply Forall_impl; try eassumption;
      cbn; intros x Hx; rewrite Hx; auto using orb_true_r.
  - eapply Forall_impl; try eassumption; cbn; intros x Hx; rewrite Hx; auto.
  - eapply Forall_impl; try eassumption; cbn; intros x Hx; rewrite Hx;
      auto using orb_true_r.
  - constructor.
  - apply Forall_app. split; assumption.
Qed.

(** *** The status line *)

Lemma same_ignoring_case_upper (a b : Z) :
  same_ignoring_case a b = (ascii_upper b =? ascii_upper a).
Proof.
  unfold same_ignoring_case, is_ascii_letter, ascii_upper.
  repeat match goal with
         | |- context [?x <=? ?y] => destruct (Z.leb_spec x y)
         end; cbn [andb orb];
  repeat match goal with
         | |- context [?x =? ?y] => destruct (Z.eqb_spec x y)
         end; cbn [andb orb]; try reflexivity; exfalso; lia.
Qed.

Lemma matches_prefix_Empty (s : jsstring) : matches_prefix Empty s = false.
Proof. induction s as [|c r IH]; [reflexivity|]. cbn. exact IH. Qed.

Lemma matches_prefix_Eps (s : jsstring) : matches_prefix Eps s = true.
Proof. destruct s; reflexivity. Qed.

Lemma mkAlt_Empty_r (r : re) : mkAlt r Empty = r.
Proof. destruct r; reflexivity. Qed.

Lemma matches_prefix_Chr (p : Z -> bool) (s : jsstring) :
  matches_prefix (Chr p) s
  = match s with c :: _ => p c | [] => false end.
Proof.
  destruct s as [|c r]; [reflexivity|]. cbn.
  destruct (p c); [apply matches_prefix_Eps | apply matches_prefix_Empty].
Qed.

Lemma matches_prefix_Chr_Seq (p : Z -> bool) (r : re) (s : jsstring) :
  matches_prefix (Seq (Chr p) r) s
  = match s with c :: s' => p c && matches_prefix r s' | [] => false end.
Proof.
  destruct s as [|c s']; [reflexivity|].
  cbn [matches_prefix nullable deriv andb orb].
  destruct (p c); cbn [mkSeq andb].
  - rewrite mkAlt_Empty_r. reflexivity.
  - cbn [mkAlt]. apply matches_prefix_Empty.
Qed.

(** An alternative of two characters that exclude each other. *)
Lemma matches_prefix_Alt_Seq (p q : Z -> bool) (r : re) (s : jsstring) :
  (forall c, p c = true -> q c = false) ->
  matches_prefix (Seq (Alt (Chr p) (Chr q)) r) s
  = match s with c :: s' => (p c || q c) && matches_prefix r s' | [] => false end.
Proof.
  intros Hpq. destruct s as [|c s']; [reflexivity|].
  cbn [matches_prefix nullable deriv andb orb].
  specialize (Hpq c).
  destruct (p c); [rewrite Hpq by reflexivity|destruct (q c)];
    cbn [mkAlt mkSeq andb orb]; rewrite ?mkAlt_Empty_r; try reflexivity.
  apply matches_prefix_Empty.
Qed.

Lemma http_200_literal_0 : js "HTTP/1.0 200" = [72; 84; 84; 80; 47; 49; 46; 48; 32; 50; 48; 48].
Proof. reflexivity. Qed.

Lemma http_200_literal_1 : js "HTTP/1.1 200" = [72; 84; 84; 80; 47; 49; 46; 49; 32; 50; 48; 48].
Proof. reflexivity. Qed.

Lemma digit_0_excludes_1 (c : Z) :
  (ascii_upper c =? ascii_upper 48) = true ->
  (ascii_upper c =? ascii_upper 49) = false.
Proof. intros H. apply Z.eqb_eq in H. rewrite H. reflexivity. Qed.

(** One character of the status line: read it on both sides, then decide
    the tests on it. *)
Ltac status_step :=
  first [ rewrite matches_prefix_Chr_Seq
        | rewrite matches_prefix_Alt_Seq by exact digit_0_excludes_1
        | rewrite matches_prefix_Chr ];
  match goal with
  | |- context [match ?s with _ => _ end] => destruct s as [|? ?]
  end;
  cbn [starts_with_ci andb orb]; [reflexivity|];
  rewrite ?same_ignoring_case_upper;
  repeat match goal with
         | |- context [ascii_upper ?x =? ?k] =>
             destruct (ascii_upper x =? k); cbn [andb orb]
         end;
  try reflexivity.

(** The pattern [/^HTTP\/1\.[01] 200/i] says what the words say. *)
Lemma http_200_starts_with (s : jsstring) :
  matches_prefix http_200 s
  = starts_with_ci (js "HTTP/1.0 200") s || starts_with_ci (js "HTTP/1.1 200") s.
Proof.
  rewrite http_200_literal_0, http_200_literal_1.
  unfold http_200. cbn [seqs]. unfold chr_i.
  do 12 status_step.
Qed.

(** C6 -- The HTTP CONNECT negotiation succeeds exactly when the trimmed
    text of the proxy's response starts, case-insensitively, with
    [HTTP/1.0 200] or [HTTP/1.1 200]; on any other response it fails with
    an error whose message ends with that trimmed text. *)
Theorem http_connect_response
    (options : ConnectOptions) (proxy : ProxyOptions)
    (s : SocketAsync) (evs : list Event)
    (chunks : Buffer) (s1 : SocketAsync) (evs1 : list Event) :
  let header := http_header (o_host options) (o_port options)
                  (or_default (p_username proxy) [])
                  (or_default (p_password proxy) []) in
  let str := trim (utf8_decode chunks) in
  let ok := starts_with_ci (js "HTTP/1.0 200") str
            || starts_with_ci (js "HTTP/1.1 200") str in
  readAndClearAsync NoCallback (Some (or_default (p_timeout proxy) 10000))
                    (write (utf8_encode header) s) evs
  = (Resolved chunks, s1, evs1) ->
  (_connectHttpProxy options proxy s evs = (Resolved tt, s1, evs1) <-> ok = true)
  /\ (ok = false ->
        _connectHttpProxy options proxy s evs
        = (Rejected (Error (js "连接目标失败：" ++ str)), s1, evs1)).
Proof.
  intros header str ok Hread.
  assert (Hflow : _connectHttpProxy options proxy s evs
                  = lift (check_http_response chunks) s1 evs1).
  { unfold _connectHttpProxy. unfold bind at 1. unfold call at 1.
    unfold bind at 1. fold header. rewrite Hread. reflexivity. }
  rewrite Hflow. unfold check_http_response, http_response_text.
  fold str. rewrite http_200_starts_with. fold ok.
  destruct ok; cbn [negb lift ret reject].
  - split; [split; reflexivity | discriminate].
  - split; [split; discriminate | reflexivity].
Qed.

Lemma http_connect_response_witness :
  let options := mkOptions (js "example.com") 443 None None in
  let proxy := mkProxy (Some (js "127.0.0.1")) (Some 8080) (Some (js "http"))
                       (Some (js "user")) (Some (js "pass")) None in
  fst (fst (_connectHttpProxy options proxy constructor
              [EvData (utf8_encode (js "HTTP/1.1 407 Proxy Authentication Required") ++ [13; 10; 13; 10])]))
  = Rejected (Error (js "连接目标失败：HTTP/1.1 407 Proxy Authentication Required")).
Proof.
  intros options proxy.
  pose proof (fun s1 H =>
    http_connect_response options proxy constructor
      [EvData (utf8_encode (js "HTTP/1.1 407 Proxy Authentication Required") ++ [13; 10; 13; 10])]
      (utf8_encode (js "HTTP/1.1 407 Proxy Authentication Required") ++ [13; 10; 13; 10])
      s1 [] H) as W.
  edestruct W as [_ Hfail].
  - vm_compute. reflexivity.
  - rewrite Hfail; [reflexivity | vm_compute; reflexivity].
Defined.

Example http_connect_lowercase :
  let options := mkOptions (js "example.com") 443 None None in
  let proxy := mkProxy (Some (js "127.0.0.1")) (Some 8080) (Some (js "http"))
                       None None None in
  fst (fst (_connectHttpProxy options proxy constructor
              [EvData (utf8_encode (js "  http/1.0 200 connection established"))]))
  = Resolved tt
  /\ written (final (_connectHttpProxy options proxy constructor []))
     = [utf8_encode (js "CONNECT example.com:443 HTTP/1.1" ++ CRLF
                     ++ js "Connection: keep-alive" ++ CRLF
                     ++ js "Content-Length: 0" ++ CRLF ++ CRLF)].
Proof. vm_compute. split; reflexivity. Qed.

(* ================================================================== *)
(** ** The orchestrator *)
(* ================================================================== *)

(** The text of an error ends with its message. *)
Lemma Error_toString_ends_with_message (e : JsError) :
  exists prefix, Error_toString e = prefix ++ message e.
Proof.
  unfold Error_toString. destruct (cls e).
  - destruct (name e) as [|x n]; [exists []; reflexivity|].
    destruct (message e) as [|y m].
    + exists (x :: n). rewrite app_nil_r. reflexivity.
    + exists ((x :: n) ++ js ": "). rewrite <- app_assoc. reflexivity.
  - exists (name e ++ js " [" ++ code e ++ js "]: ").
    rewrite <- !app_assoc. reflexivity.
  - destruct (name e) as [|x n]; [exists []; reflexivity|].
    destruct (message e) as [|y m].
    + exists (x :: n). rewrite app_nil_r. reflexivity.
    + exists ((x :: n) ++ js ": "). rewrite <- app_assoc. reflexivity.
Qed.

Lemma Error_toString_plain (m : jsstring) :
  m <> [] -> Error_toString (Error m) = js "Error: " ++ m.
Proof. intros H. destruct m as [|c m]; [contradiction|reflexivity]. Qed.

(** A direct connect is rejected with the error the stream reported, as it
    is, or with one of three errors of its own. *)
Lemma connect_wait_rejected old s evs e s' evs' :
  connect_wait old s evs = (Rejected e, s', evs') ->
  In (EvError e) evs
  \/ e = Error (js "ECONNECTTIMEOUT")
  \/ e = Error (js "ESOCKETCLOSED")
  \/ e = Error (js "EENDFIN").
Proof.
  revert s. induction evs as [|ev rest IH]; intros s H; cbn [connect_wait] in H.
  - discriminate.
  - destruct ev; try discriminate.
    + apply IH in H. destruct H as [H|H]; [left; right; exact H | right; exact H].
    + inversion H; subst. right. left. reflexivity.
    + inversion H; subst. left. left. reflexivity.
    + inversion H; subst. right. right. right. reflexivity.
    + inversion H; subst. right. right. left. reflexivity.
Qed.

(** C2, as the code has it -- With a proxy configured, an error [e] raised
    while connecting to the proxy or negotiating makes [connectAsync] reject
    with a [ProxyError] whose message is the text of [e] (name, colon,
    message: [Error: ESOCKETTIMEOUT]), which ends with the message of [e];
    and every rejection is such a wrapped error.  With no proxy the call is
    the direct connect, and the error that rejects the direct connect
    rejects the call as it is, unwrapped; for a port and timeouts that
    [net.Socket] accepts this is the error the stream reported, or one of
    three plain errors of the connect. *)
Theorem connectAsync_proxy_error
    (toLowerCase : jsstring -> jsstring)
    (options : ConnectOptions) (s : SocketAsync) (evs : list Event) :
  (forall proxy, o_proxy options = Some proxy ->
     (forall e s' evs',
        proxy_try_body toLowerCase options proxy s evs = (Rejected e, s', evs') ->
        connectAsync toLowerCase options s evs
        = (Rejected (ProxyError e), s', evs')
        /\ cls (ProxyError e) = ClsProxyError
        /\ name (ProxyError e) = js "ProxyError"
        /\ message (ProxyError e) = Error_toString e
        /\ (exists prefix, message (ProxyError e) = prefix ++ message e)
        /\ (cls e = ClsError -> name e = js "Error" -> message e <> [] ->
            message (ProxyError e) = js "Error: " ++ message e))
     /\ (forall err s' evs',
           connectAsync toLowerCase options s evs = (Rejected err, s', evs') ->
           exists e,
             proxy_try_body toLowerCase options proxy s evs
             = (Rejected e, s', evs')
             /\ err = ProxyError e))
  /\ (o_proxy options = None ->
      let direct :=
        _connectWithoutProxyAsync (Some (o_host options)) (Some (o_port options))
                                  (o_timeout options) in
      connectAsync toLowerCase options s evs = direct s evs
      /\ (forall e s' evs',
            direct s evs = (Rejected e, s', evs') ->
            connectAsync toLowerCase options s evs = (Rejected e, s', evs'))
      /\ (accepted_port (Some (o_port options)) = true ->
          accepted_timeout (o_timeout options) = true ->
          accepted_timeout (timeout s) = true ->
          forall e s' evs',
            connectAsync toLowerCase options s evs = (Rejected e, s', evs') ->
            In (EvError e) evs
            \/ e = Error (js "ECONNECTTIMEOUT")
            \/ e = Error (js "ESOCKETCLOSED")
            \/ e = Error (js "EENDFIN"))).
Proof.
  split.
  - intros proxy Hp. unfold connectAsync. rewrite Hp.
    unfold _connectWithProxyAsync, try_catch. split.
    + intros e s' evs' Hbody. rewrite Hbody.
      split; [reflexivity|]. split; [reflexivity|]. split; [reflexivity|].
      split; [reflexivity|]. split; [apply Error_toString_ends_with_message|].
      intros Hc Hn Hm. cbn [ProxyError message]. unfold Error_toString.
      rewrite Hc, Hn. destruct (message e); [contradiction|reflexivity].
    + intros err s' evs' H.
      destruct (proxy_try_body toLowerCase options proxy s evs)
        as [[[a|e|] s2] evs2]; inversion H; subst.
      exists e. split; reflexivity.
  - intros Hp direct. unfold connectAsync. rewrite Hp. fold direct.
    split; [reflexivity|]. split; [intros e s' evs' H; exact H|].
    intros _ _ _ e s' evs' H. unfold direct, _connectWithoutProxyAsync in H.
    eapply connect_wait_rejected. exact H.
Qed.

(** C2 as stated fails -- the proxy does not answer, the
    connect to it times out with the error [ECONNECTTIMEOUT], and the
    [ProxyError] has the message [Error: ECONNECTTIMEOUT], not the message
    of that error. *)
Lemma proxy_error_message_differs :
  let proxy := mkProxy (Some (js "127.0.0.1")) (Some 1086) None None None None in
  let options := mkOptions (js "example.com") 443 None (Some proxy) in
  let e := Error (js "ECONNECTTIMEOUT") in
  exists s',
    proxy_try_body (map ascii_lower) options proxy constructor [EvTimeout]
    = (Rejected e, s', [])
    /\ connectAsync (map ascii_lower) options constructor [EvTimeout]
       = (Rejected (ProxyError e), s', [])
    /\ message (ProxyError e) = js "Error: ECONNECTTIMEOUT"
    /\ message (ProxyError e) <> message e.
Proof.
  eexists. split; [vm_compute; reflexivity|].
  split; [vm_compute; reflexivity|].
  split; [reflexivity|]. vm_compute. discriminate.
Qed.

Example connectAsync_assertion :
  let proxy := mkProxy (Some (js "127.0.0.1")) (Some 1086) (Some (js "socks4"))
                       None None None in
  let options := mkOptions (js "example.com") 443 None (Some proxy) in
  fst (fst (connectAsync (map ascii_lower) options constructor []))
  = Rejected (mkJsError ClsProxyError (js "ProxyError")
      (js "AssertionError [ERR_ASSERTION]: The proxy type must be socks5 or http.")
      []).
Proof. vm_compute. reflexivity. Qed.

Example connectAsync_socks5_ok :
  let proxy := mkProxy (Some (js "127.0.0.1")) (Some 1086) (Some (js "SOCKS5"))
                       None None None in
  let options := mkOptions (js "example.com") 443 None (Some proxy) in
  let r := connectAsync (map ascii_lower) options constructor
             [EvConnect; EvData [5; 0]; EvData [5; 0; 0; 1; 0; 0; 0; 0; 0; 0]] in
  fst (fst r) = Resolved tt
  /\ written (final r)
     = [[5; 2; 0; 2];
        [5; 1; 0; 3; 11] ++ utf8_encode (js "example.com") ++ [1; 187]]
  /\ chunks (final r) = [].
Proof. vm_compute. repeat split; reflexivity. Qed.

Example connectAsync_direct_error :
  let options := mkOptions (js "localhost") 40007 (Some 2000) None in
  let e := mkJsError ClsError (js "Error")
             (js "getaddrinfo ENOTFOUND localhost") [] in
  fst (fst (connectAsync (map ascii_lower) options constructor [EvError e]))
  = Rejected e.
Proof. vm_compute. reflexivity. Qed.

(* ================================================================== *)
(** ** The SOCKS5 connect request *)
(* ================================================================== *)

(** *** Checking every value of a range *)

Lemma range_from_In (n : nat) : forall start z,
  start <= z < start + Z.of_nat n -> In z (range_from start n).
Proof.
  induction n as [|k IH]; intros start z Hz; [lia|].
  cbn [range_from]. destruct (Z.eq_dec start z) as [->|Hne]; [left; reflexivity|].
  right. apply IH. lia.
Qed.

Lemma range_list_forallb (P : Z -> bool) (n : Z) :
  forallb P (range_list n) = true ->
  forall z, 0 <= z < n -> P z = true.
Proof.
  intros H z Hz. rewrite forallb_forall in H. apply H.
  apply range_from_In. lia.
Qed.

Lemma jsstring_eqb_eq (a b : list Z) : jsstring_eqb a b = true -> a = b.
Proof.
  revert b. induction a as [|x a IH]; intros [|y b] H; cbn in H;
    try discriminate; [reflexivity|].
  apply andb_true_iff in H. destruct H as [Hx Hr].
  apply Z.eqb_eq in Hx. apply IH in Hr. subst. reflexivity.
Qed.

Lemma socks5_port_bytes (port : Z) :
  0 <= port < 65536 -> socks5_port port = port_bytes port.
Proof.
  intros H. apply jsstring_eqb_eq.
  apply (range_list_forallb
           (fun p => jsstring_eqb (socks5_port p) (port_bytes p)) 65536).
  - vm_compute. reflexivity.
  - exact H.
Qed.

Lemma octet_facts (a : Z) :
  octet a ->
  decimal_value (Number_toString 10 a) = Some a
  /\ Matches Net.v4Seg (Number_toString 10 a)
  /\ forallb is_digit (Number_toString 10 a) = true.
Proof.
  intros H.
  assert (Hok : octet_ok a = true).
  { apply (range_list_forallb octet_ok 256); [vm_compute; reflexivity | exact H]. }
  unfold octet_ok in Hok. cbv zeta in Hok.
  apply andb_true_iff in Hok. destruct Hok as [Hok H3].
  apply andb_true_iff in Hok. destruct Hok as [H1 H2].
  split; [|split].
  - destruct (decimal_value _) as [v|]; [|discriminate].
    apply Z.eqb_eq in H1. subst. reflexivity.
  - apply matches_Matches. exact H2.
  - exact H3.
Qed.

(** Splitting what was joined. *)
Lemma split_no_sep (sep : Z) (s : jsstring) :
  forallb (fun c => negb (c =? sep)) s = true -> split sep s = [s].
Proof.
  induction s as [|c r IH]; intros H; [reflexivity|].
  cbn in H. apply andb_true_iff in H. destruct H as [Hc Hr].
  cbn [split]. destruct (c =? sep); [discriminate|].
  rewrite IH by assumption. reflexivity.
Qed.

Lemma split_app_sep (sep : Z) (s t : jsstring) :
  forallb (fun c => negb (c =? sep)) s = true ->
  split sep (s ++ sep :: t) = s :: split sep t.
Proof.
  induction s as [|c r IH]; intros H.
  - cbn. rewrite Z.eqb_refl. reflexivity.
  - cbn in H. apply andb_true_iff in H. destruct H as [Hc Hr].
    cbn [app split]. destruct (c =? sep); [discriminate|].
    rewrite IH by assumption. reflexivity.
Qed.

Lemma split_join (sep : Z) (parts : list jsstring) :
  parts <> [] ->
  forallb (fun p => forallb (fun c => negb (c =? sep)) p) parts = true ->
  split sep (join sep parts) = parts.
Proof.
  induction parts as [|p rest IH]; intros Hne H; [contradiction|].
  cbn in H. apply andb_true_iff in H. destruct H as [Hp Hr].
  destruct rest as [|q rest'].
  - cbn [join]. apply split_no_sep. exact Hp.
  - change (join sep (p :: q :: rest')) with (p ++ sep :: join sep (q :: rest')).
    rewrite split_app_sep by exact Hp. rewrite IH; [reflexivity|discriminate|exact Hr].
Qed.

(** *** IPv4 targets *)
Lemma Matches_Seq_eq a b s t w :
  Matches a s -> Matches b t -> w = s ++ t -> Matches (Seq a b) w.
Proof. intros Ha Hb ->. apply MSeq; assumption. Qed.

Lemma Matches_dot : Matches Net.dot [46].
Proof. apply MChr. reflexivity. Qed.

Lemma Matches_colon : Matches Net.colon [58].
Proof. apply MChr. reflexivity. Qed.

Lemma isIPv4_dotted_quad (a b c d : Z) :
  octet a -> octet b -> octet c -> octet d ->
  Net.isIPv4 (dotted_quad a b c d) = true.
Proof.
  intros Ha Hb Hc Hd.
  destruct (octet_facts a Ha) as (_ & Ma & _).
  destruct (octet_facts b Hb) as (_ & Mb & _).
  destruct (octet_facts c Hc) as (_ & Mc & _).
  destruct (octet_facts d Hd) as (_ & Md & _).
  unfold Net.isIPv4. apply matches_Matches.
  unfold Net.IPv4Reg, Net.v4Str, dotted_quad. cbn [rep map join].
  set (A := Number_toString 10 a) in *. set (B := Number_toString 10 b) in *.
  set (C := Number_toString 10 c) in *. set (D := Number_toString 10 d) in *.
  eapply Matches_Seq_eq; [|exact Md|].
  - eapply Matches_Seq_eq; [|eapply Matches_Seq_eq|].
    + eapply Matches_Seq_eq; [exact Ma|exact Matches_dot|reflexivity].
    + eapply Matches_Seq_eq; [exact Mb|exact Matches_dot|reflexivity].
    + eapply Matches_Seq_eq; [exact Mc|exact Matches_dot|reflexivity].
    + reflexivity.
    + reflexivity.
  - rewrite <- !app_assoc. reflexivity.
Qed.

Lemma digits_no_sep (sep : Z) (s : jsstring) :
  is_digit sep = false ->
  forallb is_digit s = true -> forallb (fun c => negb (c =? sep)) s = true.
Proof.
  intros Hsep H. rewrite forallb_forall in *. intros c Hc.
  specialize (H c Hc). destruct (Z.eqb_spec c sep); [congruence|reflexivity].
Qed.

Lemma socks5_target_info_ipv4 (a b c d port : Z) :
  octet a -> octet b -> octet c -> octet d -> 0 <= port < 65536 ->
  socks5_target_info (dotted_quad a b c d) port
  = Ok (request_spec (TIPv4 a b c d) port).
Proof.
  intros Ha Hb Hc Hd Hp. unfold socks5_target_info, Net.isIP.
  rewrite isIPv4_dotted_quad by assumption. cbn [Z.eqb Pos.eqb].
  rewrite socks5_port_bytes by assumption.
  destruct (octet_facts a Ha) as (Va & _ & Da).
  destruct (octet_facts b Hb) as (Vb & _ & Db).
  destruct (octet_facts c Hc) as (Vc & _ & Dc).
  destruct (octet_facts d Hd) as (Vd & _ & Dd).
  unfold dotted_quad. rewrite split_join.
  - cbn [map Buffer_from_strings]. rewrite Va, Vb, Vc, Vd.
    unfold octet in *. rewrite !Z.mod_small by lia. reflexivity.
  - discriminate.
  - cbn [map forallb].
    rewrite !(digits_no_sep 46) by (assumption || reflexivity). reflexivity.
Qed.

(** *** IPv6 targets in full form *)
Lemma unhex_range (c x : Z) : unhex c = Some x -> 0 <= x < 16.
Proof.
  unfold unhex. intros H.
  destruct (Z.leb_spec 48 c), (Z.leb_spec c 57); cbn [andb] in H;
    try (inversion H; lia);
  destruct (Z.leb_spec 97 c), (Z.leb_spec c 102); cbn [andb] in H;
    try (inversion H; lia);
  destruct (Z.leb_spec 65 c), (Z.leb_spec c 70); cbn [andb] in H;
    try (inversion H; lia).
Qed.

Lemma is_hex_unhex (c : Z) :
  is_hex c = true -> exists x, unhex c = Some x /\ 0 <= x < 16.
Proof.
  unfold is_hex. destruct (unhex c) as [x|] eqn:E; [|discriminate].
  intros _. exists x. split; [reflexivity | eapply unhex_range; eassumption].
Qed.

(** The shapes of a group of one to four hexadecimal digits. *)
Lemma is_hex_group_cases (g : jsstring) :
  is_hex_group g = true ->
  (exists a, g = [a] /\ is_hex a = true)
  \/ (exists a b, g = [a; b] /\ is_hex a = true /\ is_hex b = true)
  \/ (exists a b c, g = [a; b; c]
        /\ is_hex a = true /\ is_hex b = true /\ is_hex c = true)
  \/ (exists a b c d, g = [a; b; c; d]
        /\ is_hex a = true /\ is_hex b = true /\ is_hex c = true
        /\ is_hex d = true).
Proof.
  unfold is_hex_group, len. intros H.
  apply andb_true_iff in H. destruct H as [H Hall].
  apply andb_true_iff in H. destruct H as [Hlo Hhi].
  apply Z.leb_le in Hlo, Hhi.
  destruct g as [|a [|b [|c [|d [|e r]]]]]; cbn [List.length] in *; try lia;
    cbn [forallb] in Hall;
    repeat match goal with
           | H : _ && _ = true |- _ => apply andb_true_iff in H; destruct H
           end.
  - left. eauto.
  - right. left. eauto 6.
  - right. right. left. eauto 8.
  - right. right. right. eauto 10.
Qed.

Lemma matches_one_to_four (p : Z -> bool) (g : jsstring) :
  (1 <= List.length g <= 4)%nat -> forallb p g = true ->
  matches (rep_range 1 4 (Chr p)) g = true.
Proof.
  intros Hl Hp.
  destruct g as [|a [|b [|c [|d [|e r]]]]]; cbn [List.length] in Hl; try lia;
    cbn [forallb] in Hp;
    repeat match goal with
           | H : _ && _ = true |- _ => apply andb_true_iff in H; destruct H
           end;
    cbn;
    repeat match goal with
           | H : p _ = true |- _ => rewrite H; clear H; cbn
           end; reflexivity.
Qed.

Lemma Matches_v6Seg (g : jsstring) : is_hex_group g = true -> Matches Net.v6Seg g.
Proof.
  unfold is_hex_group, len. intros H.
  apply andb_true_iff in H. destruct H as [H Hall].
  apply andb_true_iff in H. destruct H as [Hlo Hhi].
  apply Z.leb_le in Hlo, Hhi.
  apply matches_Matches. apply matches_one_to_four; [lia | exact Hall].
Qed.

Lemma hex_group_no_colon (g : jsstring) :
  is_hex_group g = true -> forallb (fun c => negb (c =? 58)) g = true.
Proof.
  unfold is_hex_group. intros H. apply andb_true_iff in H. destruct H as [_ H].
  rewrite forallb_forall in *. intros c Hc. specialize (H c Hc).
  destruct (Z.eqb_spec c 58) as [->|]; [discriminate H | reflexivity].
Qed.

Lemma socks5_ipv6_group_value (g : jsstring) :
  is_hex_group g = true ->
  socks5_ipv6_group g = Ok [group_value g / 256; group_value g mod 256].
Proof.
  intros H.
  destruct (is_hex_group_cases g H)
    as [(a & -> & Ha)|[(a & b & -> & Ha & Hb)|[(a & b & c & -> & Ha & Hb & Hc)
       |(a & b & c & d & -> & Ha & Hb & Hc & Hd)]]];
    clear H;
    repeat match goal with
           | H : is_hex _ = true |- _ =>
               apply is_hex_unhex in H; destruct H as (? & ? & ?)
           end;
    unfold socks5_ipv6_group, group_value;
    match goal with
    | |- context [Array_join ?n 48] =>
        let v := eval vm_compute in (Array_join n 48) in
        change (Array_join n 48) with v
    end;
    cbn [app hex_decode fold_left];
    change (unhex 48) with (Some 0);
    repeat match goal with
           | H : unhex _ = Some _ |- _ => rewrite H; clear H
           end;
    cbv iota beta;
    match goal with
    | |- Ok [?h; ?l] = Ok [?h'; ?l'] =>
        replace h' with h by (Z.to_euclidean_division_equations; lia);
        replace l' with l by (Z.to_euclidean_division_equations; lia)
    end;
    reflexivity.
Qed.

Lemma group_value_range (g : jsstring) :
  is_hex_group g = true -> 0 <= group_value g < 65536.
Proof.
  intros H.
  destruct (is_hex_group_cases g H)
    as [(a & -> & Ha)|[(a & b & -> & Ha & Hb)|[(a & b & c & -> & Ha & Hb & Hc)
       |(a & b & c & d & -> & Ha & Hb & Hc & Hd)]]];
    clear H;
    repeat match goal with
           | H : is_hex _ = true |- _ =>
               apply is_hex_unhex in H; destruct H as (? & ? & ?)
           end;
    unfold group_value; cbn [fold_left];
    repeat match goal with
           | H : unhex _ = Some _ |- _ => rewrite H; clear H
           end; lia.
Qed.

Lemma map_result_groups (gs : list jsstring) :
  forallb is_hex_group gs = true ->
  map_result socks5_ipv6_group gs
  = Ok (map (fun g => [group_value g / 256; group_value g mod 256]) gs).
Proof.
  induction gs as [|g r IH]; intros H; [reflexivity|].
  cbn [forallb] in H. apply andb_true_iff in H. destruct H as [Hg Hr].
  cbn [map_result map]. rewrite socks5_ipv6_group_value by exact Hg.
  rewrite IH by exact Hr. reflexivity.
Qed.

Lemma isIPv4_rejects_colon (s : jsstring) : In 58 s -> Net.isIPv4 s = false.
Proof.
  intros Hin. unfold Net.isIPv4.
  destruct (matches Net.IPv4Reg s) eqn:E; [|reflexivity].
  apply matches_Matches, Matches_accepts in E.
  rewrite Forall_forall in E. specialize (E 58 Hin).
  vm_compute in E. discriminate.
Qed.

Lemma isIP_full_form (gs : list jsstring) :
  List.length gs = 8%nat -> forallb is_hex_group gs = true ->
  Net.isIP (join 58 gs) = 6.
Proof.
  intros Hl Hall.
  destruct gs as [|g1 [|g2 [|g3 [|g4 [|g5 [|g6 [|g7 [|g8 [|g9 r]]]]]]]]];
    try discriminate Hl.
  cbn [forallb] in Hall.
  repeat match goal with
         | H : _ && _ = true |- _ => apply andb_true_iff in H; destruct H
         end.
  repeat match goal with
         | H : is_hex_group _ = true |- _ => apply Matches_v6Seg in H
         end.
  unfold Net.isIP. rewrite isIPv4_rejects_colon.
  2:{ cbn [join]. apply in_or_app. right. left. reflexivity. }
  assert (M : Net.isIPv6 (join 58 [g1; g2; g3; g4; g5; g6; g7; g8]) = true);
    [|rewrite M; reflexivity].
  unfold Net.isIPv6. apply matches_Matches.
  unfold Net.IPv6Reg, Net.v6Addr. cbn [alts rep join].
  replace (g1 ++ 58 :: g2 ++ 58 :: g3 ++ 58 :: g4 ++ 58 :: g5 ++ 58 :: g6
              ++ 58 :: g7 ++ 58 :: g8)
    with ((((g1 ++ [58]) ++ (g2 ++ [58]) ++ (g3 ++ [58]) ++ (g4 ++ [58])
             ++ (g5 ++ [58]) ++ (g6 ++ [58]) ++ (g7 ++ [58])) ++ g8) ++ [])
    by (rewrite app_nil_r, <- !app_assoc; reflexivity).
  apply MSeq; [|apply MAltR, MEps].
  apply MAltL. apply MSeq; [|apply MAltL; assumption].
  repeat apply MSeq; try exact Matches_colon; assumption.
Qed.

(** *** Domain names: UTF-8 there and back *)

Lemma utf8_run_lead_ascii (c : Z) (r : Buffer) :
  0 <= c < 128 -> utf8_run utf8_init (c :: r) = c :: utf8_run utf8_init r.
Proof.
  intros H. cbn [utf8_run utf8_step utf8_init u_need]. unfold utf8_lead.
  destruct (Z.leb_spec 0 c); [|lia]. destruct (Z.leb_spec c 127); [|lia].
  reflexivity.
Qed.

Lemma utf8_run_two (c : Z) (r : Buffer) :
  128 <= c < 2048 ->
  utf8_run utf8_init ((192 + c / 64) :: (128 + c mod 64) :: r)
  = c :: utf8_run utf8_init r.
Proof.
  intros H.
  assert (H1 : 2 <= c / 64 <= 31) by (Z.to_euclidean_division_equations; lia).
  assert (H2 : 0 <= c mod 64 <= 63) by (Z.to_euclidean_division_equations; lia).
  cbn [utf8_run utf8_step utf8_init u_need]. unfold utf8_lead.
  destruct (Z.leb_spec 0 (192 + c / 64)); [|lia].
  destruct (Z.leb_spec (192 + c / 64) 127); [lia|]. cbn [andb].
  destruct (Z.leb_spec 194 (192 + c / 64)); [|lia].
  destruct (Z.leb_spec (192 + c / 64) 223); [|lia]. cbn [andb].
  cbn [utf8_run utf8_step u_need u_lo u_hi u_cp app].
  destruct (Z.leb_spec 128 (128 + c mod 64)); [|lia].
  destruct (Z.leb_spec (128 + c mod 64) 191); [|lia]. cbn [andb].
  unfold utf16_units.
  replace ((192 + c / 64 - 192) * 64 + (128 + c mod 64 - 128)) with c
    by (Z.to_euclidean_division_equations; lia).
  destruct (Z.ltb_spec c 65536); [|lia]. reflexivity.
Qed.

Ltac decide_tests :=
  repeat (match goal with
          | |- context [?a <=? ?b] => destruct (Z.leb_spec a b)
          | |- context [?a <? ?b] => destruct (Z.ltb_spec a b)
          | |- context [?a =? ?b] => destruct (Z.eqb_spec a b)
          end; try (exfalso; lia); cbn [andb orb negb]).

Ltac utf8_go :=
  cbn [utf8_run utf8_step utf8_init u_need u_lo u_hi u_cp app];
  unfold utf8_lead; decide_tests;
  cbn [utf8_run utf8_step utf8_init u_need u_lo u_hi u_cp app].

Lemma utf8_run_three (c : Z) (r : Buffer) :
  2048 <= c < 65536 -> ~ (55296 <= c <= 57343) ->
  utf8_run utf8_init
    ((224 + c / 4096) :: (128 + (c / 64) mod 64) :: (128 + c mod 64) :: r)
  = c :: utf8_run utf8_init r.
Proof.
  intros H Hs.
  assert (H1 : 0 <= c / 4096 <= 15) by (Z.to_euclidean_division_equations; lia).
  assert (H2 : 0 <= (c / 64) mod 64 <= 63) by (Z.to_euclidean_division_equations; lia).
  assert (H3 : 0 <= c mod 64 <= 63) by (Z.to_euclidean_division_equations; lia).
  assert (H4 : c / 4096 = 0 -> 32 <= (c / 64) mod 64)
    by (Z.to_euclidean_division_equations; lia).
  assert (H5 : c / 4096 = 13 -> (c / 64) mod 64 <= 31)
    by (Z.to_euclidean_division_equations; lia).
  assert (H6 : (c / 4096 * 64 + (c / 64) mod 64) * 64 + c mod 64 = c)
    by (Z.to_euclidean_division_equations; lia).
  utf8_go; utf8_go; utf8_go; unfold utf16_units;
    match goal with
    | |- context [if ?x <? 65536 then _ else _] =>
        replace x with c by lia
    end;
    destruct (Z.ltb_spec c 65536); try lia; reflexivity.
Qed.

Lemma utf8_run_four (cp : Z) (r : Buffer) :
  65536 <= cp < 1114112 ->
  utf8_run utf8_init
    ((240 + cp / 262144) :: (128 + (cp / 4096) mod 64)
       :: (128 + (cp / 64) mod 64) :: (128 + cp mod 64) :: r)
  = utf16_units cp ++ utf8_run utf8_init r.
Proof.
  intros H.
  assert (H1 : 0 <= cp / 262144 <= 4) by (Z.to_euclidean_division_equations; lia).
  assert (H2 : 0 <= (cp / 4096) mod 64 <= 63) by (Z.to_euclidean_division_equations; lia).
  assert (H3 : 0 <= (cp / 64) mod 64 <= 63) by (Z.to_euclidean_division_equations; lia).
  assert (H4 : 0 <= cp mod 64 <= 63) by (Z.to_euclidean_division_equations; lia).
  assert (H5 : cp / 262144 = 0 -> 16 <= (cp / 4096) mod 64)
    by (Z.to_euclidean_division_equations; lia).
  assert (H6 : cp / 262144 = 4 -> (cp / 4096) mod 64 <= 15)
    by (Z.to_euclidean_division_equations; lia).
  assert (H7 : ((cp / 262144 * 64 + (cp / 4096) mod 64) * 64
                + (cp / 64) mod 64) * 64 + cp mod 64 = cp)
    by (Z.to_euclidean_division_equations; lia).
  utf8_go; utf8_go; utf8_go; utf8_go;
    match goal with
    | |- utf16_units ?x ++ _ = _ => replace x with cp by lia
    end; reflexivity.
Qed.

Lemma utf8_round_trip_upto (n : nat) : forall s : jsstring,
  (List.length s <= n)%nat -> well_formed s = true ->
  utf8_run utf8_init (utf8_encode s) = s.
Proof.
  induction n as [|n IH]; intros s Hn Hw.
  { destruct s; [reflexivity | cbn in Hn; lia]. }
  destruct s as [|c r]; [reflexivity|].
  cbn [List.length] in Hn. cbn [well_formed] in Hw. cbn [utf8_encode].
  destruct (is_high_surrogate c) eqn:Hh.
  - (* a surrogate pair: four bytes *)
    unfold is_high_surrogate in Hh.
    apply andb_true_iff in Hh. destruct Hh as [Hc1 Hc2].
    apply Z.leb_le in Hc1, Hc2.
    destruct (Z.ltb_spec c 128); [lia|]. destruct (Z.ltb_spec c 2048); [lia|].
    destruct r as [|d r']; [discriminate|].
    apply andb_true_iff in Hw. destruct Hw as [Hd Hw].
    rewrite Hd. unfold is_low_surrogate in Hd.
    apply andb_true_iff in Hd. destruct Hd as [Hd1 Hd2].
    apply Z.leb_le in Hd1, Hd2.
    cbv zeta. rewrite utf8_run_four by lia.
    rewrite IH by (cbn [List.length] in Hn; auto; lia).
    unfold utf16_units.
    destruct (Z.ltb_spec (65536 + (c - 55296) * 1024 + (d - 56320)) 65536);
      [lia|].
    cbn [app]. f_equal; [|f_equal]; Z.to_euclidean_division_equations; lia.
  - repeat (apply andb_true_iff in Hw; destruct Hw as [Hw ?]).
    apply Z.leb_le in Hw.
    match goal with H : (c <? 65536) = true |- _ => apply Z.ltb_lt in H end.
    match goal with H : negb _ = true |- _ => apply negb_true_iff in H; rewrite H end.
    assert (Hs : ~ (55296 <= c <= 57343)).
    { unfold is_high_surrogate, is_low_surrogate in *.
      destruct (Z.leb_spec 55296 c), (Z.leb_spec c 56319),
               (Z.leb_spec 56320 c), (Z.leb_spec c 57343);
        cbn [andb] in *; try discriminate; lia. }
    destruct (Z.ltb_spec c 128).
    { rewrite utf8_run_lead_ascii by lia. rewrite IH by (auto; lia). reflexivity. }
    destruct (Z.ltb_spec c 2048).
    { rewrite utf8_run_two by lia. rewrite IH by (auto; lia). reflexivity. }
    rewrite utf8_run_three by lia. rewrite IH by (auto; lia). reflexivity.
Qed.

(** Decoding what was encoded gives the string back, when every surrogate
    of the string is half of a pair. *)
Lemma utf8_round_trip (s : jsstring) :
  well_formed s = true -> utf8_decode (utf8_encode s) = s.
Proof. intros H. apply (utf8_round_trip_upto (List.length s)); auto. Qed.

(** *** The request and its reading *)

Lemma parse_port_bytes (port : Z) : parse_port (port_bytes port) = Some port.
Proof.
  unfold parse_port, port_bytes. f_equal.
  Z.to_euclidean_division_equations; lia.
Qed.

Lemma socks5_target_info_domain (name : jsstring) (port : Z) :
  Net.isIP name = 0 -> len (utf8_encode name) <= 255 -> 0 <= port < 65536 ->
  socks5_target_info name port = Ok (request_spec (TDomain name) port).
Proof.
  intros Hip Hl Hp. unfold socks5_target_info. rewrite Hip.
  cbn [Z.eqb]. rewrite socks5_port_bytes by assumption.
  unfold request_spec, Buffer_concat, Buffer_from_array.
  cbn [List.concat map app].
  pose proof (len_nonneg (utf8_encode name)).
  rewrite !Z.mod_small by lia. rewrite app_nil_r. reflexivity.
Qed.

Lemma socks5_target_info_ipv6 (groups : list jsstring) (port : Z) :
  List.length groups = 8%nat -> forallb is_hex_group groups = true ->
  0 <= port < 65536 ->
  socks5_target_info (join 58 groups) port = Ok (request_spec (TIPv6 groups) port).
Proof.
  intros Hl Hall Hp. unfold socks5_target_info.
  rewrite isIP_full_form by assumption. cbn [Z.eqb Pos.eqb].
  rewrite socks5_port_bytes by assumption.
  rewrite split_join.
  - rewrite map_result_groups by assumption.
    unfold request_spec, Buffer_concat, Buffer_from_array.
    cbn [List.concat map app]. rewrite app_nil_r.
    rewrite flat_map_concat_map. reflexivity.
  - destruct groups; [discriminate|discriminate].
  - rewrite forallb_forall in *. intros g Hg. apply hex_group_no_colon. auto.
Qed.

Lemma firstn_app_exact {A} (l r : list A) : firstn (List.length l) (l ++ r) = l.
Proof.
  rewrite firstn_app, Nat.sub_diag, firstn_all. cbn. apply app_nil_r.
Qed.

Lemma skipn_app_exact {A} (l r : list A) : skipn (List.length l) (l ++ r) = r.
Proof.
  rewrite skipn_app, Nat.sub_diag, skipn_all. reflexivity.
Qed.

Lemma parse_request_spec (t : Target) (port : Z) :
  valid_target t -> 0 <= port < 65536 ->
  parse_request (request_spec t port) = Some (address_of t, port).
Proof.
  intros Hv Hp. destruct t as [a b c d|name|groups]; cbn [valid_target] in Hv.
  - cbn [request_spec app parse_request Z.eqb Pos.eqb andb].
    unfold with_port. rewrite parse_port_bytes. reflexivity.
  - destruct Hv as (_ & Hw & _).
    cbn [request_spec app parse_request Z.eqb Pos.eqb andb].
    unfold len. rewrite Nat2Z.id.
    rewrite firstn_app_exact, skipn_app_exact.
    unfold with_port. rewrite parse_port_bytes.
    rewrite utf8_round_trip by exact Hw. reflexivity.
  - destruct Hv as [Hl Hall].
    destruct groups as [|g1 [|g2 [|g3 [|g4 [|g5 [|g6 [|g7 [|g8 [|g9 r]]]]]]]]];
      try discriminate Hl.
    cbn [request_spec flat_map app parse_request Z.eqb Pos.eqb andb
         firstn skipn parse_groups address_of map].
    unfold with_port. rewrite parse_port_bytes.
    repeat match goal with
           | |- context [?v / 256 * 256 + ?v mod 256] =>
               replace (v / 256 * 256 + v mod 256) with v
                 by (Z.to_euclidean_division_equations; lia)
           end.
    reflexivity.
Qed.

Lemma socks5_target_info_spec (t : Target) (port : Z) :
  valid_target t -> 0 <= port < 65536 ->
  socks5_target_info (target_host t) port = Ok (request_spec t port).
Proof.
  intros Hv Hp. destruct t as [a b c d|name|groups]; cbn [valid_target target_host] in *.
  - destruct Hv as (Ha & Hb & Hc & Hd). apply socks5_target_info_ipv4; assumption.
  - destruct Hv as (Hip & _ & Hl). apply socks5_target_info_domain; assumption.
  - destruct Hv as (Hl & Hall). apply socks5_target_info_ipv6; assumption.
Qed.

(** C4, as the code has it -- For an IPv4 dotted quad, a domain name that
    is well-formed UTF-16 and at most 255 bytes long in UTF-8, or an IPv6
    address in full 8-group form, and a port below 65536, the connect
    request is [05 01 00 01], the 4 address bytes and the port in 2 bytes,
    big-endian; [05 01 00 03], the byte length of the domain, its bytes and
    the port; or [05 01 00 04], 16 bytes (2 for each group) and the port.
    Reading the request as a proxy does recovers the port and the address:
    the four octets, the domain string, or the values of the eight groups.
    So equal requests come from equal ports and addresses, and from the
    same host string when the host is an IPv4 address or a domain. *)
Theorem socks5_target_round_trip (t : Target) (port : Z) :
  valid_target t -> 0 <= port < 65536 ->
  socks5_target_info (target_host t) port = Ok (request_spec t port)
  /\ parse_request (request_spec t port) = Some (address_of t, port)
  /\ (forall t' port',
        valid_target t' -> 0 <= port' < 65536 ->
        request_spec t port = request_spec t' port' ->
        address_of t = address_of t' /\ port = port'
        /\ match t with
           | TIPv6 _ => True
           | _ => target_host t = target_host t'
           end).
Proof.
  intros Hv Hp. split; [apply socks5_target_info_spec; assumption|].
  split; [apply parse_request_spec; assumption|].
  intros t' port' Hv' Hp' Heq.
  pose proof (parse_request_spec t port Hv Hp) as P.
  pose proof (parse_request_spec t' port' Hv' Hp') as P'.
  rewrite Heq, P' in P. inversion P as [[Ha Hport]].
  split; [reflexivity|]. split; [reflexivity|].
  destruct t as [a b c d|name|groups]; [| |exact I];
    destruct t' as [a' b' c' d'|name'|groups']; cbn [address_of] in Ha;
    try discriminate Ha; inversion Ha; subst; reflexivity.
Qed.

Lemma socks5_target_round_trip_witness :
  socks5_target_info (js "1050:0:0:0:5:600:300c:326b") 443
  = Ok [5; 1; 0; 4; 16; 80; 0; 0; 0; 0; 0; 0; 0; 5; 6; 0; 48; 12; 50; 107; 1; 187]
  /\ parse_request
       [5; 1; 0; 4; 16; 80; 0; 0; 0; 0; 0; 0; 0; 5; 6; 0; 48; 12; 50; 107; 1; 187]
     = Some (AIPv6 [4176; 0; 0; 0; 5; 1536; 12300; 12907], 443).
Proof.
  destruct (socks5_target_round_trip
              (TIPv6 [js "1050"; js "0"; js "0"; js "0"; js "5"; js "600";
                      js "300c"; js "326b"]) 443) as (H1 & H2 & _).
  - split; vm_compute; reflexivity.
  - lia.
  - split; [exact H1 | exact H2].
Defined.

(** C4 as stated fails -- two IPv6 hosts in full form that
    differ in letter case and leading zeros have the same request, so no
    reading of it recovers the host; a domain of 256 bytes is written with
    the length byte 0 and its request cannot be read back; and a domain
    holding a lone surrogate has the request of the domain holding
    U+FFFD. *)
Lemma socks5_target_not_injective :
  (let h1 := js "1050:0:0:0:5:600:300c:326b" in
   let h2 := js "1050:0000:0000:0000:0005:0600:300C:326B" in
   Net.isIP h1 = 6 /\ Net.isIP h2 = 6 /\ h1 <> h2
   /\ socks5_target_info h1 443 = socks5_target_info h2 443)
  /\ (let host := repeat 97 256 in
      Net.isIP host = 0
      /\ socks5_target_info host 80
         = Ok ([5; 1; 0; 3; 0] ++ repeat 97 256 ++ [0; 80])
      /\ parse_request ([5; 1; 0; 3; 0] ++ repeat 97 256 ++ [0; 80]) = None)
  /\ (let h1 := [55296] in
      let h2 := [65533] in
      Net.isIP h1 = 0 /\ Net.isIP h2 = 0 /\ h1 <> h2
      /\ socks5_target_info h1 80 = socks5_target_info h2 80).
Proof.
  split; [|split].
  - cbv zeta. split; [vm_compute; reflexivity|]. split; [vm_compute; reflexivity|].
    split; [vm_compute; discriminate | vm_compute; reflexivity].
  - cbv zeta. split; [vm_compute; reflexivity|].
    split; vm_compute; reflexivity.
  - cbv zeta. split; [vm_compute; reflexivity|]. split; [vm_compute; reflexivity|].
    split; [discriminate | vm_compute; reflexivity].
Qed.

Example socks5_target_ipv4 :
  socks5_target_info (js "192.168.0.1") 1080
  = Ok [5; 1; 0; 1; 192; 168; 0; 1; 4; 56].
Proof. vm_compute. reflexivity. Qed.

Example socks5_target_ipv6_short :
  socks5_target_info (js "::1") 80 = Ok [5; 1; 0; 4; 0; 0; 0; 0; 0; 1; 0; 80].
Proof. vm_compute. reflexivity. Qed.

Example socks5_target_ipv6_mapped :
  socks5_target_info (js "::ffff:10.0.0.1") 80
  = Throw (mkJsError ClsError (js "RangeError") (js "Invalid array length") []).
Proof. vm_compute. reflexivity. Qed.

(* ================================================================== *)
(** ** Further properties: the listeners of the constructor *)
(* ================================================================== *)

Lemma chunks_on_event (ev : Event) (s : SocketAsync) :
  chunks (on_event ev s) = chunks s ++ data_of [ev].
Proof.
  destruct ev; cbn; unfold record_error; try destruct (error s); cbn;
    rewrite ?app_nil_r; reflexivity.
Qed.

Lemma data_of_app (a b : list Event) : data_of (a ++ b) = data_of a ++ data_of b.
Proof.
  induction a as [|ev r IH]; [reflexivity|].
  destruct ev; cbn; rewrite IH, ?app_assoc; reflexivity.
Qed.

Lemma chunks_deliver (evs : list Event) (s : SocketAsync) :
  chunks (deliver evs s) = chunks s ++ data_of evs.
Proof.
  revert s. induction evs as [|ev rest IH]; intros s.
  - cbn. rewrite app_nil_r. reflexivity.
  - unfold deliver in *. cbn [fold_left]. rewrite IH, chunks_on_event.
    change (ev :: rest) with ([ev] ++ rest).
    rewrite data_of_app, app_assoc. reflexivity.
Qed.

(** X1 -- No byte is lost and none is reordered: after any sequence of
    notifications, with or without a pending read, and also after the
    stream failed, the buffer is what it was followed by the data of the
    notifications, in order. *)
Theorem buffer_accumulates_data (evs : list Event) (s : SocketAsync) :
  chunks (deliver evs s) = chunks s ++ data_of evs
  /\ len (chunks (deliver evs s)) = len (chunks s) + len (data_of evs).
Proof.
  rewrite chunks_deliver. split; [reflexivity|].
  unfold len. rewrite length_app. lia.
Qed.

Lemma frame_on_event (ev : Event) (s : SocketAsync) :
  destroyed (on_event ev s) = destroyed s || destroys ev
  /\ timeout (on_event ev s) = timeout s
  /\ connects (on_event ev s) = connects s.
Proof.
  destruct ev; cbn; unfold record_error; destruct (error s); cbn;
    rewrite ?orb_false_r, ?orb_true_r; auto.
Qed.

Lemma destroyed_deliver (evs : list Event) (s : SocketAsync) :
  destroyed (deliver evs s) = destroyed s || existsb destroys evs.
Proof.
  revert s. induction evs as [|ev rest IH]; intros s.
  - cbn. rewrite orb_false_r. reflexivity.
  - unfold deliver in *. cbn [fold_left existsb].
    destruct (frame_on_event ev s) as (F1 & _).
    rewrite IH, F1, orb_assoc. reflexivity.
Qed.

Lemma timeout_deliver (evs : list Event) (s : SocketAsync) :
  timeout (deliver evs s) = timeout s.
Proof.
  revert s. induction evs as [|ev rest IH]; intros s; [reflexivity|].
  unfold deliver in *. cbn [fold_left].
  destruct (frame_on_event ev s) as (_ & F2 & _). rewrite IH. exact F2.
Qed.

Lemma connects_deliver (evs : list Event) (s : SocketAsync) :
  connects (deliver evs s) = connects s.
Proof.
  revert s. induction evs as [|ev rest IH]; intros s; [reflexivity|].
  unfold deliver in *. cbn [fold_left].
  destruct (frame_on_event ev s) as (_ & _ & F3). rewrite IH. exact F3.
Qed.

(** X2 -- The socket is destroyed by the listeners of the constructor
    exactly on [timeout], [error] and [end]; [close] and data never destroy
    it, and no notification changes the idle timeout, what was written or
    the connects asked for. *)
Theorem notifications_destroy (evs : list Event) (s : SocketAsync) :
  destroyed (deliver evs s) = destroyed s || existsb destroys evs
  /\ timeout (deliver evs s) = timeout s
  /\ written (deliver evs s) = written s
  /\ connects (deliver evs s) = connects s.
Proof.
  split; [apply destroyed_deliver|]. split; [apply timeout_deliver|].
  split; [apply written_deliver | apply connects_deliver].
Qed.

(* ================================================================== *)
(** ** Further properties: [readAsync] *)
(* ================================================================== *)

Lemma readAsync_wait_run cb old s evs o s1 evs1 :
  readAsync_wait cb old s evs = (o, s1, evs1) ->
  exists consumed,
    forallb passes_read consumed = true
    /\ (forall p d q, consumed = p ++ EvData d :: q -> q <> [] ->
          satisfied cb (chunks s ++ data_of p ++ d) = false)
    /\ match o with
       | Resolved b =>
           evs = consumed ++ evs1
           /\ (exists p d, consumed = p ++ [EvData d])
           /\ b = chunks s ++ data_of consumed
           /\ satisfied cb b = true
           /\ s1 = removeAllListeners old (deliver consumed s)
       | Rejected e =>
           exists ev, evs = consumed ++ ev :: evs1
             /\ terminal_error ev = Some e
             /\ s1 = removeAllListeners old (deliver (consumed ++ [ev]) s)
       | Pending =>
           evs = consumed /\ evs1 = []
           /\ (forall p d, consumed = p ++ [EvData d] ->
                 satisfied cb (chunks s ++ data_of p ++ d) = false)
           /\ s1 = deliver consumed s
       end.
Proof.
  revert s o s1 evs1.
  induction evs as [|ev rest IH]; intros s o s1 evs1 H; cbn [readAsync_wait] in H.
  - inversion H; subst. exists []. split; [reflexivity|]. split.
    { intros p d q E. destruct p; discriminate E. }
    repeat split. intros p d E. destruct p; discriminate E.
  - assert (Hc : forall data, chunks (on_event (EvData data) s) = chunks s ++ data).
    { intros data. cbn. rewrite app_nil_r. reflexivity. }
    assert (Hnil : forall p (d : Buffer) q, [] = p ++ EvData d :: q -> False).
    { intros p d q E. destruct p; discriminate E. }
    destruct ev as [|data| |e| |].
    + (* connect: not listened to *)
      apply IH in H. destruct H as (consumed & Hp & Hfirst & Hout).
      exists (EvConnect :: consumed). split; [exact Hp|]. split.
      { intros p d q E Hq. destruct p as [|x p]; [discriminate E|].
        inversion E; subst. cbn [data_of]. eapply Hfirst; eauto. }
      destruct o as [b|e|].
      * destruct Hout as (H1 & (p & d & H2) & H3 & H4 & H5).
        split; [cbn [app]; f_equal; exact H1|].
        split; [exists (EvConnect :: p), d; rewrite H2; reflexivity|].
        split; [exact H3|]. split; [exact H4|exact H5].
      * destruct Hout as (ev & H1 & H2 & H3). exists ev.
        split; [cbn [app]; f_equal; exact H1|]. split; [exact H2|exact H3].
      * destruct Hout as (H1 & H2 & H3 & H4).
        split; [f_equal; exact H1|]. split; [exact H2|]. split; [|exact H4].
        intros p d E. destruct p as [|x p]; [discriminate E|].
        inversion E; subst. cbn [data_of]. eapply H3; eauto.
    + (* data *)
      destruct (satisfied cb (chunks (on_event (EvData data) s))) eqn:Sat.
      * inversion H; subst. exists [EvData data]. split; [reflexivity|]. split.
        { intros p d q E Hq. destruct p as [|x p]; cbn in E; inversion E; subst.
          - contradiction.
          - destruct p; discriminate. }
        split; [reflexivity|]. split; [exists [], data; reflexivity|].
        split; [reflexivity|]. split; [exact Sat|reflexivity].
      * apply IH in H. destruct H as (consumed & Hp & Hfirst & Hout).
        rewrite Hc in Sat, Hfirst, Hout.
        exists (EvData data :: consumed). split; [exact Hp|]. split.
        { intros p d q E Hq. destruct p as [|x p].
          - inversion E; subst. exact Sat.
          - inversion E; subst. cbn [data_of]. rewrite <- app_assoc, app_assoc.
            eapply Hfirst; eauto. }
        destruct o as [b|e|].
        -- destruct Hout as (H1 & (p & d & H2) & H3 & H4 & H5).
           split; [cbn [app]; f_equal; exact H1|].
           split; [exists (EvData data :: p), d; rewrite H2; reflexivity|].
           split; [rewrite H3; cbn [data_of]; rewrite app_assoc; reflexivity|].
           split; [exact H4|exact H5].
        -- destruct Hout as (ev & H1 & H2 & H3). exists ev.
           split; [cbn [app]; f_equal; exact H1|]. split; [exact H2|exact H3].
        -- destruct Hout as (H1 & H2 & H3 & H4).
           split; [f_equal; exact H1|]. split; [exact H2|]. split; [|exact H4].
           intros p d E. destruct p as [|x p].
           ++ inversion E; subst. exact Sat.
           ++ inversion E; subst. cbn [data_of]. rewrite <- app_assoc, app_assoc.
              eapply H3; eauto.
    + inversion H; subst. exists []. split; [reflexivity|].
      split; [intros p d q E; exfalso; eapply Hnil; eauto|].
      exists EvTimeout. repeat split.
    + inversion H; subst. exists []. split; [reflexivity|].
      split; [intros p d q E; exfalso; eapply Hnil; eauto|].
      exists (EvError e). repeat split.
    + inversion H; subst. exists []. split; [reflexivity|].
      split; [intros p d q E; exfalso; eapply Hnil; eauto|].
      exists EvEnd. repeat split.
    + inversion H; subst. exists []. split; [reflexivity|].
      split; [intros p d q E; exfalso; eapply Hnil; eauto|].
      exists EvClose. repeat split.
Qed.


(** The socket with the per-call timeout of a read or connect set. *)
Lemma armed_fields (tmo : option Z) (s : SocketAsync) :
  let s1 := if truthy tmo then setTimeout (or_default tmo 0) s else s in
  chunks s1 = chunks s /\ error s1 = error s /\ destroyed s1 = destroyed s
  /\ written s1 = written s /\ connects s1 = connects s.
Proof. destruct (truthy tmo); cbn; auto. Qed.

Lemma chunks_deliver_armed (tmo : option Z) (evs : list Event) (s : SocketAsync) :
  chunks (deliver evs (if truthy tmo then setTimeout (or_default tmo 0) s else s))
  = chunks s ++ data_of evs.
Proof.
  rewrite chunks_deliver. destruct (armed_fields tmo s) as (H & _). cbv zeta in H.
  rewrite H. reflexivity.
Qed.

Lemma data_of_snoc (p : list Event) (d : Buffer) :
  data_of (p ++ [EvData d]) = data_of p ++ d.
Proof. rewrite data_of_app. cbn. rewrite app_nil_r. reflexivity. Qed.

Lemma readAsync_resolved_trace
    (cb : Callback) (tmo : option Z) (s : SocketAsync) (evs : list Event)
    (b : Buffer) (s1 : SocketAsync) (evs1 : list Event) :
  readAsync cb tmo s evs = (Resolved b, s1, evs1) ->
  exists consumed,
    evs = consumed ++ evs1
    /\ forallb passes_read consumed = true
    /\ b = chunks s ++ data_of consumed
    /\ chunks s1 = b
    /\ satisfied cb b = true
    /\ (consumed = [] -> chunks s <> [])
    /\ (consumed <> [] ->
        (exists p d, consumed = p ++ [EvData d])
        /\ (chunks s <> [] -> satisfied cb (chunks s) = false))
    /\ (forall p d q, consumed = p ++ EvData d :: q -> q <> [] ->
          satisfied cb (chunks s ++ data_of p ++ d) = false).
Proof.
  unfold readAsync. intros H.
  destruct (armed_fields tmo s) as (Hc & _). cbv zeta in Hc.
  set (s0 := if truthy tmo then setTimeout (or_default tmo 0) s else s) in *.
  assert (Hwait : readAsync_wait cb (timeout s) s0 evs = (Resolved b, s1, evs1) ->
          (chunks s <> [] -> satisfied cb (chunks s) = false) ->
          exists consumed,
            evs = consumed ++ evs1
            /\ forallb passes_read consumed = true
            /\ b = chunks s ++ data_of consumed
            /\ chunks s1 = b
            /\ satisfied cb b = true
            /\ (consumed = [] -> chunks s <> [])
            /\ (consumed <> [] ->
                (exists p d, consumed = p ++ [EvData d])
                /\ (chunks s <> [] -> satisfied cb (chunks s) = false))
            /\ (forall p d q, consumed = p ++ EvData d :: q -> q <> [] ->
                  satisfied cb (chunks s ++ data_of p ++ d) = false)).
  { intros Hw Hfirst. apply readAsync_wait_run in Hw.
    destruct Hw as (consumed & Hp & Hf & H1 & (p & d & H2) & H3 & H4 & H5).
    rewrite Hc in *.
    exists consumed. split; [exact H1|]. split; [exact Hp|]. split; [exact H3|].
    split.
    { rewrite H5, chunks_removeAllListeners. unfold s0.
      rewrite chunks_deliver_armed. symmetry. exact H3. }
    split; [exact H4|]. split.
    { intros ->. destruct p; discriminate H2. }
    split; [intros _; split; [exists p, d; exact H2 | exact Hfirst]|].
    exact Hf. }
  destruct (chunks s0) as [|x r] eqn:E.
  - apply Hwait; [exact H|]. rewrite <- Hc. intros Hne. contradiction.
  - destruct (satisfied cb (x :: r)) eqn:Sat.
    + inversion H; subst. exists []. rewrite app_nil_r.
      split; [reflexivity|]. split; [reflexivity|]. split; [congruence|].
      split; [rewrite chunks_removeAllListeners; exact E|].
      split; [exact Sat|]. split; [intros _; rewrite <- Hc; discriminate|].
      split; [intros Hne; contradiction|].
      intros p d q Hq. destruct p; discriminate Hq.
    + apply Hwait; [exact H|]. intros _. rewrite <- Hc. exact Sat.
Qed.

(** X3 -- A read resolves at the first moment its condition holds, with
    the whole buffer, which it leaves in place: the buffer at the call
    followed by the data of the notifications it consumed.  The condition
    is first tried at the call when the buffer is not empty, then after
    every data notification; no terminal notification came before, and the
    notifications after the resolving one are left for the next
    operation. *)
Theorem readAsync_resolves_at_first_match
    (cb : Callback) (tmo : option Z) (s : SocketAsync) (evs : list Event)
    (b : Buffer) (s1 : SocketAsync) (evs1 : list Event) :
  readAsync cb tmo s evs = (Resolved b, s1, evs1) ->
  exists consumed,
    evs = consumed ++ evs1
    /\ forallb passes_read consumed = true
    /\ b = chunks s ++ data_of consumed
    /\ chunks s1 = b
    /\ satisfied cb b = true
    /\ (consumed = [] -> chunks s <> [])
    /\ (consumed <> [] ->
        (exists p d, consumed = p ++ [EvData d])
        /\ (chunks s <> [] -> satisfied cb (chunks s) = false))
    /\ (forall p d q, consumed = p ++ EvData d :: q -> q <> [] ->
          satisfied cb (chunks s ++ data_of p ++ d) = false).
Proof. exact (readAsync_resolved_trace cb tmo s evs b s1 evs1). Qed.

Lemma readAsync_resolves_at_first_match_witness :
  exists consumed,
    [EvData [72]; EvConnect; EvData [105; 33]; EvData [0]]
    = consumed ++ [EvData [0]]
    /\ [10; 72; 105; 33] = [10] ++ data_of consumed.
Proof.
  destruct (readAsync_resolves_at_first_match
              (Predicate (fun b => 4 <=? len b)) (Some 50)
              (set_chunks [10] constructor)
              [EvData [72]; EvConnect; EvData [105; 33]; EvData [0]]
              [10; 72; 105; 33]
              (removeAllListeners None
                 (deliver [EvData [72]; EvConnect; EvData [105; 33]]
                    (setTimeout 50 (set_chunks [10] constructor))))
              [EvData [0]])
    as (consumed & H1 & _ & H3 & _).
  - reflexivity.
  - exists consumed. split; [exact H1 | exact H3].
Defined.

Lemma readAsync_rejected_trace
    (cb : Callback) (tmo : option Z) (s : SocketAsync) (evs : list Event)
    (e : JsError) (s1 : SocketAsync) (evs1 : list Event) :
  readAsync cb tmo s evs = (Rejected e, s1, evs1) ->
  exists consumed ev,
    evs = consumed ++ ev :: evs1
    /\ forallb passes_read consumed = true
    /\ terminal_error ev = Some e
    /\ chunks s1 = chunks s ++ data_of consumed
    /\ readAndClearAsync cb tmo s evs = (Rejected e, s1, evs1).
Proof.
  intros H.
  assert (Hclear : readAndClearAsync cb tmo s evs = (Rejected e, s1, evs1)).
  { unfold readAndClearAsync, readAndClearAsync_between, bind. rewrite H.
    reflexivity. }
  unfold readAsync in H.
  set (s0 := if truthy tmo then setTimeout (or_default tmo 0) s else s) in *.
  assert (Hw : readAsync_wait cb (timeout s) s0 evs = (Rejected e, s1, evs1)).
  { destruct (chunks s0); [exact H|].
    destruct (satisfied cb _); [discriminate H | exact H]. }
  apply readAsync_wait_run in Hw.
  destruct Hw as (consumed & Hp & _ & ev & H1 & H2 & H3).
  exists consumed, ev. split; [exact H1|]. split; [exact Hp|]. split; [exact H2|].
  split; [|exact Hclear].
  rewrite H3, chunks_removeAllListeners. unfold s0.
  rewrite chunks_deliver_armed, data_of_app.
  destruct ev; cbn in H2 |- *; try discriminate H2; rewrite !app_nil_r; reflexivity.
Qed.

(** X4 -- With timeouts that [net.Socket] accepts (the one given and the
    one of the socket), a read is rejected only by a terminal notification,
    the first one: with the stream's own error, or [ESOCKETTIMEOUT],
    [EENDFIN], [ESOCKETCLOSED].  The data that came before stays in the
    buffer, and [readAndClearAsync] is rejected in the same way without
    clearing it. *)
Theorem readAsync_rejected_by_first_terminal
    (cb : Callback) (tmo : option Z) (s : SocketAsync) (evs : list Event)
    (e : JsError) (s1 : SocketAsync) (evs1 : list Event) :
  accepted_timeout tmo = true ->
  accepted_timeout (timeout s) = true ->
  readAsync cb tmo s evs = (Rejected e, s1, evs1) ->
  exists consumed ev,
    evs = consumed ++ ev :: evs1
    /\ forallb passes_read consumed = true
    /\ terminal_error ev = Some e
    /\ chunks s1 = chunks s ++ data_of consumed
    /\ readAndClearAsync cb tmo s evs = (Rejected e, s1, evs1).
Proof. intros _ _. exact (readAsync_rejected_trace cb tmo s evs e s1 evs1). Qed.

Lemma readAsync_rejected_by_first_terminal_witness :
  exists consumed ev,
    [EvData [1; 2]; EvEnd; EvClose] = consumed ++ ev :: [EvClose]
    /\ terminal_error ev = Some (Error (js "EENDFIN")).
Proof.
  destruct (readAsync_rejected_by_first_terminal
              (Predicate (fun b => 4 <=? len b)) None constructor
              [EvData [1; 2]; EvEnd; EvClose] (Error (js "EENDFIN"))
              (removeAllListeners None (deliver [EvData [1; 2]; EvEnd] constructor))
              [EvClose])
    as (consumed & ev & H1 & _ & H3 & _).
  - reflexivity.
  - reflexivity.
  - reflexivity.
  - exists consumed, ev. split; [exact H1 | exact H3].
Defined.


Lemma timeout_removeAllListeners (old : option Z) (s : SocketAsync) :
  timeout (removeAllListeners old s)
  = if destroyed s then timeout s else Some (restored_timeout old).
Proof.
  unfold removeAllListeners, setTimeout. cbn [timeout].
  destruct (destroyed s); [reflexivity|].
  unfold restored_timeout, truthy.
  destruct old as [t|]; cbn; [|reflexivity].
  destruct (Z.eqb_spec t 0); cbn; congruence.
Qed.

Lemma timeout_armed (tmo : option Z) (s : SocketAsync) :
  let s0 := if truthy tmo then setTimeout (or_default tmo 0) s else s in
  timeout s0 = armed_timeout tmo s /\ destroyed s0 = destroyed s.
Proof.
  unfold armed_timeout, truthy, setTimeout.
  destruct tmo as [t|]; cbn; [|auto].
  destruct (t =? 0); cbn; [auto|]. destruct (destroyed s); cbn; auto.
Qed.

Lemma passes_do_not_destroy (consumed : list Event) :
  forallb passes_read consumed = true -> existsb destroys consumed = false.
Proof.
  induction consumed as [|ev r IH]; [reflexivity|]. cbn [forallb existsb].
  intros H. apply andb_true_iff in H. destruct H as [H1 H2].
  rewrite (IH H2). destruct ev; try discriminate H1; reflexivity.
Qed.

(** What a wait leaves of the timeout and of the [destroyed] flag. *)
Lemma readAsync_wait_timeout cb old s evs :
  let r := readAsync_wait cb old s evs in
  match outcome r with
  | Resolved _ =>
      destroyed (final r) = destroyed s
      /\ timeout (final r)
         = if destroyed s then timeout s else Some (restored_timeout old)
  | Rejected e =>
      (exists used ev,
         evs = used ++ ev :: pending_events r
         /\ terminal_error ev = Some e
         /\ destroyed (final r) = destroyed s || destroys ev)
      /\ timeout (final r)
         = if destroyed (final r) then timeout s
           else Some (restored_timeout old)
  | Pending =>
      destroyed (final r) = destroyed s /\ timeout (final r) = timeout s
  end.
Proof.
  cbv zeta. destruct (readAsync_wait cb old s evs) as [[o s1] evs1] eqn:E.
  apply readAsync_wait_run in E. destruct E as (consumed & Hp & _ & Hout).
  pose proof (passes_do_not_destroy _ Hp) as Hnd.
  unfold outcome, final, pending_events. cbn [fst snd].
  destruct o as [b|e|].
  - destruct Hout as (_ & _ & _ & _ & ->).
    rewrite timeout_removeAllListeners, timeout_deliver.
    change (destroyed (removeAllListeners old (deliver consumed s)))
      with (destroyed (deliver consumed s)).
    rewrite destroyed_deliver, Hnd, orb_false_r. auto.
  - destruct Hout as (ev & H1 & H2 & ->).
    rewrite timeout_removeAllListeners, timeout_deliver.
    change (destroyed (removeAllListeners old (deliver (consumed ++ [ev]) s)))
      with (destroyed (deliver (consumed ++ [ev]) s)).
    split; [|reflexivity].
    exists consumed, ev. split; [exact H1|]. split; [exact H2|].
    rewrite destroyed_deliver, existsb_app, Hnd. cbn [existsb orb].
    rewrite orb_false_r. reflexivity.
  - destruct Hout as (_ & _ & _ & ->).
    rewrite timeout_deliver, destroyed_deliver, Hnd, orb_false_r. auto.
Qed.

(** X5 -- The timeout of one read is undone only on a live socket (the
    timeouts being ones that [net.Socket] accepts).  A read that resolves
    on a socket that is not destroyed leaves the idle timeout as it was
    before the call, 0 when there was none.  A read rejected by [timeout],
    [error] or [end] finds the socket destroyed by the listeners of the
    constructor, which run first: [setTimeout] then does nothing, and the
    socket keeps the timeout of the call.  A pending read keeps it too. *)
Theorem readAsync_restores_timeout
    (cb : Callback) (tmo : option Z) (s : SocketAsync) (evs : list Event) :
  accepted_timeout tmo = true ->
  accepted_timeout (timeout s) = true ->
  let r := readAsync cb tmo s evs in
  match outcome r with
  | Resolved _ =>
      destroyed (final r) = destroyed s
      /\ timeout (final r)
         = if destroyed s then timeout s
           else Some (restored_timeout (timeout s))
  | Rejected e =>
      (exists used ev,
         evs = used ++ ev :: pending_events r
         /\ terminal_error ev = Some e
         /\ (destroyed s || destroys ev = true -> destroyed (final r) = true))
      /\ timeout (final r)
         = if destroyed (final r) then armed_timeout tmo s
           else Some (restored_timeout (timeout s))
  | Pending =>
      destroyed (final r) = destroyed s
      /\ timeout (final r) = armed_timeout tmo s
  end.
Proof.
  intros _ _ r. subst r. unfold readAsync.
  destruct (timeout_armed tmo s) as [H0 Hd]. cbv zeta in H0, Hd.
  set (s0 := if truthy tmo then setTimeout (or_default tmo 0) s else s) in *.
  assert (Harmed : destroyed s = true -> armed_timeout tmo s = timeout s).
  { intros H. unfold armed_timeout. rewrite H, andb_false_r. reflexivity. }
  assert (Hw : match outcome (readAsync_wait cb (timeout s) s0 evs) with
               | Resolved _ =>
                   destroyed (final (readAsync_wait cb (timeout s) s0 evs))
                   = destroyed s
                   /\ timeout (final (readAsync_wait cb (timeout s) s0 evs))
                      = if destroyed s then timeout s
                        else Some (restored_timeout (timeout s))
               | Rejected e =>
                   (exists used ev,
                      evs = used ++ ev
                            :: pending_events (readAsync_wait cb (timeout s) s0 evs)
                      /\ terminal_error ev = Some e
                      /\ (destroyed s || destroys ev = true ->
                          destroyed (final (readAsync_wait cb (timeout s) s0 evs))
                          = true))
                   /\ timeout (final (readAsync_wait cb (timeout s) s0 evs))
                      = if destroyed (final (readAsync_wait cb (timeout s) s0 evs))
                        then armed_timeout tmo s
                        else Some (restored_timeout (timeout s))
               | Pending =>
                   destroyed (final (readAsync_wait cb (timeout s) s0 evs))
                   = destroyed s
                   /\ timeout (final (readAsync_wait cb (timeout s) s0 evs))
                      = armed_timeout tmo s
               end).
  { pose proof (readAsync_wait_timeout cb (timeout s) s0 evs) as Hw.
    cbv zeta in Hw. rewrite H0, Hd in Hw.
    destruct (outcome (readAsync_wait cb (timeout s) s0 evs)) as [b|e|].
    - destruct Hw as [H1 H2]. split; [exact H1|]. rewrite H2.
      destruct (destroyed s) eqn:D; [apply Harmed; reflexivity | reflexivity].
    - destruct Hw as [(used & ev & H1 & H2 & H3) H4]. split; [|exact H4].
      exists used, ev. split; [exact H1|]. split; [exact H2|].
      intros H. rewrite H3. exact H.
    - exact Hw. }
  destruct (chunks s0); [exact Hw|].
  destruct (satisfied cb _); [|exact Hw].
  unfold outcome, final, pending_events. cbn [fst snd].
  change (destroyed (removeAllListeners (timeout s) s0)) with (destroyed s0).
  rewrite timeout_removeAllListeners, Hd, H0. split; [reflexivity|].
  destruct (destroyed s) eqn:D; [apply Harmed; reflexivity | reflexivity].
Qed.

Lemma readAsync_restores_timeout_witness :
  let r := readAsync NoCallback (Some 50) constructor [EvTimeout] in
  outcome r = Rejected (Error (js "ESOCKETTIMEOUT"))
  /\ destroyed (final r) = true
  /\ timeout (final r) = Some 50.
Proof.
  intros r.
  pose proof (readAsync_restores_timeout NoCallback (Some 50) constructor
                [EvTimeout] eq_refl eq_refl) as H.
  cbv zeta in H. fold r in H.
  change (outcome r) with (@Rejected Buffer (Error (js "ESOCKETTIMEOUT"))) in H.
  destruct H as [_ H].
  split; [reflexivity|]. split; [reflexivity|]. exact H.
Defined.

Lemma readAsync_pending_trace
    (cb : Callback) (tmo : option Z) (s : SocketAsync) (evs : list Event) :
  (outcome (readAsync cb tmo s evs) = Pending <->
   forallb passes_read evs = true
   /\ (chunks s <> [] -> satisfied cb (chunks s) = false)
   /\ (forall p d q, evs = p ++ EvData d :: q ->
         satisfied cb (chunks s ++ data_of p ++ d) = false))
  /\ (outcome (readAsync cb tmo s evs) = Pending ->
      pending_events (readAsync cb tmo s evs) = []
      /\ chunks (final (readAsync cb tmo s evs)) = chunks s ++ data_of evs).
Proof.
  destruct (readAsync cb tmo s evs) as [[o s1] evs1] eqn:E.
  unfold outcome, pending_events, final. cbn [fst snd].
  assert (Hpend : o = Pending ->
            forallb passes_read evs = true
            /\ (chunks s <> [] -> satisfied cb (chunks s) = false)
            /\ (forall p d q, evs = p ++ EvData d :: q ->
                  satisfied cb (chunks s ++ data_of p ++ d) = false)
            /\ evs1 = [] /\ chunks s1 = chunks s ++ data_of evs).
  { intros ->. unfold readAsync in E.
    destruct (armed_fields tmo s) as (Hc & _). cbv zeta in Hc.
    set (s0 := if truthy tmo then setTimeout (or_default tmo 0) s else s) in *.
    assert (Hw : readAsync_wait cb (timeout s) s0 evs = (Pending, s1, evs1)
                 /\ (chunks s <> [] -> satisfied cb (chunks s) = false)).
    { rewrite <- Hc. destruct (chunks s0) as [|x r]; [split; [exact E|contradiction]|].
      destruct (satisfied cb (x :: r)); [discriminate E|]. split; [exact E|reflexivity]. }
    destruct Hw as [Hw Hfirst]. apply readAsync_wait_run in Hw.
    destruct Hw as (consumed & Hp & Hf & -> & -> & H3 & ->).
    rewrite Hc in *. split; [exact Hp|]. split; [exact Hfirst|]. split.
    { intros p d q Hq. destruct q as [|x q].
      - apply H3. exact Hq.
      - eapply Hf; [exact Hq | discriminate]. }
    split; [reflexivity|]. unfold s0. apply chunks_deliver_armed. }
  split; [split|].
  - intros Ho. destruct (Hpend Ho) as (H1 & H2 & H3 & _). auto.
  - intros (Hp & Hfirst & Hnever). destruct o as [b|e|]; [| |reflexivity]; exfalso.
    + apply readAsync_resolved_trace in E.
      destruct E as (consumed & H1 & _ & H3 & _ & H5 & H6 & H7 & _).
      destruct consumed as [|x c'].
      * rewrite app_nil_r in H3. subst b.
        rewrite Hfirst in H5 by (apply H6; reflexivity). discriminate.
      * destruct H7 as [(p & d & H7) _]; [discriminate|].
        rewrite H7, <- app_assoc in H1. cbn [app] in H1.
        rewrite H3, H7, data_of_snoc in H5.
        rewrite (Hnever _ _ _ H1) in H5. discriminate.
    + apply readAsync_rejected_trace in E.
      destruct E as (consumed & ev & H1 & _ & H3 & _).
      rewrite H1, forallb_app in Hp. apply andb_true_iff in Hp.
      destruct Hp as [_ Hp]. cbn [forallb] in Hp.
      destruct ev; cbn in H3, Hp; discriminate.
  - intros Ho. destruct (Hpend Ho) as (_ & _ & _ & H4 & H5). auto.
Qed.

(** X6 -- With timeouts that [net.Socket] accepts, a read stays pending
    exactly when no terminal notification comes and its condition holds at
    none of the moments it is tried: at the call on a buffer that is not
    empty, and after each data notification.  It has then consumed every
    notification, and the buffer holds all their data. *)
Theorem readAsync_pending_iff
    (cb : Callback) (tmo : option Z) (s : SocketAsync) (evs : list Event) :
  accepted_timeout tmo = true ->
  accepted_timeout (timeout s) = true ->
  (outcome (readAsync cb tmo s evs) = Pending <->
   forallb passes_read evs = true
   /\ (chunks s <> [] -> satisfied cb (chunks s) = false)
   /\ (forall p d q, evs = p ++ EvData d :: q ->
         satisfied cb (chunks s ++ data_of p ++ d) = false))
  /\ (outcome (readAsync cb tmo s evs) = Pending ->
      pending_events (readAsync cb tmo s evs) = []
      /\ chunks (final (readAsync cb tmo s evs)) = chunks s ++ data_of evs).
Proof. intros _ _. exact (readAsync_pending_trace cb tmo s evs). Qed.

Lemma readAsync_pending_iff_witness :
  let r := readAsync (Predicate (fun b => 4 <=? len b)) (Some 50) constructor
             [EvData [1; 2]; EvConnect] in
  outcome r = Pending /\ chunks (final r) = [1; 2].
Proof.
  intros r.
  destruct (readAsync_pending_iff (Predicate (fun b => 4 <=? len b)) (Some 50)
              constructor [EvData [1; 2]; EvConnect] eq_refl eq_refl)
    as [_ H].
  destruct (H eq_refl) as [_ H2]. split; [reflexivity | exact H2].
Defined.

(** X7 -- A callback that is truthy but not a function (a falsy one
    counts as no callback) never lets a read resolve: with timeouts that
    [net.Socket] accepts, the read stays pending exactly when no terminal
    notification comes, and is otherwise rejected. *)
Theorem readAsync_not_a_function
    (tmo : option Z) (s : SocketAsync) (evs : list Event) :
  accepted_timeout tmo = true ->
  accepted_timeout (timeout s) = true ->
  (forall b, outcome (readAsync NotAFunction tmo s evs) <> Resolved b)
  /\ (outcome (readAsync NotAFunction tmo s evs) = Pending <->
      forallb passes_read evs = true).
Proof.
  intros _ _. split.
  - intros b Ho.
    destruct (readAsync NotAFunction tmo s evs) as [[o s1] evs1] eqn:E.
    unfold outcome in Ho. cbn [fst] in Ho. subst o.
    apply readAsync_resolved_trace in E.
    destruct E as (_ & _ & _ & _ & _ & H & _). discriminate H.
  - destruct (readAsync_pending_trace NotAFunction tmo s evs) as [Hiff _].
    rewrite Hiff. split; [tauto|]. intros H. repeat split; auto.
Qed.

Lemma readAsync_not_a_function_witness :
  outcome (readAsync NotAFunction None (set_chunks [1] constructor)
             [EvData [2]; EvConnect; EvData [3]]) = Pending.
Proof.
  destruct (readAsync_not_a_function None (set_chunks [1] constructor)
              [EvData [2]; EvConnect; EvData [3]] eq_refl eq_refl) as [_ [_ H]].
  apply H. reflexivity.
Defined.

(** X8 -- Bytes that came while no read was pending are not lost: with
    timeouts that [net.Socket] accepts, a read without a callback on a
    buffer that is not empty returns the buffer at once and consumes no
    notification, and [readAndClearAsync] then leaves the buffer empty. *)
Theorem readAndClearAsync_returns_buffered
    (tmo : option Z) (s : SocketAsync) (evs0 evs : list Event) :
  accepted_timeout tmo = true ->
  accepted_timeout (timeout s) = true ->
  chunks s ++ data_of evs0 <> [] ->
  let s0 := deliver evs0 s in
  outcome (readAsync NoCallback tmo s0 evs) = Resolved (chunks s ++ data_of evs0)
  /\ outcome (readAndClearAsync NoCallback tmo s0 evs)
     = Resolved (chunks s ++ data_of evs0)
  /\ pending_events (readAndClearAsync NoCallback tmo s0 evs) = evs
  /\ chunks (final (readAndClearAsync NoCallback tmo s0 evs)) = [].
Proof.
  intros _ _ Hne s0.
  assert (Hc : chunks s0 = chunks s ++ data_of evs0) by apply chunks_deliver.
  assert (Hr : readAsync NoCallback tmo s0 evs
               = (Resolved (chunks s ++ data_of evs0),
                  removeAllListeners (timeout s0)
                    (if truthy tmo then setTimeout (or_default tmo 0) s0 else s0),
                  evs)).
  { unfold readAsync. destruct (armed_fields tmo s0) as (Ha & _). cbv zeta in Ha.
    rewrite Ha, Hc. destruct (chunks s ++ data_of evs0); [contradiction|].
    reflexivity. }
  split; [rewrite Hr; reflexivity|].
  unfold readAndClearAsync, readAndClearAsync_between, bind, call, ret.
  rewrite Hr. unfold outcome, pending_events, final. cbn [fst snd deliver fold_left].
  split; [reflexivity|]. split; [reflexivity|].
  apply spliceChunks_all.
Qed.

Lemma readAndClearAsync_returns_buffered_witness :
  outcome (readAndClearAsync NoCallback None
             (deliver [EvData [1]; EvData [2; 3]] constructor) [EvClose])
  = Resolved [1; 2; 3].
Proof.
  destruct (readAndClearAsync_returns_buffered None constructor
              [EvData [1]; EvData [2; 3]] [EvClose]) as (_ & H & _).
  - reflexivity.
  - reflexivity.
  - discriminate.
  - exact H.
Defined.

(** X9 -- Reads in sequence do not share bytes: on an empty buffer and
    with timeouts that [net.Socket] accepts, two calls of
    [readAndClearAsync] without a callback, one awaited after the other,
    return the data of the first and of the second data notification, and
    leave the buffer empty and the later notifications in place. *)
Theorem readAndClearAsync_in_sequence
    (tmo1 tmo2 : option Z) (s : SocketAsync) (d1 d2 : Buffer)
    (rest : list Event) :
  accepted_timeout tmo1 = true ->
  accepted_timeout tmo2 = true ->
  accepted_timeout (timeout s) = true ->
  chunks s = [] ->
  let r := (a <- readAndClearAsync NoCallback tmo1 ;;
            b <- readAndClearAsync NoCallback tmo2 ;;
            ret (a, b)) s (EvData d1 :: EvData d2 :: rest) in
  outcome r = Resolved (d1, d2)
  /\ pending_events r = rest
  /\ chunks (final r) = [].
Proof.
  intros _ _ _ Hs r.
  assert (Hone : forall tmo s d rest, chunks s = [] ->
            exists s', readAndClearAsync NoCallback tmo s (EvData d :: rest)
                       = (Resolved d, s', rest) /\ chunks s' = []).
  { clear. intros tmo s d rest Hs. eexists.
    unfold readAndClearAsync, readAndClearAsync_between, bind, call, ret, readAsync.
    destruct (armed_fields tmo s) as (Ha & _). cbv zeta in Ha.
    rewrite Ha, Hs. cbn [readAsync_wait satisfied].
    cbn [on_event chunks set_chunks Buffer_concat List.concat deliver fold_left
         removeAllListeners setTimeout].
    rewrite Ha, Hs. cbn [app]. rewrite app_nil_r.
    split; [reflexivity|]. apply spliceChunks_all. }
  destruct (Hone tmo1 s d1 (EvData d2 :: rest) Hs) as (s1 & E1 & H1).
  destruct (Hone tmo2 s1 d2 rest H1) as (s2 & E2 & H2).
  assert (E : r = (Resolved (d1, d2), s2, rest)).
  { subst r. unfold bind at 1. rewrite E1. unfold bind at 1. rewrite E2.
    reflexivity. }
  rewrite E. unfold outcome, pending_events, final. cbn [fst snd].
  split; [reflexivity|]. split; [reflexivity|exact H2].
Qed.

Lemma readAndClearAsync_in_sequence_witness :
  outcome ((a <- readAndClearAsync NoCallback (Some 10) ;;
            b <- readAndClearAsync NoCallback None ;;
            ret (a, b)) constructor [EvData [5; 0]; EvData [5; 0; 0; 1]; EvEnd])
  = Resolved ([5; 0], [5; 0; 0; 1]).
Proof.
  destruct (readAndClearAsync_in_sequence (Some 10) None constructor
              [5; 0] [5; 0; 0; 1] [EvEnd]) as (H & _).
  - reflexivity.
  - reflexivity.
  - reflexivity.
  - reflexivity.
  - exact H.
Defined.


(* ================================================================== *)
(** ** Further properties: [spliceChunks] with any indices *)
(* ================================================================== *)

Lemma clamp_index_range (n i : Z) : 0 <= n -> 0 <= clamp_index n i <= n.
Proof. unfold clamp_index. destruct (Z.ltb_spec i 0); lia. Qed.

Lemma subarray_slice (X : Buffer) (a b : Z) :
  subarray X a b = slice X (clamp_index (len X) a) (clamp_index (len X) b).
Proof.
  unfold subarray, slice.
  destruct (Z.max_spec (clamp_index (len X) b - clamp_index (len X) a) 0)
    as [[H ->]|[H ->]]; [|reflexivity].
  replace (Z.to_nat (clamp_index (len X) b - clamp_index (len X) a)) with 0%nat
    by lia. reflexivity.
Qed.

Lemma spliceChunks_parts (sk : SocketAsync) (start stop : option Z) :
  let X := chunks sk in
  let lo := clamp_index (len X) (or_default start 0) in
  let hi := clamp_index (len X) (or_default stop (len X)) in
  fst (spliceChunks start stop sk) = slice X lo hi
  /\ chunks (snd (spliceChunks start stop sk))
     = firstn (Z.to_nat lo) X ++ skipn (Z.to_nat hi) X.
Proof.
  intros X lo hi. unfold spliceChunks. cbn [fst snd chunks set_chunks].
  fold X. pose proof (len_nonneg X) as Hn.
  pose proof (clamp_index_range (len X) (or_default start 0) Hn) as Hlo.
  pose proof (clamp_index_range (len X) (or_default stop (len X)) Hn) as Hhi.
  fold lo in Hlo. fold hi in Hhi.
  rewrite !subarray_slice. fold lo hi.
  assert (H0 : clamp_index (len X) 0 = 0) by (unfold clamp_index; cbn; lia).
  assert (H1 : clamp_index (len X) (len X) = len X).
  { unfold clamp_index. destruct (Z.ltb_spec (len X) 0); lia. }
  rewrite H0, H1. split; [reflexivity|].
  unfold Buffer_concat. cbn [List.concat]. rewrite app_nil_r.
  rewrite slice_prefix by lia. rewrite slice_suffix by lia. reflexivity.
Qed.

(** X10 -- [spliceChunks] with any indices, given or defaulted: a negative
    index counts from the end and an index outside the buffer is clamped to
    it.  When the clamped start is not after the clamped end, the range
    between them is returned and removed, and nothing else changes:
    putting the result back between the two parts left gives the old
    buffer. *)
Theorem spliceChunks_clamped (sk : SocketAsync) (start stop : option Z) :
  let X := chunks sk in
  let lo := clamp_index (len X) (or_default start 0) in
  let hi := clamp_index (len X) (or_default stop (len X)) in
  let result := fst (spliceChunks start stop sk) in
  let sk' := snd (spliceChunks start stop sk) in
  lo <= hi ->
  0 <= lo /\ hi <= len X
  /\ result = slice X lo hi
  /\ chunks sk' = firstn (Z.to_nat lo) X ++ skipn (Z.to_nat hi) X
  /\ firstn (Z.to_nat lo) X ++ result ++ skipn (Z.to_nat hi) X = X
  /\ len result = hi - lo
  /\ len (chunks sk') = len X - (hi - lo).
Proof.
  intros X lo hi result sk' Hle.
  pose proof (len_nonneg X) as Hn.
  pose proof (clamp_index_range (len X) (or_default start 0) Hn) as Hlo.
  pose proof (clamp_index_range (len X) (or_default stop (len X)) Hn) as Hhi.
  fold lo in Hlo. fold hi in Hhi.
  destruct (spliceChunks_parts sk start stop) as [H1 H2].
  cbv zeta in H1, H2. fold X lo hi result sk' in H1, H2.
  split; [lia|]. split; [lia|]. split; [exact H1|]. split; [exact H2|].
  assert (Hglue : firstn (Z.to_nat lo) X ++ result ++ skipn (Z.to_nat hi) X = X).
  { rewrite H1. apply slice_glue; lia. }
  split; [exact Hglue|].
  assert (Hr : len result = hi - lo).
  { rewrite H1. unfold slice, len in *.
    rewrite length_firstn, length_skipn. lia. }
  split; [exact Hr|].
  rewrite H2. unfold len in *. rewrite length_app, length_firstn, length_skipn. lia.
Qed.

Lemma spliceChunks_clamped_witness :
  let sk := set_chunks [10; 20; 30; 40; 50] constructor in
  fst (spliceChunks (Some (-2)) None sk) = [40; 50]
  /\ chunks (snd (spliceChunks (Some (-2)) None sk)) = [10; 20; 30].
Proof.
  intros sk.
  destruct (spliceChunks_clamped sk (Some (-2)) None) as (_ & _ & H1 & H2 & _).
  - vm_compute. discriminate.
  - split; [exact H1 | exact H2].
Defined.

(** X11 -- A range given backwards is not refused: when the clamped start
    is after the clamped end, [spliceChunks] returns nothing, and the new
    buffer is the bytes before the start followed by the bytes from the
    end on, so the bytes between end and start are in it twice and the
    buffer is longer than before. *)
Theorem spliceChunks_backwards (sk : SocketAsync) (start stop : option Z) :
  let X := chunks sk in
  let lo := clamp_index (len X) (or_default start 0) in
  let hi := clamp_index (len X) (or_default stop (len X)) in
  let result := fst (spliceChunks start stop sk) in
  let sk' := snd (spliceChunks start stop sk) in
  hi < lo ->
  result = []
  /\ chunks sk' = firstn (Z.to_nat lo) X ++ skipn (Z.to_nat hi) X
  /\ chunks sk' = firstn (Z.to_nat hi) X ++ slice X hi lo ++ slice X hi lo
                  ++ skipn (Z.to_nat lo) X
  /\ len (chunks sk') = len X + (lo - hi).
Proof.
  intros X lo hi result sk' Hlt.
  pose proof (len_nonneg X) as Hn.
  pose proof (clamp_index_range (len X) (or_default start 0) Hn) as Hlo.
  pose proof (clamp_index_range (len X) (or_default stop (len X)) Hn) as Hhi.
  fold lo in Hlo. fold hi in Hhi.
  destruct (spliceChunks_parts sk start stop) as [H1 H2].
  cbv zeta in H1, H2. fold X lo hi result sk' in H1, H2.
  split.
  { rewrite H1. unfold slice. replace (Z.to_nat (hi - lo)) with 0%nat by lia.
    reflexivity. }
  split; [exact H2|].
  assert (Hfirst : firstn (Z.to_nat lo) X = firstn (Z.to_nat hi) X ++ slice X hi lo).
  { unfold slice.
    rewrite <- (firstn_skipn (Z.to_nat hi) (firstn (Z.to_nat lo) X)) at 1.
    rewrite firstn_firstn, skipn_firstn_comm.
    replace (Nat.min (Z.to_nat hi) (Z.to_nat lo)) with (Z.to_nat hi) by lia.
    replace (Z.to_nat lo - Z.to_nat hi)%nat with (Z.to_nat (lo - hi)) by lia.
    reflexivity. }
  assert (Hskip : skipn (Z.to_nat hi) X = slice X hi lo ++ skipn (Z.to_nat lo) X).
  { unfold slice.
    replace (Z.to_nat lo) with (Z.to_nat (lo - hi) + Z.to_nat hi)%nat by lia.
    rewrite <- skipn_skipn.
    symmetry. apply firstn_skipn. }
  split.
  { rewrite H2, Hfirst, Hskip, <- !app_assoc. reflexivity. }
  rewrite H2. unfold len in *. rewrite length_app, length_firstn, length_skipn. lia.
Qed.

Lemma spliceChunks_backwards_witness :
  let sk := set_chunks [10; 20; 30; 40; 50] constructor in
  fst (spliceChunks (Some 3) (Some 1) sk) = []
  /\ chunks (snd (spliceChunks (Some 3) (Some 1) sk))
     = [10; 20; 30; 20; 30; 40; 50].
Proof.
  intros sk.
  destruct (spliceChunks_backwards sk (Some 3) (Some 1)) as (H1 & H2 & _).
  - vm_compute. reflexivity.
  - split; [exact H1 | exact H2].
Defined.


(* ================================================================== *)
(** ** Further properties: [_connectWithoutProxyAsync] *)
(* ================================================================== *)

Lemma connect_wait_run old s evs o s1 evs1 :
  connect_wait old s evs = (o, s1, evs1) ->
  exists consumed,
    forallb is_data consumed = true
    /\ match o with
       | Resolved _ =>
           evs = consumed ++ EvConnect :: evs1
           /\ s1 = removeAllListeners old (deliver (consumed ++ [EvConnect]) s)
       | Rejected e =>
           exists ev, evs = consumed ++ ev :: evs1
             /\ connect_rejection ev = Some e
             /\ s1 = removeAllListeners old (deliver (consumed ++ [ev]) s)
       | Pending =>
           evs = consumed /\ evs1 = [] /\ s1 = deliver consumed s
       end.
Proof.
  revert s o s1 evs1.
  induction evs as [|ev rest IH]; intros s o s1 evs1 H; cbn [connect_wait] in H.
  - inversion H; subst. exists []. split; [reflexivity|]. repeat split.
  - destruct ev as [|data| |e| |].
    + inversion H; subst. exists []. split; [reflexivity|]. repeat split.
    + apply IH in H. destruct H as (consumed & Hp & Hout).
      exists (EvData data :: consumed). split; [exact Hp|].
      destruct o as [u|e|].
      * destruct Hout as (H1 & H2). split; [cbn [app]; f_equal; exact H1|exact H2].
      * destruct Hout as (ev & H1 & H2 & H3). exists ev.
        split; [cbn [app]; f_equal; exact H1|]. split; [exact H2|exact H3].
      * destruct Hout as (H1 & H2 & H3).
        split; [f_equal; exact H1|]. split; [exact H2|exact H3].
    + inversion H; subst. exists []. split; [reflexivity|].
      exists EvTimeout. repeat split.
    + inversion H; subst. exists []. split; [reflexivity|].
      exists (EvError e). repeat split.
    + inversion H; subst. exists []. split; [reflexivity|].
      exists EvEnd. repeat split.
    + inversion H; subst. exists []. split; [reflexivity|].
      exists EvClose. repeat split.
Qed.

Lemma fields_removeAllListeners (old : option Z) (s : SocketAsync) :
  chunks (removeAllListeners old s) = chunks s
  /\ error (removeAllListeners old s) = error s
  /\ destroyed (removeAllListeners old s) = destroyed s
  /\ written (removeAllListeners old s) = written s
  /\ connects (removeAllListeners old s) = connects s.
Proof. repeat split. Qed.




Lemma error_deliver (evs : list Event) (s : SocketAsync) :
  error (deliver evs s)
  = match error s with Some e => Some e | None => first_terminal evs end.
Proof.
  revert s. induction evs as [|ev rest IH]; intros s.
  - cbn. destruct (error s); reflexivity.
  - unfold deliver in *. cbn [fold_left first_terminal]. rewrite IH.
    destruct (error s) as [e|] eqn:E.
    + rewrite (error_on_event_set ev s e E). reflexivity.
    + rewrite (error_on_event_unset ev s E).
      destruct (terminal_error ev); reflexivity.
Qed.

Lemma first_terminal_data (ds : list Buffer) (rest : list Event) :
  first_terminal (map EvData ds ++ rest) = first_terminal rest.
Proof. induction ds as [|d r IH]; [reflexivity|]. cbn. exact IH. Qed.

(** X13 -- When a connect with a port and a timeout that [net.Socket]
    accepts times out, the promise is rejected with [ECONNECTTIMEOUT] and
    the socket is destroyed, while the error kept on the socket, when none
    was kept before, is [ESOCKETTIMEOUT]: the two do not name the timeout
    alike. *)
Theorem connect_timeout_names
    (h : option jsstring) (p : option Z) (tmo : option Z)
    (s : SocketAsync) (ds : list Buffer) (rest : list Event) :
  accepted_timeout tmo = true ->
  accepted_port p = true ->
  let r := _connectWithoutProxyAsync h p tmo s
             (map EvData ds ++ EvTimeout :: rest) in
  outcome r = Rejected (Error (js "ECONNECTTIMEOUT"))
  /\ pending_events r = rest
  /\ destroyed (final r) = true
  /\ error (final r)
     = match error s with
       | Some e => Some e
       | None => Some (Error (js "ESOCKETTIMEOUT"))
       end.
Proof.
  intros _ _ r. subst r. unfold _connectWithoutProxyAsync.
  set (s0 := connect h p (if truthy tmo then setTimeout (or_default tmo 0) s else s)).
  assert (He : error s0 = error s).
  { unfold s0. destruct (truthy tmo); reflexivity. }
  assert (Hrun : forall s',
            connect_wait (timeout s) s' (map EvData ds ++ EvTimeout :: rest)
            = (Rejected (Error (js "ECONNECTTIMEOUT")),
               removeAllListeners (timeout s)
                 (deliver (map EvData ds ++ [EvTimeout]) s'), rest)).
  { induction ds as [|d r IH]; intros s'; [reflexivity|].
    cbn [map app connect_wait]. rewrite IH. reflexivity. }
  rewrite Hrun. unfold outcome, pending_events, final. cbn [fst snd].
  split; [reflexivity|]. split; [reflexivity|].
  destruct (fields_removeAllListeners (timeout s)
              (deliver (map EvData ds ++ [EvTimeout]) s0)) as (_ & F2 & F3 & _).
  rewrite F2, F3, error_deliver, first_terminal_data, He.
  rewrite destroyed_deliver, existsb_app. cbn. rewrite !orb_true_r.
  split; reflexivity.
Qed.

Lemma connect_timeout_names_witness :
  let r := _connectWithoutProxyAsync (Some (js "example.com")) (Some 443)
             (Some 500) constructor [EvData [1]; EvTimeout; EvClose] in
  outcome r = Rejected (Error (js "ECONNECTTIMEOUT"))
  /\ error (final r) = Some (Error (js "ESOCKETTIMEOUT")).
Proof.
  intros r.
  destruct (connect_timeout_names (Some (js "example.com")) (Some 443)
              (Some 500) constructor [[1]] [EvClose] eq_refl eq_refl)
    as (H1 & _ & _ & H4).
  split; [exact H1 | exact H4].
Defined.


(* ================================================================== *)
(** ** Further properties: the SOCKS5 negotiation *)
(* ================================================================== *)

Lemma readAsync_keeps_connects cb tmo : keeps_connects (readAsync cb tmo).
Proof.
  intros s evs. unfold readAsync.
  destruct (armed_fields tmo s) as (_ & _ & _ & _ & Hn). cbv zeta in Hn.
  set (s0 := if truthy tmo then setTimeout (or_default tmo 0) s else s) in *.
  assert (Hw : connects (final (readAsync_wait cb (timeout s) s0 evs)) = connects s).
  { destruct (readAsync_wait cb (timeout s) s0 evs) as [[o s1] evs1] eqn:E.
    apply readAsync_wait_run in E. destruct E as (consumed & _ & _ & Hout).
    unfold final. cbn [fst snd]. destruct o as [b|e|].
    - destruct Hout as (_ & _ & _ & _ & ->).
      cbn [removeAllListeners setTimeout connects].
      rewrite connects_deliver. exact Hn.
    - destruct Hout as (ev & _ & _ & ->).
      cbn [removeAllListeners setTimeout connects].
      rewrite connects_deliver. exact Hn.
    - destruct Hout as (_ & _ & _ & ->). rewrite connects_deliver. exact Hn. }
  destruct (chunks s0); [exact Hw|]. destruct (satisfied cb _); [|exact Hw].
  exact Hn.
Qed.

Lemma keeps_connects_bind {A B} (m : Async A) (k : A -> Async B) :
  keeps_connects m -> (forall a, keeps_connects (k a)) -> keeps_connects (bind m k).
Proof.
  intros Hm Hk s evs. unfold bind. specialize (Hm s evs).
  destruct (m s evs) as [[[a|e|] s'] evs']; unfold final in *; cbn [fst snd] in *;
    try assumption.
  rewrite <- Hm. apply (Hk a s' evs').
Qed.

Lemma keeps_connects_ret {A} (a : A) : keeps_connects (ret a).
Proof. intros s evs. reflexivity. Qed.

Lemma keeps_connects_lift {A} (r : Result A) : keeps_connects (lift r).
Proof. intros s evs. destruct r; reflexivity. Qed.

Lemma keeps_connects_write b : keeps_connects (call (write b)).
Proof. intros s evs. reflexivity. Qed.

Lemma readAndClearAsync_keeps_connects between cb tmo :
  keeps_connects (readAndClearAsync_between between cb tmo).
Proof.
  unfold readAndClearAsync_between.
  apply keeps_connects_bind; [apply readAsync_keeps_connects|]. intros b.
  apply keeps_connects_bind.
  { intros s evs. unfold final, call. cbn [fst snd]. apply connects_deliver. }
  intros _. apply keeps_connects_bind; [|intros _; apply keeps_connects_ret].
  intros s evs. reflexivity.
Qed.

(** What a resolved [readAndClearAsync] leaves. *)
Lemma readAndClearAsync_resolved cb tmo s evs b s1 evs1 :
  readAndClearAsync cb tmo s evs = (Resolved b, s1, evs1) ->
  chunks s1 = [] /\ written s1 = written s /\ connects s1 = connects s.
Proof.
  intros H.
  pose proof (readAndClearAsync_silent [] cb tmo s evs) as Hw.
  pose proof (readAndClearAsync_keeps_connects [] cb tmo s evs) as Hn.
  fold (readAndClearAsync cb tmo) in Hw, Hn. rewrite H in Hw, Hn.
  unfold final in Hw, Hn. cbn [fst snd] in Hw, Hn.
  split; [|split; assumption].
  unfold readAndClearAsync, readAndClearAsync_between, bind, call, ret in H.
  destruct (readAsync cb tmo s evs) as [[[c|e|] sa] ea]; inversion H; subst.
  apply spliceChunks_all.
Qed.

Lemma socks5_auth_flow u p tmo s evs chunks s1 evs1 :
  readAndClearAsync NoCallback (Some tmo) (write (socks5_auth_info u p) s) evs
  = (Resolved chunks, s1, evs1) ->
  socks5_auth u p tmo s evs = lift (check_auth_reply chunks) s1 evs1.
Proof.
  intros Hread. unfold socks5_auth. unfold bind at 1. unfold call at 1.
  unfold bind at 1. rewrite Hread. reflexivity.
Qed.

Lemma two_bytes (chunks : Buffer) (a b : Z) :
  len chunks = 2 -> index chunks 0 = Some a -> index chunks 1 = Some b ->
  chunks = [a; b].
Proof.
  intros Hl H0 H1. destruct chunks as [|x [|y [|z r]]]; unfold len in Hl;
    cbn [List.length] in Hl; try lia.
  compute in H0, H1. congruence.
Qed.

(** X14 -- The reply to the username/password message passes exactly when
    it is the two bytes [01 00].  A reply of another length is rejected
    with the byte-count error, a two-byte reply with another first byte
    with the method-code error, and one with another second byte with the
    authentication-failure error, each naming the byte. *)
Theorem socks5_auth_reply_checked
    (u p : jsstring) (tmo : Z) (s : SocketAsync) (evs : list Event)
    (reply : Buffer) (s1 : SocketAsync) (evs1 : list Event) :
  readAndClearAsync NoCallback (Some tmo) (write (socks5_auth_info u p) s) evs
  = (Resolved reply, s1, evs1) ->
  (socks5_auth u p tmo s evs = (Resolved tt, s1, evs1) <-> reply = [1; 0])
  /\ (len reply <> 2 ->
        socks5_auth u p tmo s evs
        = (Rejected (Error (js "Unexpected number of bytes received.")), s1, evs1))
  /\ (len reply = 2 -> index reply 0 <> Some 1 ->
        socks5_auth u p tmo s evs
        = (Rejected (Error (js "Unexpected authentication method code: "
                            ++ show_index (index reply 0) ++ js ".")), s1, evs1))
  /\ (len reply = 2 -> index reply 0 = Some 1 -> index reply 1 <> Some 0 ->
        socks5_auth u p tmo s evs
        = (Rejected (Error (js "Username and password authentication failure: "
                            ++ show_index (index reply 1) ++ js ".")), s1, evs1)).
Proof.
  intros Hread. rewrite (socks5_auth_flow _ _ _ _ _ _ _ _ Hread).
  unfold check_auth_reply.
  destruct (Z.eqb_spec (len reply) 2) as [Hl|Hl]; cbn [negb].
  2:{ split; [|split; [|split]].
      - split; [discriminate|]. intros ->. exfalso. apply Hl. reflexivity.
      - reflexivity.
      - intros; contradiction.
      - intros; contradiction. }
  destruct (index reply 0) as [a|] eqn:E0.
  2:{ destruct reply; [discriminate Hl | discriminate E0]. }
  destruct (index reply 1) as [b|] eqn:E1.
  2:{ destruct reply as [|x [|y r]]; try discriminate Hl; discriminate E1. }
  pose proof (two_bytes reply a b Hl E0 E1) as ->.
  cbn [strict_eq].
  destruct (Z.eqb_spec a 1) as [->|Ha]; cbn [negb].
  - destruct (Z.eqb_spec b 0) as [->|Hb]; cbn [negb lift ret reject].
    + split; [split; reflexivity|]. split; [intros H; exfalso; apply H; reflexivity|].
      split; [intros _ H; exfalso; apply H; reflexivity|].
      intros _ _ H; exfalso; apply H; reflexivity.
    + split; [split; [discriminate | intros H; inversion H; contradiction]|].
      split; [intros H; exfalso; apply H; reflexivity|].
      split; [intros _ H; exfalso; apply H; reflexivity|]. reflexivity.
  - cbn [lift reject].
    split; [split; [discriminate | intros H; inversion H; contradiction]|].
    split; [intros H; exfalso; apply H; reflexivity|].
    split; [reflexivity|]. intros _ H; inversion H; contradiction.
Qed.

Lemma socks5_auth_reply_checked_witness :
  outcome (socks5_auth (js "user") (js "pass") 10000 constructor [EvData [1; 1]])
  = Rejected (Error (js "Username and password authentication failure: 1.")).
Proof.
  pose proof (fun s1 H =>
    socks5_auth_reply_checked (js "user") (js "pass") 10000 constructor
      [EvData [1; 1]] [1; 1] s1 [] H) as W.
  edestruct W as (_ & _ & _ & H).
  - vm_compute. reflexivity.
  - rewrite H; [reflexivity | reflexivity | reflexivity | discriminate].
Defined.

(** X15 -- The reply to the connect request passes exactly when it starts
    with the two bytes [05 00]: its length is not checked, and the bound
    address the proxy sends after them is read and dropped. *)
Theorem socks5_connect_reply_accepted
    (host : jsstring) (port tmo : Z) (s : SocketAsync) (evs : list Event)
    (ti reply : Buffer) (s' : SocketAsync) (evs' : list Event) :
  socks5_target_info host port = Ok ti ->
  readAndClearAsync NoCallback (Some tmo) (write ti s) evs
  = (Resolved reply, s', evs') ->
  (socks5_connect host port tmo s evs = (Resolved tt, s', evs')
   <-> exists rest, reply = 5 :: 0 :: rest)
  /\ chunks s' = [].
Proof.
  intros Hti Hread.
  split; [|apply (readAndClearAsync_resolved _ _ _ _ _ _ _ Hread)].
  rewrite (socks5_connect_flow _ _ _ _ _ _ _ _ _ Hti Hread).
  unfold check_connect_reply. split.
  - intros H.
    destruct (index reply 0) as [a|] eqn:E0; cbn [strict_eq negb lift reject] in H;
      [|discriminate H].
    destruct (Z.eqb_spec a 5) as [->|]; cbn [negb lift reject] in H;
      [|discriminate H].
    destruct (index reply 1) as [b|] eqn:E1;
      cbn [strict_eq negb ERROR_MAP_get lift reject] in H; [|discriminate H].
    destruct (Z.eqb_spec b 0) as [->|]; cbn [negb] in H.
    + destruct reply as [|x [|y rest]]; compute in E0, E1; try discriminate.
      inversion E0; inversion E1; subst. exists rest. reflexivity.
    + destruct (match find _ ERROR_MAP with Some _ => _ | None => _ end)
        as [[|x m]|]; discriminate H.
  - intros (rest & ->). reflexivity.
Qed.

Lemma socks5_connect_reply_accepted_witness :
  outcome (socks5_connect (js "example.com") 80 10000 constructor
             [EvData [5; 0; 0; 1; 0; 0; 0; 0; 0; 0]])
  = Resolved tt.
Proof.
  pose proof (fun ti s' H H' =>
    socks5_connect_reply_accepted (js "example.com") 80 10000 constructor
      [EvData [5; 0; 0; 1; 0; 0; 0; 0; 0; 0]] ti
      [5; 0; 0; 1; 0; 0; 0; 0; 0; 0] s' [] H H') as W.
  edestruct W as ([_ H] & _).
  - vm_compute. reflexivity.
  - vm_compute. reflexivity.
  - rewrite H; [reflexivity | eexists; reflexivity].
Defined.


Lemma socks5_connect_resolved host port tmo s evs s1 evs1 :
  socks5_connect host port tmo s evs = (Resolved tt, s1, evs1) ->
  exists ti,
    socks5_target_info host port = Ok ti
    /\ chunks s1 = [] /\ written s1 = written s ++ [ti]
    /\ connects s1 = connects s.
Proof.
  unfold socks5_connect. unfold bind at 1. intros H.
  destruct (socks5_target_info host port) as [ti|e]; cbn [lift ret reject] in H;
    [|discriminate H].
  exists ti. split; [reflexivity|].
  unfold bind at 1 in H. unfold call at 1 in H. unfold bind at 1 in H.
  destruct (readAndClearAsync NoCallback (Some tmo) (write ti s) evs)
    as [[[c|e|] sa] ea] eqn:E; try discriminate H.
  destruct (readAndClearAsync_resolved _ _ _ _ _ _ _ E) as (H1 & H2 & H3).
  destruct (check_connect_reply host c); cbn [lift ret reject] in H;
    inversion H; subst. auto.
Qed.

Lemma socks5_auth_resolved u p tmo s evs s1 evs1 :
  socks5_auth u p tmo s evs = (Resolved tt, s1, evs1) ->
  chunks s1 = [] /\ written s1 = written s ++ [socks5_auth_info u p]
  /\ connects s1 = connects s.
Proof.
  unfold socks5_auth. unfold bind at 1. unfold call at 1. unfold bind at 1.
  intros H.
  destruct (readAndClearAsync NoCallback (Some tmo)
              (write (socks5_auth_info u p) s) evs)
    as [[[c|e|] sa] ea] eqn:E; try discriminate H.
  destruct (readAndClearAsync_resolved _ _ _ _ _ _ _ E) as (H1 & H2 & H3).
  destruct (check_auth_reply c); cbn [lift ret reject] in H; inversion H; subst.
  auto.
Qed.

(** X16 -- When the SOCKS5 negotiation succeeds it has written the
    greeting and the connect request, with the username/password message
    between them exactly when the proxy chose method 2, and nothing else;
    with method 0 the configured credentials are not sent.  It asked for no
    connect, and it leaves the receive buffer empty: whatever came with the
    proxy's replies is dropped. *)
Theorem socks5_success_writes
    (options : ConnectOptions) (proxy : ProxyOptions)
    (s : SocketAsync) (evs : list Event)
    (s1 : SocketAsync) (evs1 : list Event) :
  _connectSocks5Proxy options proxy s evs = (Resolved tt, s1, evs1) ->
  let tmo := or_default (p_timeout proxy) 10000 in
  let u := or_default (p_username proxy) [] in
  let p := or_default (p_password proxy) [] in
  exists ti method sa ea,
    socks5_target_info (o_host options) (o_port options) = Ok ti
    /\ readAndClearAsync NoCallback (Some tmo) (write socks5_greeting s) evs
       = (Resolved [5; method], sa, ea)
    /\ (method = 0 /\ written s1 = written s ++ [socks5_greeting; ti]
        \/ method = 2
           /\ written s1
              = written s ++ [socks5_greeting; socks5_auth_info u p; ti])
    /\ chunks s1 = []
    /\ connects s1 = connects s.
Proof.
  intros H tmo u p. unfold _connectSocks5Proxy in H. fold tmo u p in H.
  unfold bind at 1 in H. unfold call at 1 in H. unfold bind at 1 in H.
  destruct (readAndClearAsync NoCallback (Some tmo) (write socks5_greeting s) evs)
    as [[[c|e|] sa] ea] eqn:E; try discriminate H.
  destruct (readAndClearAsync_resolved _ _ _ _ _ _ _ E) as (Ha1 & Ha2 & Ha3).
  cbn [write written connects] in Ha2, Ha3.
  unfold bind at 1 in H.
  destruct (check_method_reply c) as [a|e] eqn:Ec; cbn [lift ret reject] in H;
    [|discriminate H].
  apply check_method_reply_ok in Ec. destruct Ec as (Hl & H0 & Hm & ->).
  unfold bind at 1 in H.
  destruct Hm as [Hm|Hm]; rewrite Hm in H; cbn [strict_eq Z.eqb Pos.eqb] in H.
  - cbn [ret] in H. apply socks5_connect_resolved in H.
    destruct H as (ti & Hti & H1 & H2 & H3).
    exists ti, 0, sa, ea. split; [exact Hti|].
    split; [rewrite (two_bytes c 5 0 Hl H0 Hm); reflexivity|].
    split; [left; split; [reflexivity|]|split; [exact H1 | congruence]].
    rewrite H2, Ha2, <- app_assoc. reflexivity.
  - destruct (socks5_auth u p tmo sa ea) as [[[x|e|] sb] eb] eqn:Eauth;
      try discriminate H.
    destruct x. apply socks5_auth_resolved in Eauth.
    destruct Eauth as (Hb1 & Hb2 & Hb3).
    apply socks5_connect_resolved in H.
    destruct H as (ti & Hti & H1 & H2 & H3).
    exists ti, 2, sa, ea. split; [exact Hti|].
    split; [rewrite (two_bytes c 5 2 Hl H0 Hm); reflexivity|].
    split; [right; split; [reflexivity|]|split; [exact H1 | congruence]].
    rewrite H2, Hb2, Ha2, <- !app_assoc. reflexivity.
Qed.

Lemma socks5_success_writes_witness :
  let options := mkOptions (js "10.0.0.7") 443 None None in
  let proxy := mkProxy (Some (js "127.0.0.1")) (Some 1086) None
                       (Some (js "user")) (Some (js "pass")) None in
  exists ti method,
    socks5_target_info (js "10.0.0.7") 443 = Ok ti
    /\ (method = 0
        /\ written (final (_connectSocks5Proxy options proxy constructor
                             [EvData [5; 0]; EvData [5; 0; 0; 1; 0; 0; 0; 0; 0; 0; 9]]))
           = [] ++ [socks5_greeting; ti]
        \/ method = 2
           /\ written (final (_connectSocks5Proxy options proxy constructor
                                [EvData [5; 0]; EvData [5; 0; 0; 1; 0; 0; 0; 0; 0; 0; 9]]))
              = [] ++ [socks5_greeting; socks5_auth_info (js "user") (js "pass"); ti]).
Proof.
  intros options proxy.
  destruct (_connectSocks5Proxy options proxy constructor
              [EvData [5; 0]; EvData [5; 0; 0; 1; 0; 0; 0; 0; 0; 0; 9]])
    as [[o s1] evs1] eqn:E.
  assert (Ho : o = Resolved tt).
  { apply (f_equal outcome) in E. vm_compute in E. congruence. }
  subst o.
  destruct (socks5_success_writes options proxy constructor _ s1 evs1 E)
    as (ti & method & _ & _ & Hti & _ & Hw & _).
  exists ti, method. split; [exact Hti | exact Hw].
Defined.


(* ================================================================== *)
(** ** Further properties: IPv6 targets in any form *)
(* ================================================================== *)






Lemma socks5_ipv6_group_outcomes (g : jsstring) :
  (5 < len g -> socks5_ipv6_group g = Throw RangeError_array)
  /\ (forall e, socks5_ipv6_group g = Throw e -> e = RangeError_array).
Proof.
  unfold socks5_ipv6_group, Array_join. split.
  - intros H. destruct (Z.ltb_spec (4 - len g + 1) 0); [reflexivity|lia].
  - intros e H. destruct (4 - len g + 1 <? 0); inversion H. reflexivity.
Qed.

Lemma map_result_throws (gs : list jsstring) :
  (exists g, In g gs /\ 5 < len g) ->
  map_result socks5_ipv6_group gs = Throw RangeError_array.
Proof.
  induction gs as [|g r IH]; intros (x & Hin & Hx); [contradiction|].
  cbn [map_result].
  destruct (socks5_ipv6_group g) as [b|e] eqn:E.
  - destruct Hin as [->|Hin].
    + rewrite (proj1 (socks5_ipv6_group_outcomes x) Hx) in E. discriminate E.
    + rewrite IH by (exists x; auto). reflexivity.
  - rewrite (proj2 (socks5_ipv6_group_outcomes g) e E). reflexivity.
Qed.

(** X18 -- An IPv6 host with an item of more than five characters between
    its colons (an embedded IPv4 address, a zone) makes the connect step
    fail with the [RangeError] of the padding, before anything is written
    or read for the connect request. *)
Theorem socks5_ipv6_long_item
    (host : jsstring) (port tmo : Z) (s : SocketAsync) (evs : list Event) :
  Net.isIP host = 6 ->
  (exists g, In g (split 58 host) /\ 5 < len g) ->
  socks5_target_info host port = Throw RangeError_array
  /\ socks5_connect host port tmo s evs = (Rejected RangeError_array, s, evs).
Proof.
  intros Hip Hlong.
  assert (H : socks5_target_info host port = Throw RangeError_array).
  { unfold socks5_target_info. rewrite Hip. cbn [Z.eqb Pos.eqb].
    rewrite map_result_throws by exact Hlong. reflexivity. }
  split; [exact H|]. unfold socks5_connect, bind. rewrite H. reflexivity.
Qed.

Lemma socks5_ipv6_long_item_witness :
  socks5_connect (js "::ffff:10.0.0.1") 80 10000 constructor [EvData [5; 0]]
  = (Rejected RangeError_array, constructor, [EvData [5; 0]]).
Proof.
  destruct (socks5_ipv6_long_item (js "::ffff:10.0.0.1") 80 10000 constructor
              [EvData [5; 0]]) as (_ & H).
  - vm_compute. reflexivity.
  - exists (js "10.0.0.1"). split; [vm_compute; auto 10 | vm_compute; reflexivity].
  - exact H.
Defined.


(* ================================================================== *)
(** ** Further properties: the HTTP CONNECT request *)
(* ================================================================== *)

Lemma http_flow options proxy s evs :
  _connectHttpProxy options proxy s evs
  = (chunks <- readAndClearAsync NoCallback
                 (Some (or_default (p_timeout proxy) 10000)) ;;
     lift (check_http_response chunks))
      (write (utf8_encode (http_header (o_host options) (o_port options)
                             (or_default (p_username proxy) [])
                             (or_default (p_password proxy) []))) s) evs.
Proof. reflexivity. Qed.

Lemma http_resolved options proxy s evs s1 evs1 :
  _connectHttpProxy options proxy s evs = (Resolved tt, s1, evs1) ->
  chunks s1 = [].
Proof.
  rewrite http_flow. unfold bind. intros H.
  destruct (readAndClearAsync _ _ _ _) as [[[c|e|] sa] ea] eqn:E;
    try discriminate H.
  destruct (readAndClearAsync_resolved _ _ _ _ _ _ _ E) as (H1 & _).
  destruct (check_http_response c); cbn [lift ret reject] in H; inversion H; subst.
  exact H1.
Qed.

Lemma http_fields options proxy s evs :
  written (final (_connectHttpProxy options proxy s evs))
  = written s ++ [utf8_encode (http_header (o_host options) (o_port options)
                                 (or_default (p_username proxy) [])
                                 (or_default (p_password proxy) []))]
  /\ connects (final (_connectHttpProxy options proxy s evs)) = connects s.
Proof.
  rewrite http_flow. split.
  - rewrite (silent_bind _ _ (readAndClearAsync_silent [] NoCallback _)
               (fun c => silent_lift _)). reflexivity.
  - rewrite (keeps_connects_bind _ _
               (readAndClearAsync_keeps_connects [] NoCallback _)
               (fun c => keeps_connects_lift _)). reflexivity.
Qed.

(** X19 -- The HTTP negotiation writes one message, the request, whatever
    the proxy answers or fails to answer, and asks for no connect; when it
    succeeds the receive buffer is empty, so whatever came with the
    proxy's answer is dropped.  Without a username the request carries no
    [Proxy-Authorization] line, whatever the password. *)
Theorem http_connect_writes_once
    (options : ConnectOptions) (proxy : ProxyOptions)
    (s : SocketAsync) (evs : list Event) :
  let host := o_host options in
  let port := o_port options in
  let u := or_default (p_username proxy) [] in
  let p := or_default (p_password proxy) [] in
  let r := _connectHttpProxy options proxy s evs in
  written (final r) = written s ++ [utf8_encode (http_header host port u p)]
  /\ connects (final r) = connects s
  /\ (outcome r = Resolved tt -> chunks (final r) = [])
  /\ (u = [] ->
      http_header host port u p
      = js "CONNECT " ++ host ++ js ":" ++ Number_toString 10 port
        ++ js " HTTP/1.1" ++ CRLF ++ js "Connection: keep-alive" ++ CRLF
        ++ js "Content-Length: 0" ++ CRLF ++ CRLF).
Proof.
  intros host port u p r. subst r.
  destruct (http_fields options proxy s evs) as [Hw Hn].
  split; [exact Hw|]. split; [exact Hn|]. split.
  - destruct (_connectHttpProxy options proxy s evs) as [[o s1] evs1] eqn:E.
    unfold outcome, final. cbn [fst snd]. intros ->.
    apply (http_resolved options proxy s evs s1 evs1 E).
  - intros ->. unfold http_header. rewrite <- !app_assoc. reflexivity.
Qed.

(* ================================================================== *)
(** ** Further properties: [connectAsync] through a proxy *)
(* ================================================================== *)

Lemma connect_direct_fields h p tmo s evs :
  let r := _connectWithoutProxyAsync h p tmo s evs in
  connects (final r) = connects s ++ [(h, p)]
  /\ written (final r) = written s
  /\ (outcome r = Resolved tt -> In EvConnect evs).
Proof.
  intros r. subst r. unfold _connectWithoutProxyAsync.
  set (s0 := if truthy tmo then setTimeout (or_default tmo 0) s else s).
  destruct (armed_fields tmo s) as (_ & _ & _ & Hw & Hn). cbv zeta in Hw, Hn.
  fold s0 in Hw, Hn.
  destruct (connect_wait (timeout s) (connect h p s0) evs) as [[o s1] evs1] eqn:E.
  apply connect_wait_run in E. destruct E as (consumed & _ & Hout).
  unfold final, outcome. cbn [fst snd].
  assert (Hf : forall evs',
            connects (removeAllListeners (timeout s) (deliver evs' (connect h p s0)))
            = connects s ++ [(h, p)]
            /\ written (removeAllListeners (timeout s) (deliver evs' (connect h p s0)))
               = written s).
  { intros evs'. cbn [removeAllListeners setTimeout connects written].
    rewrite connects_deliver, written_deliver. cbn [connect connects written].
    rewrite Hn, Hw. split; reflexivity. }
  destruct o as [u|e|].
  - destruct Hout as (H1 & ->). destruct (Hf (consumed ++ [EvConnect])) as [F1 F2].
    split; [exact F1|]. split; [exact F2|]. intros _. rewrite H1.
    apply in_or_app. right. left. reflexivity.
  - destruct Hout as (ev & _ & _ & ->). destruct (Hf (consumed ++ [ev])) as [F1 F2].
    split; [exact F1|]. split; [exact F2|]. discriminate.
  - destruct Hout as (_ & _ & ->).
    rewrite connects_deliver, written_deliver. cbn [connect connects written].
    rewrite Hn, Hw. split; [reflexivity|]. split; [reflexivity|discriminate].
Qed.

Lemma socks5_keeps_connects options proxy :
  keeps_connects (_connectSocks5Proxy options proxy).
Proof.
  unfold _connectSocks5Proxy.
  apply keeps_connects_bind; [apply keeps_connects_write|]. intros _.
  apply keeps_connects_bind; [apply readAndClearAsync_keeps_connects|]. intros c.
  apply keeps_connects_bind; [apply keeps_connects_lift|]. intros a.
  apply keeps_connects_bind.
  - destruct (strict_eq a 2); [|apply keeps_connects_ret].
    unfold socks5_auth.
    apply keeps_connects_bind; [apply keeps_connects_write|]. intros _.
    apply keeps_connects_bind; [apply readAndClearAsync_keeps_connects|]. intros b.
    apply keeps_connects_lift.
  - intros _. unfold socks5_connect.
    apply keeps_connects_bind; [apply keeps_connects_lift|]. intros ti.
    apply keeps_connects_bind; [apply keeps_connects_write|]. intros _.
    apply keeps_connects_bind; [apply readAndClearAsync_keeps_connects|]. intros b.
    apply keeps_connects_lift.
Qed.

Lemma socks5_clears_buffer options proxy :
  clears_buffer (_connectSocks5Proxy options proxy).
Proof.
  intros s evs [] s1 evs1 H. unfold _connectSocks5Proxy in H.
  unfold bind at 1 in H. unfold call at 1 in H. unfold bind at 1 in H.
  destruct (readAndClearAsync _ _ _ _) as [[[c|e|] sa] ea]; try discriminate H.
  unfold bind at 1 in H.
  destruct (check_method_reply c) as [a|e]; cbn [lift ret reject] in H;
    [|discriminate H].
  unfold bind at 1 in H.
  match type of H with
  | (let (_, _) := ?run in _) = _ => destruct run as [[[x|e|] sb] eb]
  end; try discriminate H.
  apply socks5_connect_resolved in H.
  destruct H as (ti & _ & H1 & _). exact H1.
Qed.


(** The body of the [try] block once the options passed the three
    assertions. *)
Lemma proxy_try_body_valid toLowerCase options proxy :
  let type := toLowerCase (if nonempty (p_type proxy)
                           then or_default (p_type proxy) []
                           else js "socks5") in
  jsstring_eqb type (js "socks5") || jsstring_eqb type (js "http") = true ->
  nonempty (p_host proxy) = true ->
  truthy (p_port proxy) = true ->
  proxy_try_body toLowerCase options proxy
  = (_connectWithoutProxyAsync (p_host proxy) (p_port proxy)
       (Some (or_default (p_timeout proxy) 10000)) ;;;
     if jsstring_eqb type (js "socks5")
     then _connectSocks5Proxy options proxy
     else _connectHttpProxy options proxy).
Proof.
  intros type Hk Hh Hp. unfold proxy_try_body. fold type.
  rewrite Hk, Hh, Hp. reflexivity.
Qed.

(** X20 -- The proxy options are checked before anything is done to the
    stream, in the order type, host, port: a type that is neither [socks5]
    nor [http] once lower-cased (an absent or empty type counts as
    [socks5]), a missing or empty host, a missing or zero port each reject
    [connectAsync] with a [ProxyError] around the assertion error, with the
    socket and the notifications exactly as they were.  When the three
    pass, with a port and a timeout that [net.Socket] accepts, one connect
    is asked for, to the proxy. *)
Theorem proxy_options_checked_first
    (toLowerCase : jsstring -> jsstring)
    (options : ConnectOptions) (proxy : ProxyOptions)
    (s : SocketAsync) (evs : list Event) :
  o_proxy options = Some proxy ->
  let type := toLowerCase (if nonempty (p_type proxy)
                           then or_default (p_type proxy) []
                           else js "socks5") in
  let known := jsstring_eqb type (js "socks5") || jsstring_eqb type (js "http") in
  let refused (msg : string) := (Rejected (ProxyError (AssertionError (js msg))), s, evs) in
  (known = false ->
     connectAsync toLowerCase options s evs
     = refused "The proxy type must be socks5 or http."%string)
  /\ (known = true -> nonempty (p_host proxy) = false ->
        connectAsync toLowerCase options s evs
        = refused "options.proxy.host is required."%string)
  /\ (known = true -> nonempty (p_host proxy) = true ->
      truthy (p_port proxy) = false ->
        connectAsync toLowerCase options s evs
        = refused "options.proxy.port is required."%string)
  /\ (known = true -> nonempty (p_host proxy) = true ->
      truthy (p_port proxy) = true ->
      accepted_port (p_port proxy) = true ->
      accepted_timeout (p_timeout proxy) = true ->
        connects (final (connectAsync toLowerCase options s evs))
        = connects s ++ [(p_host proxy, p_port proxy)]).
Proof.
  intros Hp type known refused. unfold connectAsync. rewrite Hp.
  unfold _connectWithProxyAsync, try_catch.
  split; [|split; [|split]].
  - intros Hk. unfold proxy_try_body. fold type. fold known. rewrite Hk.
    reflexivity.
  - intros Hk Hh. unfold proxy_try_body. fold type. fold known. rewrite Hk, Hh.
    reflexivity.
  - intros Hk Hh Hport. unfold proxy_try_body. fold type. fold known.
    rewrite Hk, Hh, Hport. reflexivity.
  - intros Hk Hh Hport _ _.
    rewrite (proxy_try_body_valid toLowerCase options proxy Hk Hh Hport).
    fold type. unfold bind.
    destruct (connect_direct_fields (p_host proxy) (p_port proxy)
                (Some (or_default (p_timeout proxy) 10000)) s evs) as (Hn & _).
    cbv zeta in Hn.
    destruct (_connectWithoutProxyAsync _ _ _ s evs) as [[[u|e|] sa] ea];
      unfold final in Hn |- *; cbn [fst snd] in Hn |- *; try exact Hn.
    set (neg := if jsstring_eqb type (js "socks5")
                then _connectSocks5Proxy options proxy
                else _connectHttpProxy options proxy).
    assert (Hneg : connects (final (neg sa ea)) = connects sa).
    { unfold neg. destruct (jsstring_eqb type (js "socks5")).
      - apply socks5_keeps_connects.
      - apply http_fields. }
    unfold final in Hneg.
    destruct (neg sa ea) as [[[x|e|] sb] eb]; cbn [fst snd] in Hneg |- *;
      congruence.
Qed.

Lemma proxy_options_checked_first_witness :
  let proxy := mkProxy None (Some 1086) (Some (js "HTTP")) None None None in
  let options := mkOptions (js "example.com") 443 None (Some proxy) in
  let proxy' := mkProxy (Some (js "127.0.0.1")) (Some 1086) (Some (js "HTTP"))
                        None None (Some 500) in
  let options' := mkOptions (js "example.com") 443 None (Some proxy') in
  connectAsync (map ascii_lower) options constructor [EvConnect]
  = (Rejected (ProxyError (AssertionError (js "options.proxy.host is required."))),
     constructor, [EvConnect])
  /\ connects (final (connectAsync (map ascii_lower) options' constructor []))
     = [(Some (js "127.0.0.1"), Some 1086)].
Proof.
  intros proxy options proxy' options'. split.
  - destruct (proxy_options_checked_first (map ascii_lower) options proxy
                constructor [EvConnect] eq_refl) as (_ & H & _).
    apply H; reflexivity.
  - destruct (proxy_options_checked_first (map ascii_lower) options' proxy'
                constructor [] eq_refl) as (_ & _ & _ & H).
    apply H; reflexivity.
Defined.

(** X21 -- Through a proxy the stream is never asked to connect to the
    target: the only connect asked for is to the proxy's host and port.
    Nothing is written before the stream reported the connect, and the
    call resolves only after it did, with the receive buffer empty. *)
Theorem proxy_connects_to_proxy_only
    (toLowerCase : jsstring -> jsstring)
    (options : ConnectOptions) (proxy : ProxyOptions)
    (s : SocketAsync) (evs : list Event) :
  o_proxy options = Some proxy ->
  let r := connectAsync toLowerCase options s evs in
  (connects (final r) = connects s
   \/ connects (final r) = connects s ++ [(p_host proxy, p_port proxy)])
  /\ (written (final r) <> written s -> In EvConnect evs)
  /\ (outcome r = Resolved tt -> In EvConnect evs /\ chunks (final r) = []).
Proof.
  intros Hp r. subst r. unfold connectAsync. rewrite Hp.
  unfold _connectWithProxyAsync.
  assert (Hbody : let b := proxy_try_body toLowerCase options proxy s evs in
            (connects (final b) = connects s
             \/ connects (final b) = connects s ++ [(p_host proxy, p_port proxy)])
            /\ (written (final b) <> written s -> In EvConnect evs)
            /\ (outcome b = Resolved tt -> In EvConnect evs /\ chunks (final b) = [])).
  { set (type := toLowerCase (if nonempty (p_type proxy)
                              then or_default (p_type proxy) []
                              else js "socks5")).
    destruct (jsstring_eqb type (js "socks5") || jsstring_eqb type (js "http"))
      eqn:Hk;
      [destruct (nonempty (p_host proxy)) eqn:Hh;
       [destruct (truthy (p_port proxy)) eqn:Hport|]|].
    - rewrite (proxy_try_body_valid toLowerCase options proxy Hk Hh Hport).
      fold type. cbv zeta. unfold bind.
      destruct (connect_direct_fields (p_host proxy) (p_port proxy)
                  (Some (or_default (p_timeout proxy) 10000)) s evs)
        as (Hn & Hw & Hc). cbv zeta in Hn, Hw, Hc.
      destruct (_connectWithoutProxyAsync _ _ _ s evs) as [[[u|e|] sa] ea];
        unfold final, outcome in Hn, Hw, Hc |- *; cbn [fst snd] in Hn, Hw, Hc |- *.
      + destruct u. specialize (Hc eq_refl).
        set (neg := if jsstring_eqb type (js "socks5")
                    then _connectSocks5Proxy options proxy
                    else _connectHttpProxy options proxy).
        assert (Hneg : connects (final (neg sa ea)) = connects sa
                       /\ forall s1 evs1, neg sa ea = (Resolved tt, s1, evs1) ->
                                          chunks s1 = []).
        { unfold neg. destruct (jsstring_eqb type (js "socks5")).
          - split; [apply socks5_keeps_connects|].
            intros s1 evs1 H. eapply socks5_clears_buffer; eauto.
          - split; [apply http_fields|]. intros s1 evs1 H.
            eapply http_resolved; eauto. }
        destruct Hneg as [Hneg1 Hneg2]. unfold final in Hneg1.
        destruct (neg sa ea) as [[o sb] eb]; cbn [fst snd] in Hneg1 |- *.
        split; [right; congruence|]. split; [intros _; exact Hc|].
        intros Ho. split; [exact Hc|]. subst o. eapply Hneg2. reflexivity.
      + split; [right; exact Hn|]. split; [intros H; contradiction|discriminate].
      + split; [right; exact Hn|]. split; [intros H; contradiction|discriminate].
    - unfold proxy_try_body. fold type. rewrite Hk, Hh, Hport. cbn.
      split; [left; reflexivity|]. split; [intros H; contradiction|discriminate].
    - unfold proxy_try_body. fold type. rewrite Hk, Hh. cbn.
      split; [left; reflexivity|]. split; [intros H; contradiction|discriminate].
    - unfold proxy_try_body. fold type. rewrite Hk. cbn.
      split; [left; reflexivity|]. split; [intros H; contradiction|discriminate]. }
  cbv zeta in Hbody. unfold try_catch.
  destruct (proxy_try_body toLowerCase options proxy s evs) as [[[u|e|] sa] ea];
    unfold final, outcome in Hbody |- *; cbn [fst snd] in Hbody |- *.
  - exact Hbody.
  - destruct Hbody as (H1 & H2 & _). split; [exact H1|]. split; [exact H2|].
    discriminate.
  - exact Hbody.
Qed.

Lemma proxy_connects_to_proxy_only_witness :
  let proxy := mkProxy (Some (js "127.0.0.1")) (Some 1086) None None None None in
  let options := mkOptions (js "example.com") 443 None (Some proxy) in
  connects (final (connectAsync (map ascii_lower) options constructor
                     [EvConnect; EvData [5; 0]; EvData [5; 0; 0; 1]]))
  = [(Some (js "127.0.0.1"), Some 1086)].
Proof.
  intros proxy options.
  destruct (proxy_connects_to_proxy_only (map ascii_lower) options proxy
              constructor [EvConnect; EvData [5; 0]; EvData [5; 0; 0; 1]] eq_refl)
    as ([H|H] & _).
  - vm_compute in H. discriminate H.
  - exact H.
Defined.
